(** * giantbomb-show-dl: the download orchestration of [bin.ts]

    A shallow embedding of the command line tool's orchestration code
    ([main], [initProgram], [downloadShow], [downloadVideosById],
    [downloadVideo]) together with the properties its specification states
    about it, and of the version updater of the release tooling
    ([scripts/commander-version-updater.js]).

    The program talks to four kinds of collaborators:
    - Node and npm library functions ([path], [sanitize-filename], [dayjs],
      [JSON.stringify]): the class [Platform];
    - the catalog client of [api.js] (network): the class [GiantBombAPI],
      whose operations thread an abstract [World], so that an answer may
      depend on everything that happened before;
    - the ledger of [downloadtracker.js]: [DownloadTracker];
    - the file system under [fs], which may refuse a call, the call then
      throwing: the class [FileSystem].

    Every call that reaches a collaborator is recorded, in program order, in
    the [trace] of the machine state. *)

From Stdlib Require Import ZArith Ascii String List Lia.
From stdpp Require Import base option list strings gmap.

Local Open Scope string_scope.

(** ** Data model *)

(** [{ original_url }] of an image record of the catalog. *)
Record Image := mkImage { original_url : option string }.

(** The [Video] record of the catalog.  An absent ([null], [undefined])
    field is [None]. *)
Record Video := mkVideo {
  id : string;
  name : string;
  publish_date : string;
  image : option Image;
  low_url : option string;
  high_url : option string;
  hd_url : option string;
}.

(** The show record of the catalog; [show_image] and [show_logo] are its
    [image] and [logo] fields. *)
Record Show := mkShow {
  title : string;
  show_image : option Image;
  show_logo : option Image;
}.

(** [DownloadCounter]; the counters stay far below the range in which a
    JavaScript number stops counting exactly. *)
Record DownloadCounter := mkCounter {
  downloaded : nat;
  skipped : nat;
  failed : nat;
}.

Definition QUALITY_LOW : string := "low".
Definition QUALITY_HIGH : string := "high".
Definition QUALITY_HD : string := "hd".
Definition QUALITY_HIGHEST : string := "highest".
Definition QUALITY_OPTIONS : list string :=
  [QUALITY_LOW; QUALITY_HIGH; QUALITY_HD; QUALITY_HIGHEST].

(** The parsed command line ([program]); an option that was not passed is
    [None], [--quality] defaults to [highest]. *)
Record Options := mkOptions {
  api_key : option string;
  show : option string;
  video_id : option string;
  dir : option string;
  quality : string;
  from_date : option string;
  to_date : option string;
  debug : bool;
}.

(** A [dayjs] value: its time stamp in milliseconds of local time, [None]
    for an invalid date (whose comparisons are all false). *)
Definition Dayjs := option Z.

(** The optional fourth argument of [downloadVideo]. *)
Record DateBounds := mkBounds {
  fromDate : option Dayjs;
  toDate : option Dayjs;
}.

Definition no_bounds : DateBounds := mkBounds None None.

(** ** JavaScript values and string operations *)

(** Truthiness of an optional string: [null], [undefined], [false] and the
    empty string are falsy. *)
Definition truthy (u : option string) : bool :=
  match u with
  | Some s => negb (String.eqb s EmptyString)
  | None => false
  end.

(** [c && u] for a boolean [c]: the falsy result [false] is [None]. *)
Definition js_and (c : bool) (u : option string) : option string :=
  if c then u else None.

(** [a || b] *)
Definition js_or (a b : option string) : option string :=
  if truthy a then a else b.

(** [video?.image?.original_url] *)
Definition image_url (i : option Image) : option string :=
  match i with
  | Some im => original_url im
  | None => None
  end.

Definition is_digit (c : ascii) : bool :=
  let n := nat_of_ascii c in (48 <=? n)%nat && (n <=? 57)%nat.

(** Does the whole string match [_[0-9]{4}\.mp4]? *)
Definition is_bitrate_suffix (s : string) : bool :=
  match s with
  | String u (String d1 (String d2 (String d3 (String d4 rest)))) =>
      Ascii.eqb u "_"%char && is_digit d1 && is_digit d2 && is_digit d3
      && is_digit d4 && String.eqb rest ".mp4"
  | _ => false
  end.

(** [s.replace(/_[0-9]{4}\.mp4$/, "_8000.mp4")]: the pattern is anchored at
    the end and has a fixed length of nine characters, so its only possible
    match is the last nine characters. *)
Definition replace_bitrate (s : string) : string :=
  let n := String.length s in
  if (n <? 9)%nat then s
  else if is_bitrate_suffix (substring (n - 9) 9 s)
       then substring 0 (n - 9) s ++ "_8000.mp4"
       else s.

(** [s.split(",")]: never empty, the empty string splits to one empty
    identifier. *)
Fixpoint split_comma (s : string) : list string :=
  match s with
  | EmptyString => [EmptyString]
  | String c rest =>
      if Ascii.eqb c ","%char then EmptyString :: split_comma rest
      else match split_comma rest with
           | x :: xs => String c x :: xs
           | [] => [String c EmptyString]
           end
  end.

(** ** dayjs comparisons at day granularity *)

Definition MS_PER_DAY : Z := 86400000.

(** [d.startOf("day")] and [d.endOf("day")] on a time stamp. *)
Definition startOf_day (t : Z) : Z := (t - t mod MS_PER_DAY)%Z.
Definition endOf_day (t : Z) : Z := (startOf_day t + (MS_PER_DAY - 1))%Z.

(** [a.isBefore(b, "day")] is [a.endOf("day") < b]. *)
Definition isBefore_day (a b : Dayjs) : bool :=
  match a, b with
  | Some x, Some y => (endOf_day x <? y)%Z
  | _, _ => false
  end.

(** [a.isAfter(b, "day")] is [b < a.startOf("day")]. *)
Definition isAfter_day (a b : Dayjs) : bool :=
  match a, b with
  | Some x, Some y => (y <? startOf_day x)%Z
  | _, _ => false
  end.

(** The calendar day of a time stamp. *)
Definition day_of (t : Z) : Z := (t / MS_PER_DAY)%Z.

(** ** Collaborators *)

(** Library functions the program calls.  Their code is not part of the
    repository; the development is parametric in them and [node_platform]
    below gives an executable model. *)
Class Platform := {
  (** [sanitize(s, { replacement: "_" })] of sanitize-filename *)
  sanitize : string → string;
  path_join : string → string → string;
  path_extname : string → string;
  path_resolve : string → string;
  (** [dayjs(s, "YYYY-MM-DD")] *)
  dayjs : string → Dayjs;
  (** [JSON.stringify(x, null, 2)] *)
  JSON_stringify_video : Video → string;
  JSON_stringify_show : Show → string;
}.

(** The catalog client [GiantBombAPI] of [api.js], which is not among the
    sources: its five operations are parameters.  Each takes the world and
    gives it back, so an answer may depend on what happened before.
    [downloadFile url path] answers whether the download succeeded, together
    with the bytes it left at [path] ([None]: no file was written). *)
Class GiantBombAPI (World : Type) := {
  getShowInfo : string → World → option Show * World;
  getVideos : Show → World → option (list Video) * World;
  getVideoById : string → World → option Video * World;
  downloadFile : string → string → World → (bool * option string) * World;
  checkIfExists : string → World → bool * World;
}.

(** Calls of [logger.js]. *)
Inductive LogCall :=
| log_init
| log_errorShowAndVideo
| log_errorOptionsMissing (missing : list string)
| log_errorDirectoryNotFound (d : string)
| log_errorInvalidQuality (q : string)
| log_debug (msg : string)
| log_posterDownload (kind target : string)
| log_episodeSkipBeforeDate (video_name : string)
| log_episodeSkipAfterDate (video_name : string)
| log_videoSkipDownloaded (video_name : string)
| log_videoSkipNoURL (video_name q : string)
| log_videoDownload (video_name filename : string)
| log_showComplete (show_title : string) (c : DownloadCounter)
| log_videosComplete (n : nat) (c : DownloadCounter).

(** What the program does to the outside, in program order. *)
Inductive Event :=
| EvLog (l : LogCall)
| EvMkdir (path : string)
| EvWriteFile (path content : string)
| EvGetShowInfo (show_name : string) (r : option Show)
| EvGetVideos (s : Show) (r : option (list Video))
| EvGetVideoById (video_id : string) (r : option Video)
| EvDownloadFile (url path : string) (success : bool)
| EvCheckIfExists (url : string) (found : bool)
| EvMarkDownloaded (key : string).

(** An entry of the file system. *)
Inductive Entry :=
| Directory
| File (content : string).

(** The file system under [fs]: [fs.mkdirSync] and [fs.writeFileSync] throw
    when it refuses the call (a name that is too long, a parent that is no
    directory, no permission), and [bin.ts] catches nothing.  Whether it
    refuses the path [p], holding the entries [f], is a parameter.  These
    are the two calls [bin.ts] makes on [fs] that can throw; the calls of the
    ledger and of the catalog client return, as the specification describes
    them. *)
Class FileSystem := {
  refuses_write : string → gmap string Entry → bool;
  refuses_mkdir : string → gmap string Entry → bool;
}.

(** A file system that accepts every call.  Where no other file system is
    named, a run is a run on this one. *)
#[global] Instance reliable_fs : FileSystem := {|
  refuses_write := λ _ _, false;
  refuses_mkdir := λ _ _, false;
|}.

(** Modelled from the spec: the class [DownloadTracker] of
    [downloadtracker.js], which is not among the sources.  It keeps the
    ledger of its target directory in memory; [isDownloaded key] holds iff
    [key] has a completed marker; [markDownloaded key] sets the marker and
    rewrites the whole ledger file of the directory; construction loads the
    ledger file, a missing file being an empty ledger. *)
Record DownloadTracker := mkTracker {
  tracker_directory : string;
  downloads : gmap string bool;
}.

(** ** The machine *)

Section Machine.
Context `{platform : Platform} {World : Type} `{api : GiantBombAPI World}.
Context {fsys : FileSystem}.

(** The state of a run.  [directory] is the global variable of [bin.ts];
    [files] is the file system; [ledgers] holds the ledger file of each
    target directory; [tracker] and [counts] are the one tracker object and
    the one counter object a command creates and passes by reference. *)
Record State := mkState {
  directory : string;
  files : gmap string Entry;
  ledgers : gmap string (gmap string bool);
  tracker : DownloadTracker;
  counts : DownloadCounter;
  world : World;
  trace : list Event;
}.

(** The outcome of a computation: it returns, or the process exits
    ([process.exit(code)]), or an exception is thrown that nothing catches,
    and the process dies where it is. *)
Inductive Result (A : Type) :=
| Done (a : A) (st : State)
| Exit (code : nat) (st : State)
| Throw (st : State).
Global Arguments Done {A} a st.
Global Arguments Exit {A} code st.
Global Arguments Throw {A} st.

Definition M (A : Type) : Type := State → Result A.

#[global] Instance M_ret : MRet M := λ A a st, Done a st.
#[global] Instance M_bind : MBind M := λ A B f m st,
  match m st with
  | Done a st' => f a st'
  | Exit code st' => Exit code st'
  | Throw st' => Throw st'
  end.

Definition process_exit {A} (code : nat) : M A := λ st, Exit code st.

Definition final_state {A} (r : Result A) : State :=
  match r with
  | Done _ st => st
  | Exit _ st => st
  | Throw st => st
  end.

(** *** State updates *)

Definition set_directory (d : string) (st : State) : State :=
  mkState d (files st) (ledgers st) (tracker st) (counts st) (world st) (trace st).
Definition set_files (f : gmap string Entry) (st : State) : State :=
  mkState (directory st) f (ledgers st) (tracker st) (counts st) (world st) (trace st).
Definition set_ledgers (l : gmap string (gmap string bool)) (st : State) : State :=
  mkState (directory st) (files st) l (tracker st) (counts st) (world st) (trace st).
Definition set_tracker (t : DownloadTracker) (st : State) : State :=
  mkState (directory st) (files st) (ledgers st) t (counts st) (world st) (trace st).
Definition set_counts (c : DownloadCounter) (st : State) : State :=
  mkState (directory st) (files st) (ledgers st) (tracker st) c (world st) (trace st).
Definition set_world (w : World) (st : State) : State :=
  mkState (directory st) (files st) (ledgers st) (tracker st) (counts st) w (trace st).
Definition set_trace (t : list Event) (st : State) : State :=
  mkState (directory st) (files st) (ledgers st) (tracker st) (counts st) (world st) t.

Definition emit (e : Event) (st : State) : State :=
  set_trace (trace st ++ [e])%list st.

(** *** Primitive operations *)

Definition logger (l : LogCall) : M unit := λ st, Done tt (emit (EvLog l) st).

Definition get_directory : M string := λ st, Done (directory st) st.

Definition assign_directory (d : string) : M unit :=
  λ st, Done tt (set_directory d st).

(** [fs.existsSync(p)] *)
Definition fs_existsSync (p : string) : M bool :=
  λ st, Done (bool_decide (is_Some (files st !! p))) st.

(** [fs.mkdirSync(p)] *)
Definition fs_mkdirSync (p : string) : M unit :=
  λ st,
    if refuses_mkdir p (files st) then Throw st
    else Done tt (emit (EvMkdir p) (set_files (<[p := Directory]> (files st)) st)).

(** [fs.writeFileSync(p, content)] *)
Definition fs_writeFileSync (p content : string) : M unit :=
  λ st,
    if refuses_write p (files st) then Throw st
    else Done tt (emit (EvWriteFile p content)
                       (set_files (<[p := File content]> (files st)) st)).

(** What a download leaves in the file system. *)
Definition store_download (p : string) (written : option string)
    (f : gmap string Entry) : gmap string Entry :=
  match written with
  | Some bytes => <[p := File bytes]> f
  | None => f
  end.

(** [api.downloadFile(url, p)] *)
Definition api_downloadFile (url p : string) : M bool := λ st,
  let '((success, written), w) := downloadFile url p (world st) in
  Done success (emit (EvDownloadFile url p success)
                  (set_world w (set_files (store_download p written (files st)) st))).

(** [api.checkIfExists(url)] *)
Definition api_checkIfExists (url : string) : M bool := λ st,
  let '(found, w) := checkIfExists url (world st) in
  Done found (emit (EvCheckIfExists url found) (set_world w st)).

(** [api.getShowInfo(name)] *)
Definition api_getShowInfo (show_name : string) : M (option Show) := λ st,
  let '(r, w) := getShowInfo show_name (world st) in
  Done r (emit (EvGetShowInfo show_name r) (set_world w st)).

(** [api.getVideos(show)] *)
Definition api_getVideos (s : Show) : M (option (list Video)) := λ st,
  let '(r, w) := getVideos s (world st) in
  Done r (emit (EvGetVideos s r) (set_world w st)).

(** [api.getVideoById(id)] *)
Definition api_getVideoById (i : string) : M (option Video) := λ st,
  let '(r, w) := getVideoById i (world st) in
  Done r (emit (EvGetVideoById i r) (set_world w st)).

(** [new DownloadTracker(d)] *)
Definition new_DownloadTracker (d : string) : M unit := λ st,
  Done tt (set_tracker (mkTracker d (default ∅ (ledgers st !! d))) st).

Definition isDownloaded (t : DownloadTracker) (key : string) : bool :=
  bool_decide (downloads t !! key = Some true).

(** [tracker.isDownloaded(key)] *)
Definition tracker_isDownloaded (key : string) : M bool :=
  λ st, Done (isDownloaded (tracker st) key) st.

(** [tracker.markDownloaded(key)] *)
Definition tracker_markDownloaded (key : string) : M unit := λ st,
  let t := tracker st in
  let d := <[key := true]> (downloads t) in
  Done tt (emit (EvMarkDownloaded key)
             (set_ledgers (<[tracker_directory t := d]> (ledgers st))
                (set_tracker (mkTracker (tracker_directory t) d) st))).

(** [counts = { downloaded: 0, skipped: 0, failed: 0 }] *)
Definition new_counts : M unit :=
  λ st, Done tt (set_counts (mkCounter 0 0 0) st).

Definition get_counts : M DownloadCounter := λ st, Done (counts st) st.

(** [counts.downloaded++], [counts.skipped++], [counts.failed++] *)
Definition incr_downloaded (c : DownloadCounter) : DownloadCounter :=
  mkCounter (S (downloaded c)) (skipped c) (failed c).
Definition incr_skipped (c : DownloadCounter) : DownloadCounter :=
  mkCounter (downloaded c) (S (skipped c)) (failed c).
Definition incr_failed (c : DownloadCounter) : DownloadCounter :=
  mkCounter (downloaded c) (skipped c) (S (failed c)).

Definition counts_downloaded_incr : M unit :=
  λ st, Done tt (set_counts (incr_downloaded (counts st)) st).
Definition counts_skipped_incr : M unit :=
  λ st, Done tt (set_counts (incr_skipped (counts st)) st).
Definition counts_failed_incr : M unit :=
  λ st, Done tt (set_counts (incr_failed (counts st)) st).

(** [if (c) { body }] *)
Definition when (c : bool) (body : M unit) : M unit :=
  if c then body else mret tt.

(** [for (const x of xs) { body }] *)
Fixpoint for_of {A} (xs : list A) (body : A → M unit) : M unit :=
  match xs with
  | [] => mret tt
  | x :: rest => body x ;; for_of rest body
  end.

(** ** The program *)

Section Program.
Variable program : Options.

(** Lines 273-278 of [downloadVideo]: the URL for the requested quality. *)
Definition hdUrl (video : Video) : option string :=
  js_and (negb (String.eqb (quality program) QUALITY_LOW)
          && negb (String.eqb (quality program) QUALITY_HIGH))
         (hd_url video).

Definition highUrl (video : Video) : option string :=
  js_and (negb (String.eqb (quality program) QUALITY_LOW)) (high_url video).

Definition urlToDownload (video : Video) : option string :=
  js_or (hdUrl video) (js_or (highUrl video) (low_url video)).

(** [fromDate && publishDate.isBefore(fromDate, "day")] *)
Definition before_fromDate (video : Video) (bounds : DateBounds) : bool :=
  match fromDate bounds with
  | Some d => isBefore_day (dayjs (publish_date video)) d
  | None => false
  end.

(** [toDate && publishDate.isAfter(toDate, "day")] *)
Definition after_toDate (video : Video) (bounds : DateBounds) : bool :=
  match toDate bounds with
  | Some d => isAfter_day (dayjs (publish_date video)) d
  | None => false
  end.

(** The base name [filename] of lines 239-241. *)
Definition video_filename_base (video : Video) : string :=
  sanitize (publish_date video ++ " - " ++ name video).

(** The name [videoFilename] of lines 285-287. *)
Definition videoFilename (video : Video) (url : string) : string :=
  substring 0 10 (publish_date video) ++ " - " ++ name video ++ path_extname url.

(** Lines 239-264 of [downloadVideo]: the metadata file and the image.
    [isDownloaded] only reads the ledger, so it is asked before the test of
    the image URL. *)
Definition prepareVideo (video : Video) (d : string) : M unit :=
  let filename := video_filename_base video in
  (* Write metadata to JSON file *)
  let metadataPath := path_join d (filename ++ ".metadata.json") in
  present ← fs_existsSync metadataPath;
  when (negb present)
    (logger (log_debug "Writing metadata for video") ;;
     fs_writeFileSync metadataPath (JSON_stringify_video video)) ;;
  (* Download video image *)
  image_tracked ← tracker_isDownloaded (id video ++ "_image");
  when (truthy (image_url (image video)) && negb image_tracked)
    (let url := default EmptyString (image_url (image video)) in
     let imagePath := path_join d (filename ++ path_extname url) in
     logger (log_posterDownload "video image" imagePath) ;;
     success ← api_downloadFile url imagePath;
     when success (tracker_markDownloaded (id video ++ "_image"))).

(** Lines 266-310 of [downloadVideo]: the video file. *)
Definition fetchVideo (video : Video) (d : string) : M unit :=
  video_tracked ← tracker_isDownloaded (id video);
  if (video_tracked : bool) return M unit then
    counts_skipped_incr ;;
    logger (log_videoSkipDownloaded (name video))
  else
    (* Get the correct URL for the quality *)
    if negb (truthy (urlToDownload video)) return M unit then
      counts_skipped_incr ;;
      logger (log_videoSkipNoURL (name video) (quality program))
    else
      let url := default EmptyString (urlToDownload video) in
      let videoFilename := videoFilename video url in
      logger (log_videoDownload (name video) videoFilename) ;;
      url ←
        (if String.eqb (quality program) QUALITY_HIGHEST
            && bool_decide (hd_url video = urlToDownload video)
            return M string
         then
           (* Check if 8k version exists, as it's not returned from the API *)
           logger (log_debug "Checking if 8k bitrate video exists") ;;
           let highestUrl := replace_bitrate (default EmptyString (hd_url video)) in
           highestUrlExists ← api_checkIfExists highestUrl;
           if (highestUrlExists : bool) return M string then
             logger (log_debug "Found 8k bitrate video, downloading that") ;;
             mret highestUrl
           else mret url
         else mret url);
      success ← api_downloadFile url (path_join d videoFilename);
      if (success : bool) return M unit then
        counts_downloaded_incr ;;
        tracker_markDownloaded (id video)
      else
        counts_failed_incr.

(** [downloadVideo]: the date filter, then the two blocks above on the
    global [directory]. *)
Definition downloadVideo (video : Video) (bounds : DateBounds) : M unit :=
  if before_fromDate video bounds then
    counts_skipped_incr ;;
    logger (log_episodeSkipBeforeDate (name video))
  else if after_toDate video bounds then
    counts_skipped_incr ;;
    logger (log_episodeSkipAfterDate (name video))
  else
    d ← get_directory;
    prepareVideo video d ;;
    fetchVideo video d.

(** [if (program.from_date) { fromDate = dayjs(program.from_date, ...) }] *)
Definition parse_bound (o : option string) : option Dayjs :=
  if truthy o then Some (dayjs (default EmptyString o)) else None.

(** Lines 147-161 and 163-177 of [downloadShow]: the show image and the
    show logo, [what] being [image] or [logo]. *)
Definition downloadShowPoster (what : string) (i : option Image) : M unit :=
  when (truthy (image_url i))
    (let url := default EmptyString (image_url i) in
     let imageExtension := path_extname url in
     d ← get_directory;
     let imageTargetPath := path_join d (what ++ imageExtension) in
     tracked ← tracker_isDownloaded ("show_" ++ what);
     when (negb tracked)
       (logger (log_posterDownload ("show " ++ what) (what ++ imageExtension)) ;;
        success ← api_downloadFile url imageTargetPath;
        when success (tracker_markDownloaded ("show_" ++ what)))).

Definition downloadShow : M unit :=
  (* Parse passed dates if any *)
  let fromDate := parse_bound (from_date program) in
  let toDate := parse_bound (to_date program) in
  (* Retrieve show data *)
  found ← api_getShowInfo (default EmptyString (show program));
  match found return M unit with
  | None => process_exit 1
  | Some show =>
      (* Create directory for the show if it does not exist yet *)
      d ← get_directory;
      assign_directory (path_join d (sanitize (title show))) ;;
      d ← get_directory;
      present ← fs_existsSync d;
      when (negb present) (fs_mkdirSync d) ;;
      new_DownloadTracker d ;;
      (* Write metadata to JSON file *)
      let metadataPath := path_join d "metadata.json" in
      present ← fs_existsSync metadataPath;
      when (negb present)
        (logger (log_debug "Writing metadata for show") ;;
         fs_writeFileSync metadataPath (JSON_stringify_show show)) ;;
      (* Download the show image and the show logo if available *)
      downloadShowPoster "image" (show_image show) ;;
      downloadShowPoster "logo" (show_logo show) ;;
      listed ← api_getVideos show;
      match listed return M unit with
      | None => process_exit 1
      | Some videos =>
          new_counts ;;
          for_of videos (λ video, downloadVideo video (mkBounds fromDate toDate)) ;;
          c ← get_counts;
          logger (log_showComplete (title show) c)
      end
  end.

(** The body of the loop of [downloadVideosById]. *)
Definition downloadVideoById (videoId : string) : M unit :=
  found ← api_getVideoById videoId;
  match found return M unit with
  | None => counts_failed_incr
  | Some video => downloadVideo video no_bounds
  end.

Definition downloadVideosById : M unit :=
  d ← get_directory;
  new_DownloadTracker d ;;
  let videoIds := split_comma (default EmptyString (video_id program)) in
  new_counts ;;
  for_of videoIds downloadVideoById ;;
  c ← get_counts;
  logger (log_videosComplete (length videoIds) c).

Definition initProgram : M unit :=
  logger log_init ;;
  (* Check if not both show and video parameters are passed *)
  if Bool.eqb (negb (truthy (show program))) (negb (truthy (video_id program)))
     return M unit
  then logger log_errorShowAndVideo ;; process_exit 1
  else
    (* Check if all required options are present *)
    let missingOptions :=
      ((if truthy (api_key program) then [] else ["api_key"])
       ++ (if truthy (dir program) then [] else ["dir"]))%list in
    if negb (Nat.eqb (length missingOptions) 0) return M unit
    then logger (log_errorOptionsMissing missingOptions) ;; process_exit 1
    else
      (* Check if the passed directory exists *)
      assign_directory (path_resolve (default EmptyString (dir program))) ;;
      d ← get_directory;
      present ← fs_existsSync d;
      if negb present return M unit
      then logger (log_errorDirectoryNotFound d) ;; process_exit 1
      else
        (* Check if the quality is valid *)
        if negb (bool_decide (quality program ∈ QUALITY_OPTIONS)) return M unit
        then logger (log_errorInvalidQuality (quality program)) ;; process_exit 1
        else
          (* global.debug and the construction of the API client have no
             counterpart: logger calls are recorded whatever the flag, and
             the client is the instance of [GiantBombAPI] *)
          mret tt.

Definition main : M unit :=
  initProgram ;;
  if truthy (show program) return M unit then downloadShow
  else if truthy (video_id program) return M unit then downloadVideosById
  else mret tt.

End Program.

(** A process starts on the persistent state (file system, ledger files,
    the world) with fresh globals and an empty trace. *)
Definition boot (f : gmap string Entry) (l : gmap string (gmap string bool))
    (w : World) : State :=
  mkState EmptyString f l (mkTracker EmptyString ∅) (mkCounter 0 0 0) w [].

(** The next process on what a finished one left behind. *)
Definition restart (st : State) : State :=
  boot (files st) (ledgers st) (world st).

(** ** Vocabulary of the properties *)

(** The path of the per-video metadata file. *)
Definition metadataPath (d : string) (v : Video) : string :=
  path_join d (video_filename_base v ++ ".metadata.json").

(** The path of the video's image file. *)
Definition imagePath (d : string) (v : Video) : string :=
  path_join d (video_filename_base v
               ++ path_extname (default EmptyString (image_url (image v)))).

(** The path the main video file is fetched to. *)
Definition videoPath (program : Options) (d : string) (v : Video) : string :=
  path_join d (videoFilename v (default EmptyString (urlToDownload program v))).

(** The ledger file of the tracker's directory holds what the tracker has
    in memory (a missing file being an empty ledger). *)
Definition ledger_synced (st : State) : Prop :=
  default ∅ (ledgers st !! tracker_directory (tracker st)) = downloads (tracker st).

(** What every step of a command preserves: the globals, the marks of the
    ledger, the files that exist, the counter of failures. *)
Record extends (st st' : State) : Prop := mkExtends {
  ext_directory : directory st' = directory st;
  ext_tracker_directory :
    tracker_directory (tracker st') = tracker_directory (tracker st);
  ext_marks : ∀ k, isDownloaded (tracker st) k = true →
                   isDownloaded (tracker st') k = true;
  ext_files : ∀ p, is_Some (files st !! p) → is_Some (files st' !! p);
  ext_synced : ledger_synced st → ledger_synced st';
  ext_failed : (failed (counts st) ≤ failed (counts st'))%nat;
}.

(** The events of the metadata and image phase of a video. *)
Definition prepare_event (v : Video) (e : Event) : Prop :=
  match e with
  | EvLog (log_debug _) | EvLog (log_posterDownload _ _) => True
  | EvWriteFile _ _ | EvDownloadFile _ _ _ => True
  | EvMarkDownloaded k => k = id v ++ "_image"
  | _ => False
  end.

(** The probe of the 8000 bitrate file: lines 290-299. *)
Definition probes (program : Options) (v : Video) : bool :=
  String.eqb (quality program) QUALITY_HIGHEST
  && bool_decide (hd_url v = urlToDownload program v).

Definition probe_events (url : string) (found : bool) : list Event :=
  [EvLog (log_debug "Checking if 8k bitrate video exists");
   EvCheckIfExists url found]
  ++ (if found
      then [EvLog (log_debug "Found 8k bitrate video, downloading that")]
      else []).

(** What [prepareVideo] does: from [st] to [st2], emitting [pre]. *)
Record prepared (v : Video) (st st2 : State) (pre : list Event) : Prop := mkPrepared {
  prep_trace : trace st2 = (trace st ++ pre)%list;
  prep_counts : counts st2 = counts st;
  prep_extends : extends st st2;
  prep_events : Forall (prepare_event v) pre;
  prep_marks : ∀ k, k ≠ id v ++ "_image" →
      isDownloaded (tracker st2) k = isDownloaded (tracker st) k;
  prep_writes : ∀ p c, EvWriteFile p c ∈ pre →
      p = metadataPath (directory st) v ∧ c = JSON_stringify_video v
      ∧ files st !! p = None;
  prep_metadata : files st !! metadataPath (directory st) v = None →
      EvWriteFile (metadataPath (directory st) v) (JSON_stringify_video v) ∈ pre;
  prep_metadata_present : is_Some (files st2 !! metadataPath (directory st) v);
  prep_image :
      truthy (image_url (image v)) = true →
      isDownloaded (tracker st) (id v ++ "_image") = false →
      ∃ ok, EvDownloadFile (default EmptyString (image_url (image v)))
                           (imagePath (directory st) v) ok ∈ pre
            ∧ (ok = true → isDownloaded (tracker st2) (id v ++ "_image") = true);
  prep_files : ∀ p, files st2 !! p ≠ files st !! p →
      (p = metadataPath (directory st) v ∧ files st !! p = None)
      ∨ ∃ url ok, EvDownloadFile url p ok ∈ pre;
}.

(** The events of the video file phase of a video. *)
Definition fetch_event (v : Video) (e : Event) : Prop :=
  match e with
  | EvLog (log_debug _) | EvLog (log_videoSkipDownloaded _)
  | EvLog (log_videoSkipNoURL _ _) | EvLog (log_videoDownload _ _) => True
  | EvCheckIfExists _ _ | EvDownloadFile _ _ _ => True
  | EvMarkDownloaded k => k = id v
  | _ => False
  end.

(** What [fetchVideo] does: from [st] to [st'], emitting [post]. *)
Record fetched (program : Options) (v : Video) (st st' : State)
    (post : list Event) : Prop := mkFetched {
  fetch_trace : trace st' = (trace st ++ post)%list;
  fetch_extends : extends st st';
  fetch_events : Forall (fetch_event v) post;
  fetch_writes : ∀ p c, EvWriteFile p c ∉ post;
  fetch_files : ∀ p, files st' !! p ≠ files st !! p →
      ∃ url ok, EvDownloadFile url p ok ∈ post;
  fetch_cases :
    (isDownloaded (tracker st) (id v) = true
     ∧ post = [EvLog (log_videoSkipDownloaded (name v))]
     ∧ counts st' = incr_skipped (counts st) ∧ tracker st' = tracker st)
    ∨ (isDownloaded (tracker st) (id v) = false
       ∧ truthy (urlToDownload program v) = false
       ∧ post = [EvLog (log_videoSkipNoURL (name v) (quality program))]
       ∧ counts st' = incr_skipped (counts st) ∧ tracker st' = tracker st)
    ∨ (isDownloaded (tracker st) (id v) = false
       ∧ truthy (urlToDownload program v) = true
       ∧ ∃ probe url ok,
           post = ([EvLog (log_videoDownload (name v)
                      (videoFilename v (default EmptyString (urlToDownload program v))))]
                   ++ probe
                   ++ [EvDownloadFile url (videoPath program (directory st) v) ok]
                   ++ (if ok then [EvMarkDownloaded (id v)] else []))%list
           ∧ (if probes program v
              then ∃ found,
                  probe = probe_events (replace_bitrate (default EmptyString (hd_url v))) found
                  ∧ url = (if found then replace_bitrate (default EmptyString (hd_url v))
                           else default EmptyString (urlToDownload program v))
              else probe = [] ∧ url = default EmptyString (urlToDownload program v))
           ∧ counts st' = (if ok then incr_downloaded (counts st)
                           else incr_failed (counts st))
           ∧ isDownloaded (tracker st') (id v) = ok
           ∧ (ok = false → tracker st' = tracker st ∧ ledgers st' = ledgers st));
}.

(** The identifiers looked up in the catalog, in order, and how many of
    the lookups found nothing. *)
Fixpoint lookups (delta : list Event) : list string :=
  match delta with
  | [] => []
  | EvGetVideoById i _ :: rest => i :: lookups rest
  | _ :: rest => lookups rest
  end.

Fixpoint lookups_not_found (delta : list Event) : nat :=
  match delta with
  | [] => 0
  | EvGetVideoById _ None :: rest => S (lookups_not_found rest)
  | _ :: rest => lookups_not_found rest
  end.

(** A log of the date filter. *)
Definition date_skip_log (e : Event) : Prop :=
  match e with
  | EvLog (log_episodeSkipBeforeDate _) | EvLog (log_episodeSkipAfterDate _) => True
  | _ => False
  end.

(** The number of videos a counter accounts for. *)
Definition total (c : DownloadCounter) : nat :=
  downloaded c + skipped c + failed c.

(** [n] videos accounted for between [st] and [st'], with the events
    [delta]: the trace grows by [delta], the state grows, a file is written
    only where none was, and the counters account for [n] more videos. *)
Record progress (n : nat) (st st' : State) (delta : list Event) : Prop := mkProgress {
  prog_trace : trace st' = (trace st ++ delta)%list;
  prog_extends : extends st st';
  prog_writes : ∀ p c, EvWriteFile p c ∈ delta → files st !! p = None;
  prog_total : total (counts st') = (total (counts st) + n)%nat;
}.

(** The loop of [downloadShow] and what follows it. *)
Definition showVideos (program : Options) (s : Show) (videos : list Video) : M unit :=
  for_of videos
    (λ video, downloadVideo program video
                (mkBounds (parse_bound (from_date program))
                          (parse_bound (to_date program)))) ;;
  c ← get_counts;
  logger (log_showComplete (title s) c).

(** The state [st_a] in which [downloadShow] enters its loop over [videos],
    having started in [st] and emitted [pre]. *)
Record show_setup (program : Options) (s : Show) (videos : list Video)
    (st st_a : State) (pre : list Event) : Prop := mkSetup {
  su_show : (getShowInfo (default EmptyString (show program)) (world st)).1 = Some s;
  su_videos : ∃ w, (getVideos s w).1 = Some videos;
  su_trace : trace st_a = (trace st ++ pre)%list;
  su_listed : ∃ pre', pre = (pre' ++ [EvGetVideos s (Some videos)])%list;
  su_directory : directory st_a = path_join (directory st) (sanitize (title s));
  su_tracker_directory : tracker_directory (tracker st_a) = directory st_a;
  su_synced : ledger_synced st_a;
  su_loaded : ∀ k, default ∅ (ledgers st !! directory st_a) !! k = Some true →
                   isDownloaded (tracker st_a) k = true;
  su_files : ∀ p, is_Some (files st !! p) → is_Some (files st_a !! p);
  su_writes : ∀ p c, EvWriteFile p c ∈ pre →
      p = path_join (directory st_a) "metadata.json"
      ∧ c = JSON_stringify_show s ∧ files st !! p = None;
  su_counts : counts st_a = mkCounter 0 0 0;
}.

(** An event of one call of [downloadVideo] past the date filter. *)
Definition video_event (e : Event) : Prop :=
  match e with
  | EvLog (log_episodeSkipBeforeDate _) | EvLog (log_episodeSkipAfterDate _) => False
  | EvLog _ | EvWriteFile _ _ | EvDownloadFile _ _ _ | EvCheckIfExists _ _
  | EvMarkDownloaded _ => True
  | _ => False
  end.

(** From [st] to [st'] with the events [delta]: no file disappears, and a
    file is written only where none was. *)
Definition grows (st st' : State) (delta : list Event) : Prop :=
  trace st' = (trace st ++ delta)%list
  ∧ (∀ p, is_Some (files st !! p) → is_Some (files st' !! p))
  ∧ (∀ p c, EvWriteFile p c ∈ delta → files st !! p = None).

(** The date filter rejects the video. *)
Definition date_skipped (v : Video) (b : DateBounds) : bool :=
  before_fromDate v b || after_toDate v b.

(** Nothing is left to fetch for the video: the date filter rejects it, or
    its identifier is marked in the ledger, or no URL resolves for the
    quality. *)
Definition settled (program : Options) (b : DateBounds) (t : DownloadTracker)
    (v : Video) : bool :=
  date_skipped v b || isDownloaded t (id v) || negb (truthy (urlToDownload program v)).

(** *** The set-up of the show directory *)

(** A call of the logger that reports a rejected command line. *)
Definition error_log (l : LogCall) : Prop :=
  match l with
  | log_errorShowAndVideo | log_errorOptionsMissing _
  | log_errorDirectoryNotFound _ | log_errorInvalidQuality _ => True
  | _ => False
  end.

(** A call of the catalog client. *)
Definition network_event (e : Event) : Prop :=
  match e with
  | EvGetShowInfo _ _ | EvGetVideos _ _ | EvGetVideoById _ _
  | EvDownloadFile _ _ _ | EvCheckIfExists _ _ => True
  | _ => False
  end.

(** Lines 179-193 of [downloadShow]: the list of the videos and the loop. *)
Definition listVideos (program : Options) (s : Show) : M unit :=
  listed ← api_getVideos s;
  match listed return M unit with
  | None => process_exit 1
  | Some videos => new_counts ;; showVideos program s videos
  end.

(** An event of lines 127-177 of [downloadShow], [d] being the directory of
    the show. *)
Definition setup_event (d : string) (e : Event) : Prop :=
  match e with
  | EvGetShowInfo _ _ | EvLog (log_debug _) | EvLog (log_posterDownload _ _)
  | EvDownloadFile _ _ _ => True
  | EvMkdir p => p = d
  | EvWriteFile p _ => p = path_join d "metadata.json"
  | EvMarkDownloaded k => k = "show_image" ∨ k = "show_logo"
  | _ => False
  end.

(** The state [st4] in which [downloadShow] asks for the list of the videos
    of the show [s], having started in [st] and emitted [pre]. *)
Record show_directory (s : Show) (st st4 : State) (pre : list Event) : Prop :=
  mkShowDirectory {
  sd_trace : trace st4 = (trace st ++ pre)%list;
  sd_directory : directory st4 = path_join (directory st) (sanitize (title s));
  sd_events : Forall (setup_event (directory st4)) pre;
  sd_exists : is_Some (files st4 !! directory st4);
  sd_metadata : is_Some (files st4 !! path_join (directory st4) "metadata.json");
  sd_mkdir : EvMkdir (directory st4) ∈ pre ↔ files st !! directory st4 = None;
  sd_files : ∀ p, is_Some (files st !! p) → is_Some (files st4 !! p);
  sd_counts : counts st4 = counts st;
}.

(** An event of the loop over the videos: no directory is made and the
    catalog is not asked again. *)
Definition loop_event (e : Event) : Prop :=
  match e with
  | EvLog _ | EvWriteFile _ _ | EvDownloadFile _ _ _ | EvCheckIfExists _ _
  | EvMarkDownloaded _ => True
  | _ => False
  end.

(** An event of [downloadVideosById]: a lookup of an identifier, or an event
    of a video. *)
Definition id_event (e : Event) : Prop :=
  match e with
  | EvGetVideoById _ _ => True
  | _ => loop_event e
  end.

(** The report of the counters at the end of a command. *)
Definition report (e : Event) : Prop :=
  match e with
  | EvLog (log_showComplete _ _) | EvLog (log_videosComplete _ _) => True
  | _ => False
  end.

(** *** File systems that refuse *)

(** The file system refuses a call on the files of [s]. *)
Definition refused (s : State) : Prop :=
  ∃ p, refuses_write p (files s) = true ∨ refuses_mkdir p (files s) = true.

(** The outcome [r] is an exception thrown in a state whose files the file
    system refuses a call on, or it is [r']. *)
Definition throws_or {A} (r r' : Result A) : Prop :=
  (∃ s, r = Throw s ∧ refused s) ∨ r = r'.

(** The video passes the date filter, its metadata file is absent, and the
    file system refuses to write it. *)
Definition metadata_refused (v : Video) (b : DateBounds) (st : State) : bool :=
  negb (date_skipped v b)
  && negb (bool_decide (is_Some (files st !! metadataPath (directory st) v)))
  && refuses_write (metadataPath (directory st) v) (files st).

(** From [st] to [s] events were added, none of them a report of the
    counters. *)
Definition unreported (st s : State) : Prop :=
  ∃ delta, trace s = (trace st ++ delta)%list ∧ Forall (λ e, ¬ report e) delta.

(** However [m] ends, it has reported no counters; an exit is an exit with
    code 1 and an exception is one of the file system. *)
Definition reports_nothing {A} (m : M A) : Prop :=
  ∀ st, match m st with
        | Done _ s => unreported st s
        | Exit code s => code = 1%nat ∧ unreported st s
        | Throw s => refused s ∧ unreported st s
        end.

(** The same of the runs of [m] that do not return. *)
Definition dies_unreported {A} (m : M A) : Prop :=
  ∀ st, match m st with
        | Done _ s => True
        | Exit code s => code = 1%nat ∧ unreported st s
        | Throw s => refused s ∧ unreported st s
        end.

(** The command line without [--from_date], without [--to_date]. *)
Definition without_from_date (o : Options) : Options :=
  mkOptions (api_key o) (show o) (video_id o) (dir o) (quality o)
    None (to_date o) (debug o).
Definition without_to_date (o : Options) : Options :=
  mkOptions (api_key o) (show o) (video_id o) (dir o) (quality o)
    (from_date o) None (debug o).

End Machine.

Arguments State World : clear implicits.
Arguments M World A : clear implicits.

(** ** An executable model of the collaborators *)

(** Modelled from the spec: sanitize-filename is a dependency, not a source
    of the repository; the spec describes it as replacing the unsafe path
    characters by a fixed placeholder.  The model is for names written in
    ASCII: it replaces the characters [/ ? < > \ : * |], the double quote and
    the control characters below 32 by [_] and cuts the result after 255
    bytes, as the library does; it leaves out what the library does to
    reserved names, to trailing dots and spaces and to the control characters
    from 128 to 159. *)
Definition is_unsafe_char (c : ascii) : bool :=
  let n := nat_of_ascii c in
  (n <? 32)%nat || bool_decide (n ∈ [47; 63; 60; 62; 92; 58; 42; 124; 34]).

Fixpoint replace_unsafe (s : string) : string :=
  match s with
  | EmptyString => EmptyString
  | String c rest =>
      String (if is_unsafe_char c then "_"%char else c) (replace_unsafe rest)
  end.

Definition sanitize_model (s : string) : string :=
  substring 0 255 (replace_unsafe s).

(** [path.join(d, f)] for a directory [d] without trailing separator and a
    relative [f] that needs no normalisation. *)
Definition path_join_model (d f : string) : string := d ++ "/" ++ f.

(** The part of [s] from its last occurrence of [c] on, if any. *)
Fixpoint from_last (c : ascii) (s : string) : option string :=
  match s with
  | EmptyString => None
  | String a rest =>
      match from_last c rest with
      | Some r => Some r
      | None => if Ascii.eqb a c then Some s else None
      end
  end.

(** [path.extname(p)]: from the last dot of the last path segment, empty
    when there is none or when the segment starts with it. *)
Definition path_extname_model (p : string) : string :=
  let base := match from_last "/"%char p with
              | Some (String _ b) => b
              | _ => p
              end in
  match from_last "."%char base with
  | Some e => if (String.length e <? String.length base)%nat then e else EmptyString
  | None => EmptyString
  end.

Definition digit_value (c : ascii) : option Z :=
  if is_digit c then Some (Z.of_nat (nat_of_ascii c) - 48)%Z else None.

(** The value of a string of decimal digits. *)
Fixpoint digits_value (acc : Z) (s : string) : option Z :=
  match s with
  | EmptyString => Some acc
  | String c rest =>
      match digit_value c with
      | Some v => digits_value (10 * acc + v)%Z rest
      | None => None
      end
  end.

(** Days since 1970-01-01 of a date of the proleptic Gregorian calendar. *)
Definition days_from_civil (y m d : Z) : Z :=
  let y' := (if m <=? 2 then y - 1 else y)%Z in
  let era := (y' / 400)%Z in
  let yoe := (y' - era * 400)%Z in
  let doy := ((153 * (if 2 <? m then m - 3 else m + 9) + 2) / 5 + d - 1)%Z in
  let doe := (yoe * 365 + yoe / 4 - yoe / 100 + doy)%Z in
  (era * 146097 + doe - 719468)%Z.

(** [dayjs(s, "YYYY-MM-DD")] on the two shapes the program meets:
    [YYYY-MM-DD] (the command line) and [YYYY-MM-DD HH:MM:SS] (the
    catalog); anything else is an invalid date. *)
Definition dayjs_model (s : string) : Dayjs :=
  let field i n := digits_value 0 (substring i n s) in
  let sep i c := String.eqb (substring i 1 s) c in
  let date :=
    if sep 4 "-" && sep 7 "-" then
      match field 0 4, field 5 2, field 8 2 with
      | Some y, Some m, Some d =>
          if (1 <=? m)%Z && (m <=? 12)%Z && (1 <=? d)%Z && (d <=? 31)%Z
          then Some (days_from_civil y m d * MS_PER_DAY)%Z else None
      | _, _, _ => None
      end
    else None in
  match date with
  | None => None
  | Some t =>
      if (String.length s =? 10)%nat then Some t
      else if (String.length s =? 19)%nat && sep 10 " " && sep 13 ":" && sep 16 ":"
      then match field 11 2, field 14 2, field 17 2 with
           | Some h, Some mi, Some sec =>
               if (h <? 24)%Z && (mi <? 60)%Z && (sec <? 60)%Z
               then Some (t + ((h * 60 + mi) * 60 + sec) * 1000)%Z else None
           | _, _, _ => None
           end
      else None
  end.

Definition dquote : string := String (ascii_of_nat 34) EmptyString.
Definition newline : string := String (ascii_of_nat 10) EmptyString.

(** [JSON.stringify(x, null, 2)] on the fields of the model, for strings
    that need no escaping. *)
Definition json_string (s : string) : string := dquote ++ s ++ dquote.

Definition json_url (indent : string) (key : string) (u : option string) : string :=
  indent ++ json_string key ++ ": "
  ++ match u with Some s => json_string s | None => "null" end.

Definition json_image (key : string) (i : option Image) : string :=
  match i with
  | None => "  " ++ json_string key ++ ": null"
  | Some im =>
      "  " ++ json_string key ++ ": {" ++ newline
      ++ json_url "    " "original_url" (original_url im) ++ newline ++ "  }"
  end.

Definition json_object (fields : list string) : string :=
  "{" ++ newline ++ String.concat ("," ++ newline) fields ++ newline ++ "}".

Definition JSON_stringify_video_model (v : Video) : string :=
  json_object
    [ json_url "  " "id" (Some (id v));
      json_url "  " "name" (Some (name v));
      json_url "  " "publish_date" (Some (publish_date v));
      json_image "image" (image v);
      json_url "  " "low_url" (low_url v);
      json_url "  " "high_url" (high_url v);
      json_url "  " "hd_url" (hd_url v) ].

Definition JSON_stringify_show_model (s : Show) : string :=
  json_object
    [ json_url "  " "title" (Some (title s));
      json_image "image" (show_image s);
      json_image "logo" (show_logo s) ].

(** The library functions as the examples need them: absolute paths in
    normal form (so that [path.resolve] changes nothing and [path.join] puts
    a separator in between), names and URLs in ASCII without a character
    that JSON escapes, dates written [YYYY-MM-DD].  The properties do not
    depend on this instance: they hold for every [Platform]. *)
#[global] Instance node_platform : Platform := {|
  sanitize := sanitize_model;
  path_join := path_join_model;
  path_extname := path_extname_model;
  path_resolve := λ p, p;
  dayjs := dayjs_model;
  JSON_stringify_video := JSON_stringify_video_model;
  JSON_stringify_show := JSON_stringify_show_model;
|}.

(** ** The version updater of [scripts/commander-version-updater.js] *)

(** An item of a regular expression without alternatives: a literal
    character, or [[0-9]+]. *)
Inductive RegexItem :=
| Lit (c : ascii)
| Digits.

Fixpoint literal (s : string) : list RegexItem :=
  match s with
  | EmptyString => []
  | String c rest => Lit c :: literal rest
  end.

(** [CURRENT_VERSION = "] and [";], the text around the version number. *)
Definition VERSION_OPEN : string := "CURRENT_VERSION = " ++ dquote.
Definition VERSION_CLOSE : string := dquote ++ ";".

(** [[0-9]+\.[0-9]+\.[0-9]+] *)
Definition VERSION_NUMBER : list RegexItem :=
  [Digits; Lit "."; Digits; Lit "."; Digits].

(** [VERSION_REGEX], without its flag [g]. *)
Definition VERSION_REGEX : list RegexItem :=
  (literal VERSION_OPEN ++ VERSION_NUMBER ++ literal VERSION_CLOSE)%list.

(** The longest prefix of digits, and what follows it. *)
Fixpoint span_digits (s : string) : string * string :=
  match s with
  | String c rest =>
      if is_digit c
      then let '(d, r) := span_digits rest in (String c d, r)
      else (EmptyString, s)
  | EmptyString => (EmptyString, EmptyString)
  end.

(** The match of the items at the start of [s], if there is one: the text
    that matched and the text after it.  [[0-9]+] takes every digit there
    is; giving one back never helps where a literal that is no digit comes
    next, which is the case all through [VERSION_REGEX]. *)
Fixpoint match_here (items : list RegexItem) (s : string) : option (string * string) :=
  match items with
  | [] => Some (EmptyString, s)
  | Lit a :: items' =>
      match s with
      | String c rest =>
          if Ascii.eqb c a
          then '(m, r) ← match_here items' rest; Some (String c m, r)
          else None
      | EmptyString => None
      end
  | Digits :: items' =>
      match span_digits s with
      | (EmptyString, _) => None
      | (d, rest) => '(m, r) ← match_here items' rest; Some (d ++ m, r)
      end
  end.

(** A text cut at the matches of [VERSION_REGEX], from left to right: a
    character no match starts at, or a match. *)
Inductive Piece :=
| Text (c : ascii)
| Match (m : string).

(** A match is never empty, so the length of the text bounds the number of
    pieces. *)
Fixpoint pieces_upto (n : nat) (s : string) : list Piece :=
  match n with
  | 0 => []
  | S n' =>
      match match_here VERSION_REGEX s with
      | Some (m, rest) => Match m :: pieces_upto n' rest
      | None =>
          match s with
          | String c rest => Text c :: pieces_upto n' rest
          | EmptyString => []
          end
      end
  end.

Definition pieces (s : string) : list Piece := pieces_upto (String.length s) s.

Definition piece_text (p : Piece) : string :=
  match p with
  | Text c => String c EmptyString
  | Match m => m
  end.

Fixpoint pieces_text (ps : list Piece) : string :=
  match ps with
  | [] => EmptyString
  | p :: rest => piece_text p ++ pieces_text rest
  end.

Definition matches_of (ps : list Piece) : list string :=
  omap (λ p, match p with Match m => Some m | Text _ => None end) ps.

(** [s.match(VERSION_REGEX)]: with the flag [g], every match, or [null]
    when there is none. *)
Definition js_match (s : string) : option (list string) :=
  match matches_of (pieces s) with
  | [] => None
  | ms => Some ms
  end.

(** The replacement text of [replace] and [replaceAll] for one match:
    [$$] is a dollar sign, [$&] the match, [$`] the text before it and [$']
    the text after it; the expression has no group, so a dollar sign before
    anything else stands for itself. *)
Fixpoint expand (replacement matched before after : string) : string :=
  match replacement with
  | EmptyString => EmptyString
  | String c rest =>
      if Ascii.eqb c "$" then
        match rest with
        | String c' rest' =>
            if Ascii.eqb c' "$" then String "$" (expand rest' matched before after)
            else if Ascii.eqb c' "&" then matched ++ expand rest' matched before after
            else if Ascii.eqb c' "`" then before ++ expand rest' matched before after
            else if Ascii.eqb c' "'" then after ++ expand rest' matched before after
            else String c (expand rest matched before after)
        | EmptyString => String c EmptyString
        end
      else String c (expand rest matched before after)
  end.

(** The pieces with every match replaced, [before] being the text before
    the first of them. *)
Fixpoint replace_pieces (replacement before : string) (ps : list Piece) : string :=
  match ps with
  | [] => EmptyString
  | Text c :: rest =>
      String c (replace_pieces replacement (before ++ String c EmptyString) rest)
  | Match m :: rest =>
      expand replacement m before (pieces_text rest)
      ++ replace_pieces replacement (before ++ m) rest
  end.

(** [s.replaceAll(VERSION_REGEX, replacement)] *)
Definition js_replaceAll (s replacement : string) : string :=
  replace_pieces replacement EmptyString (pieces s).

(** [s.startsWith(p)], with what follows [p]. *)
Fixpoint strip_prefix (p s : string) : option string :=
  match p with
  | EmptyString => Some s
  | String a p' =>
      match s with
      | String c rest => if Ascii.eqb c a then strip_prefix p' rest else None
      | EmptyString => None
      end
  end.

(** [s.replace(pattern, replacement)] for a string [pattern]: its first
    occurrence is replaced, [before] being the text before [s]. *)
Fixpoint replace_from (before pattern replacement s : string) : string :=
  match strip_prefix pattern s with
  | Some after => expand replacement pattern before after ++ after
  | None =>
      match s with
      | String c rest =>
          String c (replace_from (before ++ String c EmptyString) pattern replacement rest)
      | EmptyString => EmptyString
      end
  end.

Definition js_replace (s pattern replacement : string) : string :=
  replace_from EmptyString pattern replacement s.

(** How a call ends: it returns a value, or it throws a [TypeError]. *)
Inductive Completion (A : Type) :=
| Returned (a : A)
| TypeError.
Global Arguments Returned {A} a.
Global Arguments TypeError {A}.

(** [readVersion]; [None] is [null].  Reading [length] of the [null] that
    [match] gives when nothing matches throws. *)
Definition readVersion (contents : string) : Completion (option string) :=
  match js_match contents with
  | None => TypeError
  | Some matches =>
      if negb (Nat.eqb (length matches) 0)
      then
        let match_ := default EmptyString (head matches) in
        Returned (Some (js_replace (js_replace match_ VERSION_OPEN EmptyString)
                                   VERSION_CLOSE EmptyString))
      else Returned None
  end.

(** [writeVersion] *)
Definition writeVersion (contents version : string) : string :=
  js_replaceAll contents (VERSION_OPEN ++ version ++ VERSION_CLOSE).

(** A version number: the whole text matches [[0-9]+\.[0-9]+\.[0-9]+]. *)
Definition is_version (v : string) : bool :=
  match match_here VERSION_NUMBER v with
  | Some (_, EmptyString) => true
  | _ => false
  end.


(** The line of the version [v]. *)
Definition version_line (v : string) : string := VERSION_OPEN ++ v ++ VERSION_CLOSE.

Fixpoint all_chars (P : ascii → bool) (s : string) : bool :=
  match s with
  | EmptyString => true
  | String c rest => P c && all_chars P rest
  end.

(** No comma in the text. *)
Definition comma_free (s : string) : bool :=
  all_chars (λ c, negb (Ascii.eqb c ",")) s.

(** [l.join(",")] *)
Fixpoint join_comma (l : list string) : string :=
  match l with
  | [] => EmptyString
  | [x] => x
  | x :: rest => x ++ "," ++ join_comma rest
  end.

(** A piece with its match replaced by [r]. *)
Definition substitute (r : string) (p : Piece) : Piece :=
  match p with
  | Text c => Text c
  | Match _ => Match r
  end.

(** The text is at its end, or at a [C], where a match may start. *)
Definition stops (s : string) : Prop :=
  match s with
  | EmptyString => True
  | String c _ => c = "C"%char
  end.

(** Two texts that are the same up to a point where both stop. *)
Inductive agree : string → string → Prop :=
| agree_stop s t : stops s → stops t → agree s t
| agree_cons c s t : agree s t → agree (String c s) (String c t).

(** ** A small catalog to run the program on *)

Definition example_video : Video :=
  mkVideo "101" "Who? Me" "2020-01-01"
    (Some (mkImage (Some "https://cdn.example/101.jpg")))
    (Some "https://cdn.example/101_800.mp4")
    None
    (Some "https://cdn.example/101_3500.mp4").

(** A video with a low URL and nothing else. *)
Definition low_only_video : Video :=
  mkVideo "102" "Unboxing" "2020-02-02" None
    (Some "https://cdn.example/102_800.mp4") None None.

(** A video with an hd URL and nothing else, not even an image. *)
Definition hd_only_video : Video :=
  mkVideo "103" "Endurance Run" "2020-03-03" None
    None None (Some "https://cdn.example/103_3500.mp4").

Definition example_show : Show := mkShow "Quick Look" None None.

(** The network as the example sees it: the URLs that can be downloaded and
    the URLs whose existence probe succeeds.  It never changes. *)
Record Network := mkNetwork {
  fetchable : list string;
  existing : list string;
}.

(** A catalog with the one show [example_show], whose list is
    [example_video], on such a network. *)
#[global] Instance example_api : GiantBombAPI Network := {|
  getShowInfo := λ n w,
    (if String.eqb n (title example_show) then Some example_show else None, w);
  getVideos := λ s w, (Some [example_video], w);
  getVideoById := λ i w,
    (if String.eqb i (id example_video) then Some example_video else None, w);
  downloadFile := λ url p w,
    (if bool_decide (url ∈ fetchable w)
     then (true, Some ("bytes of " ++ url)) else (false, None), w);
  checkIfExists := λ url w, (bool_decide (url ∈ existing w), w);
|}.

(** [--api_key KEY --show "Quick Look" --dir /videos --quality q] *)
Definition show_options (q : string) : Options :=
  mkOptions (Some "KEY") (Some "Quick Look") None (Some "/videos") q None None false.

(** [--api_key KEY --video_id ids --dir /videos --quality q] with
    [--from_date 2021-01-01 --to_date 2021-12-31] *)
Definition id_options (ids q : string) : Options :=
  mkOptions (Some "KEY") None (Some ids) (Some "/videos") q
    (Some "2021-01-01") (Some "2021-12-31") false.

(** A file system with the target directory and nothing else. *)
Definition example_files : gmap string Entry := {[ "/videos" := Directory ]}.

(** The first process on the example. *)
Definition example_boot (w : Network) : State Network :=
  boot example_files ∅ w.

(** A state in which [downloadVideo] is called, with the ledger [marks]. *)
Definition example_state (marks : gmap string bool) (w : Network) : State Network :=
  mkState "/videos" example_files ∅ (mkTracker "/videos" marks) (mkCounter 0 0 0) w [].

(** The ledger in which the example video is marked. *)
Definition example_marks : gmap string bool := {[ "101" := true ]}.

(** Nothing can be downloaded. *)
Definition offline : Network := mkNetwork [] [].

(** Everything of the example can be downloaded, and the 8000 bitrate file
    of the example video exists. *)
Definition online : Network :=
  mkNetwork ["https://cdn.example/101.jpg"; "https://cdn.example/101_800.mp4";
             "https://cdn.example/101_3500.mp4"; "https://cdn.example/101_8000.mp4"]
            ["https://cdn.example/101_8000.mp4"].

(** The bounds [--from_date 2020-01-01 --to_date 2020-01-01]. *)
Definition new_year_2020 : DateBounds :=
  mkBounds (Some (dayjs "2020-01-01")) (Some (dayjs "2020-01-01")).

(** The first and the second run of the show command when nothing can be
    downloaded. *)
Definition offline_run_1 : State Network :=
  final_state (main (show_options "low") (example_boot offline)).
Definition offline_run_2 : State Network :=
  final_state (main (show_options "low") (restart offline_run_1)).

(** The first run of the show command when everything can be downloaded. *)
Definition online_run_1 : State Network :=
  final_state (main (show_options "low") (example_boot online)).

(** A catalog that knows the example show but cannot list its videos, on a
    network where nothing can be downloaded. *)
Inductive Outage := outage.

#[global] Instance unlisted_api : GiantBombAPI Outage := {|
  getShowInfo := λ n w, (Some example_show, w);
  getVideos := λ s w, (None, w);
  getVideoById := λ i w, (None, w);
  downloadFile := λ url p w, ((false, None), w);
  checkIfExists := λ url w, (false, w);
|}.

(** Does a segment of the path hold more than [n] bytes, [k] being the
    length of the segment so far? *)
Fixpoint segment_longer_than (n k : nat) (p : string) : bool :=
  match p with
  | EmptyString => (n <? k)%nat
  | String c rest =>
      if Ascii.eqb c "/" then (n <? k)%nat || segment_longer_than n 0 rest
      else segment_longer_than n (S k) rest
  end.

(** A file system whose names hold 255 bytes at most: beyond,
    [fs.mkdirSync] and [fs.writeFileSync] throw [ENAMETOOLONG]. *)
Definition strict_fs : FileSystem := {|
  refuses_write := λ p _, segment_longer_than 255 0 p;
  refuses_mkdir := λ p _, segment_longer_than 255 0 p;
|}.

(** A file system that refuses every call: a read-only one. *)
Definition read_only_fs : FileSystem := {|
  refuses_write := λ _ _, true;
  refuses_mkdir := λ _ _, true;
|}.

(** A video whose name holds 300 characters: its sanitised base name holds
    255 bytes, the name of its metadata file 14 more. *)
Definition long_named_video : Video :=
  mkVideo "104" (string_of_list_ascii (repeat "a"%char 300)) "2020-04-04" None
    (Some "https://cdn.example/104_800.mp4") None None.


(** The ledger in which the example video and its image are marked. *)
Definition example_marks_all : gmap string bool :=
  <[ "101_image" := true ]> example_marks.

(** A state in which [downloadShow] is called when the ledger of the show
    directory marks the example video. *)
Definition marked_state : State Network :=
  mkState "/videos" example_files {[ "/videos/Quick Look" := example_marks ]}
    (mkTracker EmptyString ∅) (mkCounter 0 0 0) online [].

(** [--api_key KEY --show "Quick Look" --quality low], without [--dir]. *)
Definition options_without_dir : Options :=
  mkOptions (Some "KEY") (Some "Quick Look") None None "low" None None false.

(** [--api_key KEY --show n --dir /videos --quality low --from_date f] *)
Definition show_options_from (n f : string) : Options :=
  mkOptions (Some "KEY") (Some n) None (Some "/videos") "low" (Some f) None false.

(** A source file around its version line, with an older version line in a
    comment after it. *)
Definition example_head : string := "program.version(CURRENT_VERSION); const ".
Definition example_tail : string := " // was " ++ version_line "1.7.0".
Definition example_contents : string :=
  example_head ++ version_line "1.7.1" ++ example_tail.

(** * Properties *)

(** Where a property names no file system, its runs are runs on
    [reliable_fs], the file system that accepts every call.  What a run
    does on a file system that refuses calls is the subject of the part
    on such file systems below: it dies in the exception of the call, or it
    is the run on [reliable_fs]. *)

(** ** Strings and dates *)

Lemma length_append (a b : string) :
  String.length (a ++ b) = (String.length a + String.length b)%nat.
Proof. induction a as [|c a IH]; simpl; [done | by rewrite IH]. Qed.

(** The asset key of a video's image is never the video's own key. *)
Lemma append_image_neq (s : string) : s ++ "_image" ≠ s.
Proof.
  intros E. apply (f_equal String.length) in E.
  rewrite length_append in E. simpl in E. lia.
Qed.

Lemma substring_skip (p s : string) (m : nat) :
  substring (String.length p) m (p ++ s) = substring 0 m s.
Proof. induction p as [|c p IH]; simpl; done. Qed.

Lemma substring_prefix (p s : string) :
  substring 0 (String.length p) (p ++ s) = p.
Proof.
  induction p as [|c p IH]; simpl.
  - by destruct s.
  - by rewrite IH.
Qed.

(** The bitrate token before the extension is replaced by [8000]. *)
Lemma replace_bitrate_token (p : string) (d1 d2 d3 d4 : ascii) :
  is_digit d1 = true → is_digit d2 = true → is_digit d3 = true → is_digit d4 = true →
  replace_bitrate (p ++ String "_" (String d1 (String d2 (String d3 (String d4 ".mp4")))))
  = p ++ "_8000.mp4".
Proof.
  intros H1 H2 H3 H4. unfold replace_bitrate.
  set (suffix := String "_" _).
  rewrite length_append.
  assert (String.length suffix = 9%nat) as Hlen by done.
  rewrite Hlen.
  replace (String.length p + 9 - 9)%nat with (String.length p) by lia.
  destruct (Nat.ltb_spec (String.length p + 9) 9); [lia|].
  rewrite substring_skip, substring_prefix.
  change (substring 0 9 suffix) with suffix.
  unfold suffix, is_bitrate_suffix. rewrite H1, H2, H3, H4. done.
Qed.

Lemma endOf_day_lt (a b : Z) : (endOf_day a < b ↔ day_of a < day_of b)%Z.
Proof.
  unfold endOf_day, startOf_day, day_of, MS_PER_DAY.
  pose proof (Z.div_mod a 86400000 ltac:(lia)).
  pose proof (Z.mod_pos_bound a 86400000 ltac:(lia)).
  pose proof (Z.div_mod b 86400000 ltac:(lia)).
  pose proof (Z.mod_pos_bound b 86400000 ltac:(lia)).
  nia.
Qed.

Lemma lt_startOf_day (a b : Z) : (b < startOf_day a ↔ day_of b < day_of a)%Z.
Proof.
  unfold startOf_day, day_of, MS_PER_DAY.
  pose proof (Z.div_mod a 86400000 ltac:(lia)).
  pose proof (Z.mod_pos_bound a 86400000 ltac:(lia)).
  pose proof (Z.div_mod b 86400000 ltac:(lia)).
  pose proof (Z.mod_pos_bound b 86400000 ltac:(lia)).
  nia.
Qed.

(** [isBefore] and [isAfter] at day granularity compare calendar days. *)
Lemma isBefore_day_spec (a b : Z) :
  isBefore_day (Some a) (Some b) = true ↔ (day_of a < day_of b)%Z.
Proof. simpl. rewrite Z.ltb_lt. apply endOf_day_lt. Qed.

Lemma isAfter_day_spec (a b : Z) :
  isAfter_day (Some a) (Some b) = true ↔ (day_of b < day_of a)%Z.
Proof. simpl. rewrite Z.ltb_lt. apply lt_startOf_day. Qed.

(** ** The ledger *)

Lemma isDownloaded_insert_ne d (m : gmap string bool) (k k' : string) :
  k ≠ k' →
  isDownloaded (mkTracker d (<[k := true]> m)) k' = isDownloaded (mkTracker d m) k'.
Proof. intros Hne. unfold isDownloaded. simpl. by rewrite lookup_insert_ne. Qed.

Lemma isDownloaded_insert_image d (m : gmap string bool) (k : string) :
  isDownloaded (mkTracker d (<[k ++ "_image" := true]> m)) k
  = isDownloaded (mkTracker d m) k.
Proof. apply isDownloaded_insert_ne, append_image_neq. Qed.

Lemma isDownloaded_insert_eq d (m : gmap string bool) (k : string) :
  isDownloaded (mkTracker d (<[k := true]> m)) k = true.
Proof. unfold isDownloaded. simpl. rewrite lookup_insert_eq. by apply bool_decide_eq_true. Qed.

Lemma isDownloaded_insert_mono d (m : gmap string bool) (k k' : string) :
  isDownloaded (mkTracker d m) k' = true →
  isDownloaded (mkTracker d (<[k := true]> m)) k' = true.
Proof.
  unfold isDownloaded. simpl. rewrite !bool_decide_eq_true. intros Hk.
  destruct (decide (k = k')) as [->|Hne].
  - by rewrite lookup_insert_eq.
  - by rewrite lookup_insert_ne.
Qed.

(** ** Symbolic execution of the program *)

Ltac unfold_prims :=
  cbv [mbind M_bind mret M_ret when logger get_directory assign_directory
       fs_existsSync fs_mkdirSync fs_writeFileSync api_downloadFile
       api_checkIfExists api_getShowInfo api_getVideos api_getVideoById
       new_DownloadTracker tracker_isDownloaded tracker_markDownloaded
       counts_downloaded_incr counts_skipped_incr counts_failed_incr
       new_counts get_counts process_exit
       emit set_directory set_files set_ledgers set_tracker set_counts
       set_world set_trace directory files ledgers tracker counts world trace
       tracker_directory downloads refuses_write refuses_mkdir reliable_fs].

Ltac split_atom :=
  match goal with
  | H : ?b = true |- context [?b] => tryif is_var b then fail else rewrite H
  | H : ?b = false |- context [?b] => tryif is_var b then fail else rewrite H
  | |- context [downloadFile ?u ?p ?w] =>
      let E := fresh "Hdl" in destruct (downloadFile u p w) as [[? ?] ?] eqn:E
  | |- context [checkIfExists ?u ?w] =>
      let E := fresh "Hprobe" in destruct (checkIfExists u w) as [? ?] eqn:E
  | |- context [getShowInfo ?u ?w] =>
      let E := fresh "Hshow" in destruct (getShowInfo u w) as [? ?] eqn:E
  | |- context [getVideos ?u ?w] =>
      let E := fresh "Hlist" in destruct (getVideos u w) as [? ?] eqn:E
  | |- context [getVideoById ?u ?w] =>
      let E := fresh "Hget" in destruct (getVideoById u w) as [? ?] eqn:E
  | |- context [bool_decide ?P] =>
      let E := fresh "Hd" in destruct (bool_decide P) eqn:E
  | |- context [truthy ?u] =>
      let E := fresh "Ht" in destruct (truthy u) eqn:E
  | |- context [isDownloaded ?t ?k] =>
      let E := fresh "Hk" in destruct (isDownloaded t k) eqn:E
  | |- context [String.eqb ?a ?b] =>
      let E := fresh "Hq" in destruct (String.eqb a b) eqn:E
  | |- context [if ?b then _ else _] =>
      let E := fresh "Hc" in destruct b eqn:E
  end.

Ltac prop_bools :=
  repeat match goal with
  | H : bool_decide _ = true |- _ => apply bool_decide_eq_true in H
  | H : bool_decide _ = false |- _ => apply bool_decide_eq_false in H
  end.

Ltac start_run st :=
  destruct st as [d f l [td tm] c w tr]; unfold_prims;
  repeat (rewrite ?isDownloaded_insert_image; split_atom; unfold_prims;
          cbn [negb andb orb]).

Ltac rewrite_bools :=
  repeat match goal with
  | H : ?b = true |- context [?b] => tryif is_var b then fail else rewrite H
  | H : ?b = false |- context [?b] => tryif is_var b then fail else rewrite H
  end.

Ltac norm_state :=
  cbn [trace counts tracker files ledgers world directory tracker_directory
       downloads];
  rewrite <- ?app_assoc; simpl app.

Ltac solve_trace := first [reflexivity | symmetry; apply app_nil_r].

Ltac elem_cases H :=
  repeat (first [ apply elem_of_nil in H; destruct H
                | apply elem_of_cons in H as [H|H]; [try discriminate H|] ]).

Ltac solve_elem :=
  repeat first [apply list_elem_of_here | apply list_elem_of_further].

Lemma and_intro_rev (A B : Prop) : B → A → A ∧ B.
Proof. by split. Qed.

(** The third case of [fetch_cases], for given answers of the probe and of
    the download. *)
Ltac fetch_outcome found ok :=
  eexists _, _, ok; apply and_intro_rev;
  [ split;
    [ first [ by split | exists found; by split ]
    | split; [reflexivity|]; split;
      [ cbn; first [apply isDownloaded_insert_eq | done]
      | intros Hok; first [discriminate Hok | done] ] ]
  | reflexivity ].

Section Properties.
Context `{platform : Platform} {World : Type} `{api : GiantBombAPI World}.
Implicit Types (st : State World) (v video : Video) (b bounds : DateBounds).
Implicit Types (program : Options) (t : DownloadTracker) (delta : list Event).

(** *** Files and the [extends] order *)

Lemma store_download_mono p written (f : gmap string Entry) q :
  is_Some (f !! q) → is_Some (store_download p written f !! q).
Proof.
  destruct written as [bytes|]; simpl; [|done].
  intros Hq. destruct (decide (p = q)) as [->|Hne].
  - rewrite lookup_insert_eq. by eexists.
  - by rewrite lookup_insert_ne.
Qed.

Lemma store_download_frame p written (f : gmap string Entry) q :
  store_download p written f !! q ≠ f !! q → q = p.
Proof.
  destruct written as [bytes|]; simpl; [|done].
  intros Hq. destruct (decide (p = q)) as [->|Hne]; [done|].
  by rewrite lookup_insert_ne in Hq.
Qed.

Lemma insert_mono p e (f : gmap string Entry) q :
  is_Some (f !! q) → is_Some (<[p := e]> f !! q).
Proof.
  intros Hq. destruct (decide (p = q)) as [->|Hne].
  - rewrite lookup_insert_eq. by eexists.
  - by rewrite lookup_insert_ne.
Qed.

Lemma insert_frame p e (f : gmap string Entry) q :
  <[p := e]> f !! q ≠ f !! q → q = p.
Proof.
  intros Hq. destruct (decide (p = q)) as [->|Hne]; [done|].
  by rewrite lookup_insert_ne in Hq.
Qed.

Lemma files_frame p written p' e (f : gmap string Entry) q :
  store_download p written (<[p' := e]> f) !! q ≠ f !! q → q = p ∨ q = p'.
Proof.
  intros Hq. destruct (decide (q = p)) as [->|Hne]; [by left|right].
  apply insert_frame with e f. intros Heq. apply Hq. rewrite <- Heq.
  destruct written; simpl; [by rewrite lookup_insert_ne|done].
Qed.

Lemma extends_refl st : extends st st.
Proof. by constructor. Qed.

Lemma extends_trans st1 st2 st3 :
  extends st1 st2 → extends st2 st3 → extends st1 st3.
Proof. intros [] []. constructor; try congruence; auto. lia. Qed.

Lemma synced_mark (l : gmap string (gmap string bool)) td (m : gmap string bool) :
  default ∅ (<[td := m]> l !! td) = m.
Proof. by rewrite lookup_insert_eq. Qed.

(** *** The two phases of [downloadVideo] *)

Lemma prepareVideo_spec v st :
  ∃ st2 pre,
    prepareVideo v (directory st) st = Done tt st2 ∧ prepared v st st2 pre.
Proof.
  unfold prepareVideo.
  start_run st.
  all: eexists; eexists; split; [reflexivity|].
  all: constructor; unfold metadataPath, imagePath; norm_state; rewrite_bools;
       prop_bools.
  all: try solve_trace; try reflexivity.
  all: try solve [constructor; unfold ledger_synced; cbn;
                  auto using isDownloaded_insert_mono, store_download_mono,
                    insert_mono, synced_mark].
  all: try solve [repeat constructor].
  all: try solve [intros k Hk'; cbn; by rewrite ?isDownloaded_insert_ne].
  all: try solve [intros p c0 Hin; elem_cases Hin; simplify_eq;
                  repeat split; by apply eq_None_not_Some].
  all: try solve [intros Habs; first [rewrite Habs in Hd; by destruct Hd | solve_elem]].
  all: try solve [ done | apply store_download_mono; done
                 | rewrite lookup_insert_eq; by eexists
                 | apply store_download_mono; rewrite lookup_insert_eq; by eexists ].
  all: try solve [intros Ha Hb; first
                 [ congruence
                 | eexists; split; [solve_elem|]; intros Hok;
                   first [discriminate Hok | apply isDownloaded_insert_eq] ]].
  all: intros p Hp; try done.
  all: try (apply store_download_frame in Hp as ->; right; do 2 eexists; solve_elem).
  all: try (apply insert_frame in Hp as ->; left; split; [done|]; by apply eq_None_not_Some).
  all: apply files_frame in Hp as [-> | ->];
       [right; do 2 eexists; solve_elem | left; split; [done|]; by apply eq_None_not_Some].
Qed.

Lemma fetchVideo_spec program v st :
  ∃ st' post,
    fetchVideo program v (directory st) st = Done tt st' ∧ fetched program v st st' post.
Proof.
  unfold fetchVideo.
  start_run st.
  all: eexists; eexists; split; [reflexivity|].
  all: constructor; unfold videoPath, probes, probe_events; norm_state;
       rewrite_bools; cbn [andb].
  all: try solve_trace.
  all: try solve [constructor; unfold ledger_synced; cbn;
                  auto using isDownloaded_insert_mono, store_download_mono, synced_mark].
  all: try solve [repeat constructor].
  all: try solve [intros p c0 Hin; elem_cases Hin].
  all: try solve [intros p Hp; first [done | apply store_download_frame in Hp as ->;
                                          do 2 eexists; solve_elem]].
  all: first
    [ left; by repeat split
    | right; left; by repeat split
    | right; right; split; [done|]; split; [done|];
      first [ fetch_outcome true true | fetch_outcome true false
            | fetch_outcome false true | fetch_outcome false false ] ].
Qed.

(** *** [downloadVideo] *)

Lemma downloadVideo_date_skip program v b st :
  date_skipped v b = true →
  downloadVideo program v b st =
    Done tt (emit (EvLog (if before_fromDate v b
                          then log_episodeSkipBeforeDate (name v)
                          else log_episodeSkipAfterDate (name v)))
               (set_counts (incr_skipped (counts st)) st)).
Proof.
  unfold date_skipped, downloadVideo. intros Hskip.
  destruct (before_fromDate v b); [done|].
  destruct (after_toDate v b); [done|discriminate Hskip].
Qed.

Lemma downloadVideo_in_range program v b st :
  date_skipped v b = false →
  ∃ st2 st' pre post,
    downloadVideo program v b st = Done tt st'
    ∧ prepared v st st2 pre ∧ fetched program v st2 st' post.
Proof.
  unfold date_skipped. intros Hskip.
  apply orb_false_iff in Hskip as [Hb Ha].
  destruct (prepareVideo_spec v st) as (st2 & pre & Hprep & Hpre).
  destruct (fetchVideo_spec program v st2) as (st' & post & Hfetch & Hpost).
  exists st2, st', pre, post. split; [|done].
  unfold downloadVideo. rewrite Hb, Ha.
  unfold mbind, M_bind, get_directory. rewrite Hprep.
  by rewrite <- (ext_directory _ _ (prep_extends _ _ _ _ Hpre)).
Qed.

Lemma date_skip_extends st l :
  extends st (emit (EvLog l) (set_counts (incr_skipped (counts st)) st)).
Proof. destruct st. by constructor. Qed.

Lemma fetched_counts program v st st' post :
  fetched program v st st' post →
  counts st' = incr_downloaded (counts st)
  ∨ counts st' = incr_skipped (counts st)
  ∨ counts st' = incr_failed (counts st).
Proof.
  intros Hf. destruct (fetch_cases _ _ _ _ _ Hf)
    as [(_ & _ & -> & _) | [(_ & _ & _ & -> & _) | (_ & _ & ? & ? & [] & _ & _ & -> & _)]];
    auto.
Qed.

(** What one call of [downloadVideo] does to the state, whatever the video. *)
Lemma downloadVideo_step program v b st :
  ∃ st' delta,
    downloadVideo program v b st = Done tt st'
    ∧ trace st' = (trace st ++ delta)%list
    ∧ extends st st'
    ∧ (∀ p c, EvWriteFile p c ∈ delta → files st !! p = None)
    ∧ (counts st' = incr_downloaded (counts st)
       ∨ counts st' = incr_skipped (counts st)
       ∨ counts st' = incr_failed (counts st)).
Proof.
  destruct (date_skipped v b) eqn:Hskip.
  - rewrite (downloadVideo_date_skip _ _ _ _ Hskip).
    eexists _, [_]. split; [reflexivity|]. split; [by destruct st|].
    split; [apply date_skip_extends|]. split; [|by right; left].
    intros p c Hin. by elem_cases Hin.
  - destruct (downloadVideo_in_range program v b st Hskip)
      as (st2 & st' & pre & post & -> & Hpre & Hpost).
    exists st', (pre ++ post)%list. split; [done|].
    split; [by rewrite (fetch_trace _ _ _ _ _ Hpost), (prep_trace _ _ _ _ Hpre), app_assoc|].
    split; [eapply extends_trans; [apply Hpre | apply Hpost]|].
    split.
    + intros p c [Hin|Hin]%elem_of_app.
      * by apply (prep_writes _ _ _ _ Hpre) in Hin as (_ & _ & ?).
      * by apply (fetch_writes _ _ _ _ _ Hpost) in Hin.
    + rewrite <- (prep_counts _ _ _ _ Hpre). by eapply fetched_counts.
Qed.

Lemma prepared_no_mark v st st2 pre :
  prepared v st st2 pre → EvMarkDownloaded (id v) ∉ pre.
Proof.
  intros Hpre Hin.
  pose proof (prep_events _ _ _ _ Hpre) as Hall.
  rewrite Forall_forall in Hall. apply Hall in Hin. simpl in Hin.
  symmetry in Hin. by apply append_image_neq in Hin.
Qed.

Lemma prepared_no_probe v st st2 pre url found :
  prepared v st st2 pre → EvCheckIfExists url found ∉ pre.
Proof.
  intros Hpre Hin.
  pose proof (prep_events _ _ _ _ Hpre) as Hall.
  rewrite Forall_forall in Hall. by apply Hall in Hin.
Qed.

Lemma probe_no_mark program v probe url k :
  (if probes program v
   then ∃ found, probe = probe_events (replace_bitrate (default EmptyString (hd_url v))) found
                 ∧ url = (if found then replace_bitrate (default EmptyString (hd_url v))
                          else default EmptyString (urlToDownload program v))
   else probe = [] ∧ url = default EmptyString (urlToDownload program v)) →
  EvMarkDownloaded k ∉ probe.
Proof.
  destruct (probes program v).
  - intros ([] & -> & _) Hin; unfold probe_events in Hin; simpl in Hin; by elem_cases Hin.
  - intros [-> _] Hin. by elem_cases Hin.
Qed.

Lemma snoc_last {A} (l before : list A) (x : A) :
  l = (before ++ [x])%list → last l = Some x.
Proof. intros ->. apply last_snoc. Qed.

(** ** C1: the ledger records a video only after its download succeeded *)

(** C1.  In the events [delta] of one call of [downloadVideo], the mark of
    the video's own identifier, when there is one, is the last event and
    comes right after the successful download of the video file; the
    identifier is marked afterwards only if it was before or was marked so;
    and when the call ends on a failed download, [failed] is incremented,
    the identifier is unmarked, and (the ledger file being in step with the
    tracker) the ledger file a later run loads does not mark it either. *)
Theorem completion_recorded_only_after_success program v b st :
  ∃ st' delta,
    downloadVideo program v b st = Done tt st'
    ∧ trace st' = (trace st ++ delta)%list
    ∧ (EvMarkDownloaded (id v) ∈ delta →
         ∃ before url,
           delta = (before ++ [EvDownloadFile url (videoPath program (directory st) v) true;
                               EvMarkDownloaded (id v)])%list
           ∧ EvMarkDownloaded (id v) ∉ before)
    ∧ (isDownloaded (tracker st') (id v) = true →
         isDownloaded (tracker st) (id v) = true ∨ EvMarkDownloaded (id v) ∈ delta)
    ∧ (∀ before url p, delta = (before ++ [EvDownloadFile url p false])%list →
         counts st' = incr_failed (counts st)
         ∧ isDownloaded (tracker st') (id v) = false
         ∧ (ledger_synced st →
              default ∅ (ledgers st' !! tracker_directory (tracker st')) !! id v ≠ Some true)).
Proof.
  destruct (date_skipped v b) eqn:Hskip.
  { rewrite (downloadVideo_date_skip _ _ _ _ Hskip).
    eexists _, [_]. split; [reflexivity|]. split; [by destruct st|].
    split; [intros Hin; by elem_cases Hin|].
    split; [destruct st; cbn; auto|].
    intros [|? [|? ?]] ? ? Heq; simplify_eq/=; by destruct (before_fromDate v b). }
  destruct (downloadVideo_in_range program v b st Hskip)
    as (st2 & st' & pre & post & -> & Hpre & Hpost).
  exists st', (pre ++ post)%list. split; [done|].
  split; [by rewrite (fetch_trace _ _ _ _ _ Hpost), (prep_trace _ _ _ _ Hpre), app_assoc|].
  pose proof (prepared_no_mark _ _ _ _ Hpre) as Hnomark.
  pose proof (prep_marks _ _ _ _ Hpre (id v) (not_eq_sym (append_image_neq (id v)))) as Hsame.
  pose proof (ext_directory _ _ (prep_extends _ _ _ _ Hpre)) as Hdir.
  pose proof (prep_counts _ _ _ _ Hpre) as Hcounts.
  destruct (fetch_cases _ _ _ _ _ Hpost)
    as [(Htr & -> & Hc & Ht) | [(Htr & Hurl & -> & Hc & Ht)
       | (Htr & Hurl & probe & url & ok & -> & Hprobe & Hc & Hmark & Hfail)]].
  - split; [|split].
    + intros [Hin|Hin]%elem_of_app; [done|by elem_cases Hin].
    + intros _. left. congruence.
    + intros before url p Heq%snoc_last. rewrite last_snoc in Heq. discriminate Heq.
  - split; [|split].
    + intros [Hin|Hin]%elem_of_app; [done|by elem_cases Hin].
    + intros Hyes. rewrite Ht in Hyes. congruence.
    + intros before url p Heq%snoc_last. rewrite last_snoc in Heq. discriminate Heq.
  - pose proof (probe_no_mark _ _ _ _ (id v) Hprobe) as Hnoprobe.
    rewrite Hdir. destruct ok; (split; [|split]).
    + intros _. exists (pre ++ [EvLog (log_videoDownload (name v)
                 (videoFilename v (default EmptyString (urlToDownload program v))))]
               ++ probe)%list, url.
      split; [by rewrite <- !app_assoc|].
      intros [Hin|[Hin|Hin]%elem_of_app]%elem_of_app; [done| |done].
      by elem_cases Hin.
    + intros _. right. rewrite !elem_of_app. do 4 right. solve_elem.
    + intros before url0 p Heq%snoc_last.
      rewrite !app_assoc, last_snoc in Heq. discriminate Heq.
    + intros [Hin|[Hin|[Hin|[Hin|Hin]%elem_of_app]%elem_of_app]%elem_of_app]%elem_of_app;
        try done; by elem_cases Hin.
    + intros Hyes. congruence.
    + intros before url0 p _. split; [congruence|]. split; [done|].
      intros Hsync.
      assert (ledger_synced st') as Hsync'.
      { apply (ext_synced _ _ (fetch_extends _ _ _ _ _ Hpost)),
              (ext_synced _ _ (prep_extends _ _ _ _ Hpre)), Hsync. }
      rewrite Hsync'. unfold isDownloaded in Hmark.
      by apply bool_decide_eq_false in Hmark.
Qed.


(** ** C4: the fallback order of the qualities *)

Lemma urlToDownload_low program v :
  quality program = QUALITY_LOW → urlToDownload program v = low_url v.
Proof. unfold urlToDownload, hdUrl, highUrl. by intros ->. Qed.

Lemma urlToDownload_high program v :
  quality program = QUALITY_HIGH →
  urlToDownload program v = if truthy (high_url v) then high_url v else low_url v.
Proof. unfold urlToDownload, hdUrl, highUrl. by intros ->. Qed.

Lemma urlToDownload_hd program v :
  quality program = QUALITY_HD ∨ quality program = QUALITY_HIGHEST →
  urlToDownload program v =
    if truthy (hd_url v) then hd_url v
    else if truthy (high_url v) then high_url v else low_url v.
Proof. unfold urlToDownload, hdUrl, highUrl. by intros [-> | ->]. Qed.

(** The events of a call that reaches the download of the video file. *)
Lemma downloadVideo_fetches program v b st :
  date_skipped v b = false →
  isDownloaded (tracker st) (id v) = false →
  truthy (urlToDownload program v) = true →
  ∃ st' pre probe url ok,
    downloadVideo program v b st = Done tt st'
    ∧ trace st' =
        (trace st ++ pre
         ++ [EvLog (log_videoDownload (name v)
               (videoFilename v (default EmptyString (urlToDownload program v))))]
         ++ probe
         ++ [EvDownloadFile url (videoPath program (directory st) v) ok]
         ++ (if ok then [EvMarkDownloaded (id v)] else []))%list
    ∧ Forall (prepare_event v) pre
    ∧ (if probes program v
       then ∃ found,
           probe = probe_events (replace_bitrate (default EmptyString (hd_url v))) found
           ∧ url = (if found then replace_bitrate (default EmptyString (hd_url v))
                    else default EmptyString (urlToDownload program v))
       else probe = [] ∧ url = default EmptyString (urlToDownload program v))
    ∧ counts st' = (if ok then incr_downloaded (counts st) else incr_failed (counts st)).
Proof.
  intros Hskip Hnew Hurl.
  destruct (downloadVideo_in_range program v b st Hskip)
    as (st2 & st' & pre & post & Hrun & Hpre & Hpost).
  pose proof (prep_marks _ _ _ _ Hpre (id v) (not_eq_sym (append_image_neq (id v)))) as Hsame.
  pose proof (ext_directory _ _ (prep_extends _ _ _ _ Hpre)) as Hdir.
  pose proof (prep_counts _ _ _ _ Hpre) as Hcounts.
  destruct (fetch_cases _ _ _ _ _ Hpost)
    as [(Htr & _) | [(_ & Hno & _)
       | (_ & _ & probe & url & ok & Heq & Hprobe & Hc & _)]]; [congruence..|].
  exists st', pre, probe, url, ok. split; [done|].
  split; [|split; [apply Hpre|split; [done|by rewrite Hc, Hcounts]]].
  rewrite (fetch_trace _ _ _ _ _ Hpost), (prep_trace _ _ _ _ Hpre), Heq, Hdir.
  by rewrite <- !app_assoc.
Qed.

(** C4.  The URL the program resolves for a quality: for [low] the low URL
    alone; for [high] the high URL if present, else the low one; for [hd]
    and [highest] the hd URL if present, else the high one, else the low
    one.  So [hd] with only a low URL gives the low URL, and [low] gives the
    low URL whatever the hd URL is.  Unless the quality is [highest], the
    resolved URL is the one the video file is fetched from. *)
Theorem quality_fallback_order program v :
  (quality program = QUALITY_LOW → urlToDownload program v = low_url v)
  ∧ (quality program = QUALITY_HIGH →
       urlToDownload program v =
         if truthy (high_url v) then high_url v else low_url v)
  ∧ (quality program = QUALITY_HD ∨ quality program = QUALITY_HIGHEST →
       urlToDownload program v =
         if truthy (hd_url v) then hd_url v
         else if truthy (high_url v) then high_url v else low_url v)
  ∧ (quality program = QUALITY_HD → truthy (hd_url v) = false →
     truthy (high_url v) = false → urlToDownload program v = low_url v)
  ∧ (∀ b st,
       quality program ≠ QUALITY_HIGHEST →
       date_skipped v b = false →
       isDownloaded (tracker st) (id v) = false →
       truthy (urlToDownload program v) = true →
       ∃ st' before ok after,
         downloadVideo program v b st = Done tt st'
         ∧ trace st' =
             (trace st ++ before
              ++ [EvDownloadFile (default EmptyString (urlToDownload program v))
                    (videoPath program (directory st) v) ok]
              ++ after)%list
         ∧ ∀ url p ok', EvDownloadFile url p ok' ∈ after → False).
Proof.
  split; [apply urlToDownload_low|]. split; [apply urlToDownload_high|].
  split; [apply urlToDownload_hd|]. split.
  { intros Hq Hhd Hhigh. rewrite urlToDownload_hd by auto. by rewrite Hhd, Hhigh. }
  intros b st Hq Hskip Hnew Hurl.
  destruct (downloadVideo_fetches program v b st Hskip Hnew Hurl)
    as (st' & pre & probe & url & ok & Hrun & Htrace & _ & Hprobe & _).
  assert (probes program v = false) as Hno.
  { unfold probes. apply andb_false_iff. left. by apply String.eqb_neq. }
  rewrite Hno in Hprobe. destruct Hprobe as [-> ->].
  eexists st', _, ok, _. split; [done|]. split.
  - rewrite Htrace. rewrite (app_assoc pre). reflexivity.
  - intros url p ok' Hin. destruct ok; by elem_cases Hin.
Qed.

(** ** C5: the date filter is inclusive at day granularity *)

Lemma before_fromDate_spec v b (t : Z) :
  dayjs (publish_date v) = Some t →
  before_fromDate v b = true
  ↔ ∃ f, fromDate b = Some (Some f) ∧ (day_of t < day_of f)%Z.
Proof.
  intros Ht. unfold before_fromDate. rewrite Ht.
  destruct (fromDate b) as [[f|]|].
  - rewrite isBefore_day_spec. split; [by exists f|]. by intros (? & [= ->] & ?).
  - simpl. split; [done|]. by intros (? & [=] & _).
  - split; [done|]. by intros (? & [=] & _).
Qed.

Lemma after_toDate_spec v b (t : Z) :
  dayjs (publish_date v) = Some t →
  after_toDate v b = true
  ↔ ∃ u, toDate b = Some (Some u) ∧ (day_of u < day_of t)%Z.
Proof.
  intros Ht. unfold after_toDate. rewrite Ht.
  destruct (toDate b) as [[u|]|].
  - rewrite isAfter_day_spec. split; [by exists u|]. by intros (? & [= ->] & ?).
  - simpl. split; [done|]. by intros (? & [=] & _).
  - split; [done|]. by intros (? & [=] & _).
Qed.

(** A call the date filter lets through logs no date skip. *)
Lemma in_range_no_date_skip program v b st st' delta n :
  date_skipped v b = false →
  downloadVideo program v b st = Done tt st' →
  trace st' = (trace st ++ delta)%list →
  (EvLog (log_episodeSkipBeforeDate n) ∉ delta)
  ∧ (EvLog (log_episodeSkipAfterDate n) ∉ delta).
Proof.
  intros Hskip Hrun Htrace.
  destruct (downloadVideo_in_range program v b st Hskip)
    as (st2 & st'' & pre & post & Hrun' & Hpre & Hpost).
  rewrite Hrun in Hrun'. injection Hrun' as <-.
  rewrite (fetch_trace _ _ _ _ _ Hpost), (prep_trace _ _ _ _ Hpre), <- app_assoc in Htrace.
  apply app_inv_head in Htrace as <-.
  pose proof (prep_events _ _ _ _ Hpre) as Hall. rewrite Forall_forall in Hall.
  assert (∀ l, (∀ m, l ≠ log_debug m) → (∀ k p, l ≠ log_posterDownload k p) →
               (∀ m, l ≠ log_videoSkipDownloaded m) →
               (∀ m q, l ≠ log_videoSkipNoURL m q) →
               (∀ m q, l ≠ log_videoDownload m q) →
               EvLog l ∉ (pre ++ post)%list) as Hno.
  { intros l H1 H2 H3 H4 H5 [Hin|Hin]%elem_of_app.
    - apply Hall in Hin. simpl in Hin. destruct l; try done; first [by eapply H1 | by eapply H2].
    - destruct (fetch_cases _ _ _ _ _ Hpost)
        as [(_ & -> & _) | [(_ & _ & -> & _)
           | (_ & _ & probe & url & ok & -> & Hprobe & _)]].
      + elem_cases Hin. injection Hin as ->. by eapply H3.
      + elem_cases Hin. injection Hin as ->. by eapply H4.
      + apply elem_of_app in Hin as [Hin|[Hin|[Hin|Hin]%elem_of_app]%elem_of_app].
        * elem_cases Hin. injection Hin as ->. by eapply H5.
        * destruct (probes program v).
          -- destruct Hprobe as ([] & -> & _); unfold probe_events in Hin; simpl in Hin;
               elem_cases Hin; injection Hin as ->; by eapply H1.
          -- destruct Hprobe as [-> _]. by elem_cases Hin.
        * by elem_cases Hin.
        * destruct ok; by elem_cases Hin. }
  split; by apply Hno.
Qed.

(** C5.  With a valid publish date, the video is rejected as too early
    exactly when [fromDate] is set and its day is strictly before the day of
    [fromDate], and as too late exactly when [toDate] is set and its day is
    strictly after the day of [toDate]; a video published on the day of
    [fromDate] is not too early, one published on the day of [toDate] is not
    too late.  A rejected video is counted as skipped and nothing else
    happens; any other video goes on to the metadata step. *)
Theorem date_filter_inclusive program v b st (t : Z) :
  dayjs (publish_date v) = Some t →
  (before_fromDate v b = true
     ↔ ∃ f, fromDate b = Some (Some f) ∧ (day_of t < day_of f)%Z)
  ∧ (after_toDate v b = true
     ↔ ∃ u, toDate b = Some (Some u) ∧ (day_of u < day_of t)%Z)
  ∧ (∀ f, fromDate b = Some (Some f) → day_of t = day_of f →
       before_fromDate v b = false)
  ∧ (∀ u, toDate b = Some (Some u) → day_of t = day_of u →
       after_toDate v b = false)
  ∧ ∃ st' delta,
      downloadVideo program v b st = Done tt st'
      ∧ trace st' = (trace st ++ delta)%list
      ∧ (before_fromDate v b = true ∨ after_toDate v b = true →
           counts st' = incr_skipped (counts st)
           ∧ files st' = files st ∧ tracker st' = tracker st
           ∧ delta = [EvLog (if before_fromDate v b
                             then log_episodeSkipBeforeDate (name v)
                             else log_episodeSkipAfterDate (name v))])
      ∧ (before_fromDate v b = false → after_toDate v b = false →
           is_Some (files st' !! metadataPath (directory st) v)
           ∧ ∀ n, (EvLog (log_episodeSkipBeforeDate n) ∉ delta)
                  ∧ (EvLog (log_episodeSkipAfterDate n) ∉ delta)).
Proof.
  intros Ht.
  split; [by apply before_fromDate_spec|]. split; [by apply after_toDate_spec|].
  split.
  { intros f Hf Hday. apply not_true_is_false.
    rewrite (before_fromDate_spec v b t Ht). intros (f' & Hf' & Hlt).
    rewrite Hf in Hf'. injection Hf' as <-. lia. }
  split.
  { intros u Hu Hday. apply not_true_is_false.
    rewrite (after_toDate_spec v b t Ht). intros (u' & Hu' & Hlt).
    rewrite Hu in Hu'. injection Hu' as <-. lia. }
  destruct (date_skipped v b) eqn:Hskip.
  - rewrite (downloadVideo_date_skip _ _ _ _ Hskip).
    eexists _, [_]. split; [reflexivity|]. split; [by destruct st|]. split.
    + intros _. by destruct st.
    + intros Hb Ha. unfold date_skipped in Hskip. by rewrite Hb, Ha in Hskip.
  - destruct (downloadVideo_in_range program v b st Hskip)
      as (st2 & st' & pre & post & Hrun & Hpre & Hpost).
    exists st', (pre ++ post)%list. split; [done|].
    assert (trace st' = (trace st ++ pre ++ post)%list) as Htrace.
    { by rewrite (fetch_trace _ _ _ _ _ Hpost), (prep_trace _ _ _ _ Hpre), app_assoc. }
    split; [done|]. split.
    + unfold date_skipped in Hskip. apply orb_false_iff in Hskip as [-> ->].
      by intros [|].
    + intros _ _. split.
      * apply (ext_files _ _ (fetch_extends _ _ _ _ _ Hpost)),
          (prep_metadata_present _ _ _ _ Hpre).
      * intros n. by eapply in_range_no_date_skip.
Qed.


(** ** C2: the probe for the 8000 bitrate file *)

Lemma probe_events_inv url found url' found' :
  EvCheckIfExists url' found' ∈ probe_events url found → url' = url ∧ found' = found.
Proof.
  unfold probe_events. intros Hin. destruct found; simpl in Hin;
    elem_cases Hin; by injection Hin as -> ->.
Qed.

(** C2.  The derived URL has the four digits before [.mp4] replaced by
    [8000].  In one call of [downloadVideo], an existence probe happens only
    when the quality is [highest] and the resolved URL is the hd URL, it
    asks for the derived URL, and the video file is then fetched from the
    derived URL if the probe found it and from the hd URL if not; and a call
    that reaches the download with quality [highest] and an hd URL does
    probe. *)
Theorem highest_quality_upgrade program v b st :
  (∀ p d1 d2 d3 d4,
     is_digit d1 = true → is_digit d2 = true → is_digit d3 = true →
     is_digit d4 = true →
     replace_bitrate
       (p ++ String "_" (String d1 (String d2 (String d3 (String d4 ".mp4")))))
     = p ++ "_8000.mp4")
  ∧ ∃ st' delta,
      downloadVideo program v b st = Done tt st'
      ∧ trace st' = (trace st ++ delta)%list
      ∧ (∀ url found, EvCheckIfExists url found ∈ delta →
           quality program = QUALITY_HIGHEST
           ∧ hd_url v = urlToDownload program v
           ∧ truthy (hd_url v) = true
           ∧ url = replace_bitrate (default EmptyString (hd_url v))
           ∧ ∃ before ok,
               delta = (before
                        ++ [EvDownloadFile
                              (if found then url else default EmptyString (hd_url v))
                              (videoPath program (directory st) v) ok]
                        ++ (if ok then [EvMarkDownloaded (id v)] else []))%list)
      ∧ (date_skipped v b = false →
         isDownloaded (tracker st) (id v) = false →
         quality program = QUALITY_HIGHEST →
         truthy (hd_url v) = true →
         ∃ found, EvCheckIfExists (replace_bitrate (default EmptyString (hd_url v))) found
                  ∈ delta).
Proof.
  split; [apply replace_bitrate_token|].
  destruct (date_skipped v b) eqn:Hskip.
  { rewrite (downloadVideo_date_skip _ _ _ _ Hskip).
    eexists _, [_]. split; [reflexivity|]. split; [by destruct st|].
    split; [|done]. intros url found Hin. by elem_cases Hin. }
  destruct (downloadVideo_in_range program v b st Hskip)
    as (st2 & st' & pre & post & -> & Hpre & Hpost).
  exists st', (pre ++ post)%list. split; [done|].
  split; [by rewrite (fetch_trace _ _ _ _ _ Hpost), (prep_trace _ _ _ _ Hpre), app_assoc|].
  pose proof (prep_marks _ _ _ _ Hpre (id v) (not_eq_sym (append_image_neq (id v)))) as Hsame.
  pose proof (ext_directory _ _ (prep_extends _ _ _ _ Hpre)) as Hdir.
  destruct (fetch_cases _ _ _ _ _ Hpost)
    as [(Htr & -> & _) | [(Htr & Hurl & -> & _)
       | (Htr & Hurl & probe & url & ok & -> & Hprobe & _)]].
  - split; [|intros; congruence].
    intros url found [Hin|Hin]%elem_of_app; [by apply (prepared_no_probe _ _ _ _ _ _ Hpre) in Hin|].
    by elem_cases Hin.
  - split.
    + intros url found [Hin|Hin]%elem_of_app;
        [by apply (prepared_no_probe _ _ _ _ _ _ Hpre) in Hin|].
      by elem_cases Hin.
    + intros _ _ Hq Hhd. rewrite urlToDownload_hd in Hurl by auto.
      rewrite Hhd in Hurl. congruence.
  - rewrite Hdir. unfold probes in Hprobe. split.
    + intros url' found' [Hin|Hin]%elem_of_app;
        [by apply (prepared_no_probe _ _ _ _ _ _ Hpre) in Hin|].
      destruct (String.eqb (quality program) QUALITY_HIGHEST) eqn:Hq;
        [destruct (bool_decide (hd_url v = urlToDownload program v)) eqn:Hhd|];
        cbn [andb] in Hprobe.
      * destruct Hprobe as (found & -> & ->).
        apply bool_decide_eq_true in Hhd. apply String.eqb_eq in Hq.
        assert (url' = replace_bitrate (default EmptyString (hd_url v)) ∧ found' = found)
          as [-> ->].
        { apply elem_of_app in Hin as [Hin|[Hin|[Hin|Hin]%elem_of_app]%elem_of_app].
          - by elem_cases Hin.
          - by apply probe_events_inv in Hin.
          - by elem_cases Hin.
          - destruct ok; by elem_cases Hin. }
        split; [done|]. split; [done|]. split; [congruence|]. split; [done|].
        rewrite <- Hhd.
        exists (pre ++ [EvLog (log_videoDownload (name v)
                  (videoFilename v (default EmptyString (hd_url v))))]
                ++ probe_events (replace_bitrate (default EmptyString (hd_url v))) found)%list,
               ok.
        by rewrite <- !app_assoc.
      * destruct Hprobe as [-> ->].
        apply elem_of_app in Hin as [Hin|[Hin|[Hin|Hin]%elem_of_app]%elem_of_app];
          try (by elem_cases Hin). destruct ok; by elem_cases Hin.
      * destruct Hprobe as [-> ->].
        apply elem_of_app in Hin as [Hin|[Hin|[Hin|Hin]%elem_of_app]%elem_of_app];
          try (by elem_cases Hin). destruct ok; by elem_cases Hin.
    + intros _ _ Hq Hhd.
      assert (urlToDownload program v = hd_url v) as Hres.
      { rewrite urlToDownload_hd by auto. by rewrite Hhd. }
      rewrite Hq, Hres in Hprobe. rewrite String.eqb_refl in Hprobe.
      rewrite bool_decide_eq_true_2 in Hprobe by done. cbn [andb] in Hprobe.
      destruct Hprobe as (found & -> & _). exists found.
      rewrite !elem_of_app. right. right. left. unfold probe_events. solve_elem.
Qed.

(** ** C3: metadata and image are handled before the skip of a tracked video *)

(** C3.  For a video that passes the date filter and whose identifier is
    already marked, [downloadVideo] ends by logging the skip of a downloaded
    video with [skipped] incremented, and every other event of the call comes
    before that log: the write of the metadata file when it was absent, and
    the download of the image when the video has one whose key is
    untracked (marking the key when it succeeds). *)
Theorem backfill_before_downloaded_skip program v b st :
  date_skipped v b = false →
  isDownloaded (tracker st) (id v) = true →
  ∃ st' pre,
    downloadVideo program v b st = Done tt st'
    ∧ trace st' = (trace st ++ pre ++ [EvLog (log_videoSkipDownloaded (name v))])%list
    ∧ counts st' = incr_skipped (counts st)
    ∧ (files st !! metadataPath (directory st) v = None →
         EvWriteFile (metadataPath (directory st) v) (JSON_stringify_video v) ∈ pre)
    ∧ is_Some (files st' !! metadataPath (directory st) v)
    ∧ (truthy (image_url (image v)) = true →
       isDownloaded (tracker st) (id v ++ "_image") = false →
         ∃ ok, EvDownloadFile (default EmptyString (image_url (image v)))
                              (imagePath (directory st) v) ok ∈ pre
               ∧ (ok = true → isDownloaded (tracker st') (id v ++ "_image") = true)).
Proof.
  intros Hskip Hdone.
  destruct (downloadVideo_in_range program v b st Hskip)
    as (st2 & st' & pre & post & -> & Hpre & Hpost).
  pose proof (prep_marks _ _ _ _ Hpre (id v) (not_eq_sym (append_image_neq (id v)))) as Hsame.
  destruct (fetch_cases _ _ _ _ _ Hpost)
    as [(_ & Heq & Hc & Ht) | [(Htr & _) | (Htr & _)]]; [|congruence..].
  exists st', pre. split; [done|].
  split; [by rewrite (fetch_trace _ _ _ _ _ Hpost), (prep_trace _ _ _ _ Hpre), Heq, app_assoc|].
  split; [by rewrite Hc, (prep_counts _ _ _ _ Hpre)|].
  split; [apply Hpre|].
  split; [apply (ext_files _ _ (fetch_extends _ _ _ _ _ Hpost)),
            (prep_metadata_present _ _ _ _ Hpre)|].
  rewrite Ht. apply Hpre.
Qed.


(** ** Loops *)

Lemma for_of_chain {A} (R : list A → State World → State World → Prop)
    (body : A → M World unit) :
  (∀ st, R [] st st) →
  (∀ x xs st1 st2 st3, R [x] st1 st2 → R xs st2 st3 → R (x :: xs) st1 st3) →
  ∀ xs,
    (∀ x st, x ∈ xs → ∃ st', body x st = Done tt st' ∧ R [x] st st') →
    ∀ st, ∃ st', for_of xs body st = Done tt st' ∧ R xs st st'.
Proof.
  intros Hnil Hcons xs. induction xs as [|x xs IH]; intros Hbody st.
  - exists st. by split.
  - destruct (Hbody x st) as (st1 & Hrun & Hstep); [by left|].
    destruct (IH (λ y st0 Hy, Hbody y st0 (list_elem_of_further _ _ _ Hy)) st1)
      as (st' & Hrest & Hloop).
    exists st'. split; [|by eapply Hcons].
    simpl. unfold mbind, M_bind. by rewrite Hrun.
Qed.

Lemma progress_refl st : progress 0 st st [].
Proof.
  constructor; [by rewrite app_nil_r | apply extends_refl | | lia].
  intros p c Hin. by elem_cases Hin.
Qed.

Lemma progress_trans n m st1 st2 st3 delta1 delta2 :
  progress n st1 st2 delta1 → progress m st2 st3 delta2 →
  progress (n + m) st1 st3 (delta1 ++ delta2).
Proof.
  intros [Ht1 He1 Hw1 Hn1] [Ht2 He2 Hw2 Hn2]. constructor.
  - by rewrite Ht2, Ht1, app_assoc.
  - by eapply extends_trans.
  - intros p c [Hin|Hin]%elem_of_app; [by eapply Hw1|].
    apply Hw2 in Hin. destruct (files st1 !! p) eqn:Hp; [|done].
    destruct (ext_files _ _ He1 p) as [? Hsome]; [by eexists|]. congruence.
  - lia.
Qed.

Lemma total_incr c c' :
  c' = incr_downloaded c ∨ c' = incr_skipped c ∨ c' = incr_failed c →
  total c' = (total c + 1)%nat.
Proof. unfold total. intros [-> | [-> | ->]]; simpl; lia. Qed.

Lemma downloadVideo_progress program v b st :
  ∃ st' delta, downloadVideo program v b st = Done tt st' ∧ progress 1 st st' delta.
Proof.
  destruct (downloadVideo_step program v b st)
    as (st' & delta & Hrun & Htrace & Hext & Hwrites & Hcounts).
  exists st', delta. split; [done|]. constructor; auto using total_incr.
Qed.

Lemma for_of_downloadVideo_progress program b videos st :
  ∃ st' delta,
    for_of videos (λ video, downloadVideo program video b) st = Done tt st'
    ∧ progress (length videos) st st' delta.
Proof.
  destruct (for_of_chain (λ xs st0 st1, ∃ delta, progress (length xs) st0 st1 delta)
              (λ video, downloadVideo program video b)) with (xs := videos) (st := st)
    as (st' & Hrun & delta & Hprog).
  - intros st0. exists []. apply progress_refl.
  - intros x xs st1 st2 st3 [d1 H1] [d2 H2]. exists (d1 ++ d2)%list.
    by apply (progress_trans 1 (length xs) st1 st2 st3).
  - intros x st0 _. destruct (downloadVideo_progress program x b st0) as (st1 & d & ? & ?).
    by eauto.
  - by eauto.
Qed.

(** ** [downloadShow] up to its loop *)

Lemma downloadShowPoster_spec what i st :
  ∃ st' delta,
    downloadShowPoster what i st = Done tt st'
    ∧ trace st' = (trace st ++ delta)%list
    ∧ extends st st'
    ∧ counts st' = counts st
    ∧ (∀ p c, EvWriteFile p c ∉ delta).
Proof.
  unfold downloadShowPoster.
  start_run st.
  all: eexists; eexists; split; [reflexivity|]; norm_state.
  all: split; [solve_trace|].
  all: split; [solve [constructor; unfold ledger_synced; cbn;
                  auto using isDownloaded_insert_mono, store_download_mono, synced_mark]|].
  all: split; [reflexivity|].
  all: intros p c0 Hin; by elem_cases Hin.
Qed.

Lemma absent_before_insert p e (f : gmap string Entry) q :
  ¬ is_Some (<[p := e]> f !! q) → f !! q = None.
Proof.
  intros Hq. destruct (f !! q) eqn:Hfq; [|done].
  exfalso. apply Hq, insert_mono. by eexists.
Qed.

Lemma downloadShow_spec program st r :
  downloadShow program st = r →
  (∃ st' delta, r = Exit 1 st'
      ∧ trace st' = (trace st ++ delta)%list
      ∧ (∀ p, is_Some (files st !! p) → is_Some (files st' !! p))
      ∧ (∀ p c, EvWriteFile p c ∈ delta → files st !! p = None)
      ∧ ((getShowInfo (default EmptyString (show program)) (world st)).1 = None
         ∨ ∃ s w, (getShowInfo (default EmptyString (show program)) (world st)).1 = Some s
                  ∧ (getVideos s w).1 = None))
  ∨ (∃ s videos st_a pre,
       show_setup program s videos st st_a pre
       ∧ r = showVideos program s videos st_a).
Proof.
  unfold downloadShow, showVideos.
  destruct st as [d f l [td tm] c w tr].
  unfold api_getShowInfo at 1. unfold mbind at 1. unfold M_bind at 1. cbn [world].
  destruct (getShowInfo (default EmptyString (show program)) w) as [[s|] w1] eqn:Hshow.
  2:{ intros <-. left. eexists _, [_]. split; [reflexivity|]. cbn. repeat split; auto.
      intros p c0 Hin. by elem_cases Hin. }
  cbv [mbind M_bind mret M_ret when logger get_directory assign_directory
       fs_existsSync fs_mkdirSync fs_writeFileSync new_DownloadTracker
       api_getVideos new_counts process_exit
       emit set_directory set_files set_ledgers set_tracker set_counts
       set_world set_trace refuses_write refuses_mkdir reliable_fs].
  cbn [directory files ledgers tracker counts world trace].
  repeat (split_atom; cbn [negb directory files ledgers tracker counts world trace]).
  all: prop_bools.
  all: match goal with |- context [downloadShowPoster "image" ?i ?stx] =>
         destruct (downloadShowPoster_spec "image" i stx)
           as (st3 & d3 & Hrun3 & Ht3 & He3 & Hc3 & Hw3); rewrite Hrun3
       end.
  all: match goal with |- context [downloadShowPoster "logo" ?i ?stx] =>
         destruct (downloadShowPoster_spec "logo" i stx)
           as (st4 & d4 & Hrun4 & Ht4 & He4 & Hc4 & Hw4); rewrite Hrun4
       end.
  all: destruct (getVideos s (world st4)) as [[videos|] w2] eqn:Hlist.
  all: pose proof (extends_trans _ _ _ He3 He4) as He;
       destruct He as [Edir Etd Emarks Efiles Esync _].
  all: cbn [directory files ledgers tracker tracker_directory trace world] in *.
  all: intros <-.
  all: assert (∀ p, is_Some (f !! p) → is_Some (files st4 !! p)) as Hmono
         by (intros p Hp; apply Efiles; auto using insert_mono).
  all: cbn in Edir, Etd.
  all: first
    [ (* the video list is missing *)
      left; eexists _, _; split; [reflexivity|]; cbn [trace files];
      split; [rewrite Ht4, Ht3, <- !app_assoc; reflexivity|];
      split; [done|]; split;
      [ intros p c0 Hin; simpl in Hin; rewrite ?elem_of_cons, !elem_of_app in Hin;
        rewrite ?elem_of_cons, ?elem_of_nil in Hin;
        destruct_or!; simplify_eq; try (by apply Hw3 in Hin); try (by apply Hw4 in Hin);
        repeat split; first [by apply eq_None_not_Some | by eapply absent_before_insert]
      | right; exists s, (world st4); split; [done | by rewrite Hlist] ]
    | right; exists s, videos; eexists _, _; apply and_intro_rev; [reflexivity|];
      constructor; cbn [world trace directory tracker counts ledgers files];
      [ by rewrite Hshow
      | exists (world st4); by rewrite Hlist
      | rewrite Ht4, Ht3, <- !app_assoc; reflexivity
      | simpl; rewrite ?app_comm_cons, !app_assoc; eexists; reflexivity
      | congruence
      | congruence
      | by apply Esync
      | intros k Hk; apply Emarks; rewrite Edir in Hk; unfold isDownloaded;
        by apply bool_decide_eq_true
      | done
      | intros p c0 Hin; simpl in Hin; rewrite ?elem_of_cons, !elem_of_app in Hin;
        rewrite ?elem_of_cons, ?elem_of_nil in Hin;
        destruct_or!; simplify_eq; try (by apply Hw3 in Hin); try (by apply Hw4 in Hin);
        rewrite Edir; repeat split; first [by apply eq_None_not_Some | by eapply absent_before_insert]
      | done ] ].
Qed.

(** ** The loops of the two commands *)

Lemma showVideos_spec program s videos st :
  ∃ st1 delta,
    for_of videos
      (λ video, downloadVideo program video
                  (mkBounds (parse_bound (from_date program))
                            (parse_bound (to_date program)))) st = Done tt st1
    ∧ progress (length videos) st st1 delta
    ∧ showVideos program s videos st
      = Done tt (emit (EvLog (log_showComplete (title s) (counts st1))) st1).
Proof.
  destruct (for_of_downloadVideo_progress program
              (mkBounds (parse_bound (from_date program)) (parse_bound (to_date program)))
              videos st) as (st1 & delta & Hrun & Hprog).
  exists st1, delta. split; [done|]. split; [done|].
  unfold showVideos, mbind, M_bind. by rewrite Hrun.
Qed.

Lemma lookups_app delta1 delta2 :
  lookups (delta1 ++ delta2) = (lookups delta1 ++ lookups delta2)%list.
Proof.
  induction delta1 as [|e delta1 IH]; [done|]. destruct e; simpl; by rewrite ?IH.
Qed.

Lemma lookups_not_found_app delta1 delta2 :
  lookups_not_found (delta1 ++ delta2)
  = (lookups_not_found delta1 + lookups_not_found delta2)%nat.
Proof.
  induction delta1 as [|e delta1 IH]; [done|].
  destruct e as [| | | | |? []| | |]; simpl; by rewrite ?IH.
Qed.

Lemma video_events_lookups delta :
  Forall video_event delta →
  lookups delta = [] ∧ lookups_not_found delta = 0%nat
  ∧ Forall (λ e, ¬ date_skip_log e) delta.
Proof.
  induction 1 as [|e delta He _ (IH1 & IH2 & IH3)]; [done|].
  destruct e as [[]| | | | | | | |]; simpl in *; try done;
    (split; [done|]; split; [done|]; constructor; [|done]); by intros [].
Qed.

Lemma prepare_event_video v e : prepare_event v e → video_event e.
Proof. destruct e as [[]| | | | | | | |]; simpl; auto. Qed.

Lemma fetch_event_video v e : fetch_event v e → video_event e.
Proof. destruct e as [[]| | | | | | | |]; simpl; auto. Qed.

Lemma downloadVideo_in_range_events program v b st st' delta :
  date_skipped v b = false →
  downloadVideo program v b st = Done tt st' →
  trace st' = (trace st ++ delta)%list →
  Forall video_event delta.
Proof.
  intros Hskip Hrun Htrace.
  destruct (downloadVideo_in_range program v b st Hskip)
    as (st2 & st'' & pre & post & Hrun' & Hpre & Hpost).
  rewrite Hrun in Hrun'. injection Hrun' as <-.
  rewrite (fetch_trace _ _ _ _ _ Hpost), (prep_trace _ _ _ _ Hpre), <- app_assoc in Htrace.
  apply app_inv_head in Htrace as <-.
  apply Forall_app. split.
  - eapply Forall_impl; [apply Hpre|]. apply prepare_event_video.
  - eapply Forall_impl; [apply Hpost|]. apply fetch_event_video.
Qed.

Lemma downloadVideoById_found program i v st :
  (getVideoById i (world st)).1 = Some v →
  downloadVideoById program i st
  = downloadVideo program v no_bounds
      (emit (EvGetVideoById i (Some v)) (set_world (getVideoById i (world st)).2 st)).
Proof.
  unfold downloadVideoById, api_getVideoById, mbind, M_bind.
  destruct (getVideoById i (world st)) as [r w1]. simpl. by intros ->.
Qed.

Lemma downloadVideoById_spec program i st :
  ∃ st' delta,
    downloadVideoById program i st = Done tt st'
    ∧ progress 1 st st' delta
    ∧ lookups delta = [i]
    ∧ Forall (λ e, ¬ date_skip_log e) delta
    ∧ (failed (counts st) + lookups_not_found delta ≤ failed (counts st'))%nat
    ∧ ((getVideoById i (world st)).1 = None →
         delta = [EvGetVideoById i None]
         ∧ counts st' = incr_failed (counts st)
         ∧ tracker st' = tracker st ∧ files st' = files st ∧ ledgers st' = ledgers st).
Proof.
  unfold downloadVideoById, api_getVideoById, mbind, M_bind.
  destruct (getVideoById i (world st)) as [[v|] w1] eqn:Hget; cbn [fst snd].
  - set (st0 := emit _ _).
    destruct (downloadVideo_progress program v no_bounds st0) as (st' & delta & Hrun & Hprog).
    assert (progress 0 st st0 [EvGetVideoById i (Some v)]) as Hlook.
    { destruct st. constructor; [done|by constructor| |unfold total; simpl; lia].
      intros p c Hin. by elem_cases Hin. }
    pose proof (downloadVideo_in_range_events program v no_bounds st0 st' delta
                  eq_refl Hrun (prog_trace _ _ _ _ Hprog)) as Hev.
    apply video_events_lookups in Hev as (Hl & Hn & Hd).
    exists st', ([EvGetVideoById i (Some v)] ++ delta)%list.
    split; [done|]. split; [by apply (progress_trans 0 1 st st0 st')|].
    split; [simpl; by rewrite Hl|]. split; [constructor; [by intros []|done]|].
    split; [|done].
    simpl. rewrite Hn.
    pose proof (ext_failed _ _ (prog_extends _ _ _ _ Hprog)) as Hle.
    destruct st. simpl in *. lia.
  - destruct st as [d f l t c w tr]. eexists _, [_]. split; [reflexivity|].
    split.
    { constructor; [done| |intros p c0 Hin; by elem_cases Hin|unfold total; simpl; lia].
      constructor; auto. simpl. lia. }
    split; [done|]. split; [constructor; [by intros []|done]|].
    split; [simpl; lia|]. intros _. by repeat split.
Qed.


(** ** The counters a show run reports *)

Lemma downloadShow_done_counts program st st' :
  downloadShow program st = Done tt st' →
  ∃ s videos before delta c,
    trace st' = (trace st ++ before ++ [EvGetVideos s (Some videos)] ++ delta
                 ++ [EvLog (log_showComplete (title s) c)])%list
    ∧ counts st' = c
    ∧ (downloaded c + skipped c + failed c)%nat = length videos.
Proof.
  intros Hrun.
  destruct (downloadShow_spec program st _ Hrun)
    as [(? & ? & [=] & _) | (s & videos & st_a & pre & Hsetup & Hrest)].
  destruct (showVideos_spec program s videos st_a) as (st1 & delta & _ & Hprog & Hshow).
  rewrite Hshow in Hrest. injection Hrest as ->.
  destruct (su_listed _ _ _ _ _ _ Hsetup) as [before Hpre].
  exists s, videos, before, delta, (counts st1).
  split; [|split].
  - pose proof (prog_trace _ _ _ _ Hprog) as Ht.
    destruct st1. cbn in *. rewrite Ht, (su_trace _ _ _ _ _ _ Hsetup), Hpre.
    by rewrite <- !app_assoc.
  - by destruct st1.
  - pose proof (prog_total _ _ _ _ Hprog) as Ht.
    rewrite (su_counts _ _ _ _ _ _ Hsetup) in Ht. unfold total in Ht. simpl in Ht. lia.
Qed.

(** ** The loop over the identifiers *)

Lemma for_of_downloadVideoById program ids st :
  ∃ st' delta,
    for_of ids (downloadVideoById program) st = Done tt st'
    ∧ progress (length ids) st st' delta
    ∧ lookups delta = ids
    ∧ Forall (λ e, ¬ date_skip_log e) delta
    ∧ (failed (counts st) + lookups_not_found delta ≤ failed (counts st'))%nat.
Proof.
  destruct (for_of_chain
              (λ xs st0 st1, ∃ delta,
                 progress (length xs) st0 st1 delta
                 ∧ lookups delta = xs
                 ∧ Forall (λ e, ¬ date_skip_log e) delta
                 ∧ (failed (counts st0) + lookups_not_found delta ≤ failed (counts st1))%nat)
              (downloadVideoById program)) with (xs := ids) (st := st)
    as (st' & Hrun & delta & Hfacts).
  - intros st0. exists []. split; [apply progress_refl|]. repeat split; [done|simpl; lia].
  - intros x xs st1 st2 st3 (d1 & Hp1 & Hl1 & Hd1 & Hf1) (d2 & Hp2 & Hl2 & Hd2 & Hf2).
    exists (d1 ++ d2)%list.
    split; [by apply (progress_trans 1 (length xs) st1 st2 st3)|].
    split; [by rewrite lookups_app, Hl1, Hl2|].
    split; [by apply Forall_app|].
    rewrite lookups_not_found_app. lia.
  - intros x st0 _.
    destruct (downloadVideoById_spec program x st0) as (st1 & d & ? & ? & ? & ? & ? & _).
    by eauto 10.
  - by eauto 10.
Qed.

Lemma downloadVideosById_done program st :
  ∃ st' delta,
    for_of (split_comma (default EmptyString (video_id program)))
      (downloadVideoById program)
      (set_counts (mkCounter 0 0 0)
         (set_tracker (mkTracker (directory st)
            (default ∅ (ledgers st !! directory st))) st)) = Done tt st'
    ∧ downloadVideosById program st
      = Done tt (emit (EvLog (log_videosComplete
                        (length (split_comma (default EmptyString (video_id program))))
                        (counts st'))) st').
Proof.
  set (st0 := set_counts _ _).
  destruct (for_of_downloadVideoById program
              (split_comma (default EmptyString (video_id program))) st0)
    as (st' & delta & Hrun & _).
  exists st', delta. split; [done|].
  unfold downloadVideosById.
  cbv [mbind M_bind get_directory new_DownloadTracker new_counts get_counts logger].
  fold st0. by rewrite Hrun.
Qed.

(** ** C8: metadata files are written once *)

Lemma decide_files_change (f g : gmap string Entry) (p : string) :
  f !! p = g !! p ∨ f !! p ≠ g !! p.
Proof.
  destruct (f !! p) as [[|c]|], (g !! p) as [[|c']|]; try (by left); try (by right).
  destruct (decide (c = c')) as [->|Hne]; [by left|right]. congruence.
Qed.


Lemma grows_trans st1 st2 st3 delta1 delta2 :
  grows st1 st2 delta1 → grows st2 st3 delta2 → grows st1 st3 (delta1 ++ delta2).
Proof.
  intros (Ht1 & Hf1 & Hw1) (Ht2 & Hf2 & Hw2). split; [|split].
  - by rewrite Ht2, Ht1, app_assoc.
  - auto.
  - intros p c [Hin|Hin]%elem_of_app; [by eapply Hw1|].
    apply Hw2 in Hin. destruct (files st1 !! p) eqn:Hp; [|done].
    destruct (Hf1 p) as [? Hsome]; [by eexists|]. congruence.
Qed.

Lemma progress_grows n st st' delta : progress n st st' delta → grows st st' delta.
Proof. intros [Ht He Hw _]. split; [done|]. split; [apply He|done]. Qed.

Lemma downloadShow_grows program st :
  ∃ delta, grows st (final_state (downloadShow program st)) delta.
Proof.
  destruct (downloadShow_spec program st _ eq_refl)
    as [(st' & delta & -> & Ht & Hf & Hw & _) | (s & videos & st_a & pre & Hsetup & ->)].
  - by exists delta.
  - destruct (showVideos_spec program s videos st_a) as (st1 & delta & _ & Hprog & ->).
    exists (pre ++ delta ++ [EvLog (log_showComplete (title s) (counts st1))])%list.
    apply (grows_trans st st_a _).
    { split; [apply Hsetup|]. split; [apply Hsetup|].
      intros p c Hin. by apply (su_writes _ _ _ _ _ _ Hsetup) in Hin as (_ & _ & ?). }
    apply (grows_trans st_a st1 _); [by eapply progress_grows|].
    destruct st1. split; [done|]. split; [done|]. intros p c Hin. by elem_cases Hin.
Qed.

Lemma downloadVideosById_grows program st :
  ∃ delta, grows st (final_state (downloadVideosById program st)) delta.
Proof.
  unfold downloadVideosById.
  set (ids := split_comma _).
  set (st0 := set_counts (mkCounter 0 0 0)
                (set_tracker (mkTracker (directory st)
                   (default ∅ (ledgers st !! directory st))) st)).
  destruct (for_of_downloadVideoById program ids st0)
    as (st' & delta & Hrun & Hprog & _).
  exists (delta ++ [EvLog (log_videosComplete (length ids) (counts st'))])%list.
  cbv [mbind M_bind get_directory new_DownloadTracker new_counts get_counts logger].
  fold st0. rewrite Hrun. cbn [final_state].
  apply (grows_trans st st' _).
  - apply progress_grows in Hprog. by destruct st.
  - destruct st'. split; [done|]. split; [done|]. intros p c Hin. by elem_cases Hin.
Qed.


Lemma initProgram_spec program st r :
  initProgram program st = r →
  (∃ st' delta, r = Exit 1 st' ∧ grows st st' delta)
  ∨ (r = Done tt (set_directory (path_resolve (default EmptyString (dir program)))
                    (emit (EvLog log_init) st))
     ∧ is_Some (files st !! path_resolve (default EmptyString (dir program)))).
Proof.
  unfold initProgram. destruct st as [d f l t c w tr]. unfold_prims.
  repeat (split_atom; unfold_prims; cbn [negb andb orb Bool.eqb length Nat.eqb app]).
  all: prop_bools; intros <-.
  all: first
    [ right; by split
    | left; eexists _, _; split; [reflexivity|]; cbn; rewrite <- ?app_assoc;
      split; [reflexivity|]; split; [done|]; intros p c0 Hin; simpl in Hin; by elem_cases Hin ].
Qed.

Lemma initProgram_again program st st' st2 :
  initProgram program st = Done tt st' →
  (∀ p, is_Some (files st !! p) → is_Some (files st2 !! p)) →
  initProgram program st2
  = Done tt (set_directory (path_resolve (default EmptyString (dir program)))
               (emit (EvLog log_init) st2)).
Proof.
  unfold initProgram. destruct st as [d f l t c w tr], st2 as [d2 f2 l2 t2 c2 w2 tr2].
  unfold_prims.
  repeat (split_atom; unfold_prims; cbn [negb andb orb Bool.eqb length Nat.eqb app]).
  all: prop_bools; intros Hrun Hmono; try discriminate Hrun; try done.
  all: exfalso; cbn in Hmono; auto.
Qed.

Lemma main_grows program st :
  ∃ delta, grows st (final_state (main program st)) delta.
Proof.
  unfold main, mbind, M_bind.
  destruct (initProgram_spec program st _ eq_refl)
    as [(st' & delta & -> & Hg) | [-> Hdir]]; [by exists delta|].
  set (st0 := set_directory _ _).
  assert (grows st st0 [EvLog log_init]) as Hinit.
  { destruct st. split; [done|]. split; [done|]. intros p c Hin. by elem_cases Hin. }
  destruct (truthy (show program)); [|destruct (truthy (video_id program))].
  - destruct (downloadShow_grows program st0) as [delta Hg].
    eexists. by eapply grows_trans.
  - destruct (downloadVideosById_grows program st0) as [delta Hg].
    eexists. by eapply grows_trans.
  - by eexists.
Qed.

(** C8.  One call of [downloadVideo] writes a file, if at all, at the path
    of the video's metadata file, with the serialised video, and only when
    no file was there; any other change to the file system is at the target
    of a download.  And whatever a whole invocation writes, it writes where
    no file was when the invocation started: a metadata file that is present
    is never written again, whatever the catalog answers. *)
Theorem metadata_never_overwritten program :
  (∀ v b st, ∃ st' delta,
      downloadVideo program v b st = Done tt st'
      ∧ trace st' = (trace st ++ delta)%list
      ∧ (∀ p c, EvWriteFile p c ∈ delta →
           p = metadataPath (directory st) v ∧ c = JSON_stringify_video v
           ∧ files st !! p = None)
      ∧ (∀ p, files st' !! p ≠ files st !! p →
           (p = metadataPath (directory st) v ∧ files st !! p = None)
           ∨ ∃ url ok, EvDownloadFile url p ok ∈ delta))
  ∧ (∀ st r, downloadShow program st = r →
      ∃ delta, trace (final_state r) = (trace st ++ delta)%list
        ∧ ∀ p c, EvWriteFile p c ∈ delta → files st !! p = None)
  ∧ (∀ st, ∃ delta,
      trace (final_state (main program st)) = (trace st ++ delta)%list
      ∧ ∀ p c, EvWriteFile p c ∈ delta → files st !! p = None).
Proof.
  split; [|split].
  - intros v b st. destruct (date_skipped v b) eqn:Hskip.
    { rewrite (downloadVideo_date_skip _ _ _ _ Hskip).
      eexists _, [_]. split; [reflexivity|]. split; [by destruct st|].
      split; [intros p c Hin; by elem_cases Hin|]. by destruct st. }
    destruct (downloadVideo_in_range program v b st Hskip)
      as (st2 & st' & pre & post & -> & Hpre & Hpost).
    exists st', (pre ++ post)%list. split; [done|].
    split; [by rewrite (fetch_trace _ _ _ _ _ Hpost), (prep_trace _ _ _ _ Hpre), app_assoc|].
    split.
    + intros p c [Hin|Hin]%elem_of_app; [by apply Hpre|].
      by apply (fetch_writes _ _ _ _ _ Hpost) in Hin.
    + intros p Hp.
      destruct (decide_files_change (files st2) (files st) p) as [Heq|Hne].
      * rewrite <- Heq in Hp.
        destruct (fetch_files _ _ _ _ _ Hpost p Hp) as (url & ok & Hin).
        right. exists url, ok. rewrite elem_of_app. by right.
      * destruct (prep_files _ _ _ _ Hpre p Hne) as [?|(url & ok & Hin)]; [by left|].
        right. exists url, ok. rewrite elem_of_app. by left.
  - intros st r <-. destruct (downloadShow_grows program st) as (delta & Ht & _ & Hw).
    by exists delta.
  - intros st. destruct (main_grows program st) as (delta & Ht & _ & Hw). by exists delta.
Qed.


(** ** C6: running the same invocation again *)

Lemma settled_mono program b t t' v :
  (∀ k, isDownloaded t k = true → isDownloaded t' k = true) →
  settled program b t v = true → settled program b t' v = true.
Proof.
  unfold settled. intros Hmono.
  destruct (date_skipped v b); [done|].
  destruct (truthy (urlToDownload program v)); simpl; [|by rewrite !orb_true_r].
  rewrite !orb_false_r. apply Hmono.
Qed.

(** A call that does not fail leaves nothing to fetch for its video. *)
Lemma downloadVideo_settles program v b st st' :
  downloadVideo program v b st = Done tt st' →
  failed (counts st') = failed (counts st) →
  settled program b (tracker st') v = true.
Proof.
  intros Hrun Hfailed. unfold settled.
  destruct (date_skipped v b) eqn:Hskip; [done|].
  destruct (downloadVideo_in_range program v b st Hskip)
    as (st2 & st'' & pre & post & Hrun' & Hpre & Hpost).
  rewrite Hrun in Hrun'. injection Hrun' as <-.
  pose proof (prep_counts _ _ _ _ Hpre) as Hcounts.
  destruct (fetch_cases _ _ _ _ _ Hpost)
    as [(Htr & _ & _ & Ht) | [(_ & Hurl & _)
       | (_ & _ & probe & url & [] & _ & _ & Hc & Hmark & _)]].
  - by rewrite Ht, Htr.
  - rewrite Hurl. by rewrite orb_true_r.
  - by rewrite Hmark.
  - rewrite Hc, Hcounts in Hfailed. simpl in Hfailed. lia.
Qed.

(** A video for which nothing is left to fetch is skipped. *)
Lemma downloadVideo_settled program v b st :
  settled program b (tracker st) v = true →
  ∃ st', downloadVideo program v b st = Done tt st'
         ∧ counts st' = incr_skipped (counts st)
         ∧ extends st st'.
Proof.
  intros Hsettled. unfold settled in Hsettled.
  destruct (date_skipped v b) eqn:Hskip.
  { rewrite (downloadVideo_date_skip _ _ _ _ Hskip). eexists. split; [done|].
    split; [by destruct st|apply date_skip_extends]. }
  destruct (downloadVideo_in_range program v b st Hskip)
    as (st2 & st' & pre & post & Hrun & Hpre & Hpost).
  pose proof (prep_marks _ _ _ _ Hpre (id v) (not_eq_sym (append_image_neq (id v)))) as Hsame.
  pose proof (prep_counts _ _ _ _ Hpre) as Hcounts.
  exists st'. split; [done|].
  split; [|eapply extends_trans; [apply Hpre|apply Hpost]].
  destruct (fetch_cases _ _ _ _ _ Hpost)
    as [(_ & _ & Hc & _) | [(_ & _ & _ & Hc & _) | (Htr & Hurl & _)]];
    [congruence..|].
  rewrite Hurl, <- Hsame, Htr in Hsettled. done.
Qed.

Lemma for_of_settles program b videos st st' :
  for_of videos (λ video, downloadVideo program video b) st = Done tt st' →
  failed (counts st') = failed (counts st) →
  ∀ v, v ∈ videos → settled program b (tracker st') v = true.
Proof.
  revert st. induction videos as [|x videos IH]; intros st Hrun Hfailed v Hin.
  { by elem_cases Hin. }
  simpl in Hrun. unfold mbind, M_bind in Hrun.
  destruct (downloadVideo_step program x b st) as (st1 & d1 & Hx & _ & Hext1 & _).
  rewrite Hx in Hrun.
  destruct (for_of_downloadVideo_progress program b videos st1) as (st'' & d2 & Hrest & Hprog).
  rewrite Hrun in Hrest. injection Hrest as <-.
  pose proof (ext_failed _ _ Hext1) as Hle1.
  pose proof (ext_failed _ _ (prog_extends _ _ _ _ Hprog)) as Hle2.
  apply elem_of_cons in Hin as [->|Hin].
  - eapply settled_mono; [apply (ext_marks _ _ (prog_extends _ _ _ _ Hprog))|].
    eapply downloadVideo_settles; [done|lia].
  - eapply IH; [done|lia|done].
Qed.

Lemma for_of_settled program b videos st :
  (∀ v, v ∈ videos → settled program b (tracker st) v = true) →
  ∃ st', for_of videos (λ video, downloadVideo program video b) st = Done tt st'
         ∧ counts st' = mkCounter (downloaded (counts st))
                          (skipped (counts st) + length videos) (failed (counts st)).
Proof.
  revert st. induction videos as [|x videos IH]; intros st Hall.
  { exists st. split; [done|]. destruct st as [? ? ? ? [] ? ?]. simpl. f_equal. lia. }
  destruct (downloadVideo_settled program x b st) as (st1 & Hx & Hc & Hext);
    [apply Hall; by left|].
  destruct (IH st1) as (st' & Hrest & Hc').
  { intros v Hv. eapply settled_mono; [apply (ext_marks _ _ Hext)|].
    apply Hall. by right. }
  exists st'. split; [simpl; unfold mbind, M_bind; by rewrite Hx|].
  rewrite Hc', Hc. simpl. f_equal. lia.
Qed.


(** What a show mode invocation that returns has done. *)
Lemma main_show_done program st0 st1 s videos :
  truthy (show program) = true →
  (∀ w, (getShowInfo (default EmptyString (show program)) w).1 = Some s) →
  (∀ w, (getVideos s w).1 = Some videos) →
  main program st0 = Done tt st1 →
  ∃ st_a pre st_l,
    show_setup program s videos
      (set_directory (path_resolve (default EmptyString (dir program)))
         (emit (EvLog log_init) st0)) st_a pre
    ∧ for_of videos
        (λ video, downloadVideo program video
                    (mkBounds (parse_bound (from_date program))
                              (parse_bound (to_date program)))) st_a = Done tt st_l
    ∧ extends st_a st_l
    ∧ st1 = emit (EvLog (log_showComplete (title s) (counts st_l))) st_l.
Proof.
  intros Hmode Hshow Hlist Hrun. unfold main, mbind, M_bind in Hrun.
  destruct (initProgram_spec program st0 _ eq_refl)
    as [(st' & delta & Hexit & _) | [Hinit _]].
  { by rewrite Hexit in Hrun. }
  rewrite Hinit, Hmode in Hrun.
  destruct (downloadShow_spec program _ _ Hrun)
    as [(? & ? & [=] & _) | (s' & videos' & st_a & pre & Hsetup & Hrest)].
  pose proof (su_show _ _ _ _ _ _ Hsetup) as Hs. rewrite Hshow in Hs.
  injection Hs as <-.
  destruct (su_videos _ _ _ _ _ _ Hsetup) as [w' Hv]. rewrite Hlist in Hv.
  injection Hv as <-.
  destruct (showVideos_spec program s videos st_a) as (st_l & delta & Hloop & Hprog & Hdone).
  rewrite Hdone in Hrest. injection Hrest as ->.
  exists st_a, pre, st_l. split; [done|]. split; [done|]. split; [apply Hprog|done].
Qed.

(** C6, amended.  When a show mode invocation returned without counting a
    failure, and the catalog answers the same show and the same list of
    videos whenever it is asked, the same invocation on what the first one
    left behind returns and reports nothing downloaded, nothing failed and
    every video of the list skipped. *)
Theorem rerun_skips_every_video program st0 st1 s videos :
  truthy (show program) = true →
  (∀ w, (getShowInfo (default EmptyString (show program)) w).1 = Some s) →
  (∀ w, (getVideos s w).1 = Some videos) →
  main program st0 = Done tt st1 →
  failed (counts st1) = 0%nat →
  ∃ st2,
    main program (restart st1) = Done tt st2
    ∧ counts st2 = mkCounter 0 (length videos) 0
    ∧ last (trace st2)
      = Some (EvLog (log_showComplete (title s) (mkCounter 0 (length videos) 0))).
Proof.
  intros Hmode Hshow Hlist Hrun Hfailed.
  destruct (main_show_done program st0 st1 s videos Hmode Hshow Hlist Hrun)
    as (st_a & pre & st_l & Hsetup & Hloop & Hext & ->).
  (* the first run left every video settled *)
  assert (∀ v, v ∈ videos →
            settled program (mkBounds (parse_bound (from_date program))
                                      (parse_bound (to_date program)))
              (tracker st_l) v = true) as Hsettled.
  { eapply for_of_settles; [done|].
    rewrite (su_counts _ _ _ _ _ _ Hsetup). by destruct st_l. }
  (* the second run starts *)
  set (st1 := emit _ st_l) in *.
  assert (initProgram program (restart st1)
          = Done tt (set_directory (path_resolve (default EmptyString (dir program)))
                       (emit (EvLog log_init) (restart st1)))) as Hinit.
  { unfold main, mbind, M_bind in Hrun.
    destruct (initProgram program st0) as [[] sti| |] eqn:Hi; [|done..].
    eapply initProgram_again; [done|].
    destruct (main_grows program st0) as (delta & _ & Hfiles & _).
    unfold main, mbind, M_bind in Hfiles. rewrite Hi, Hrun in Hfiles. apply Hfiles. }
  set (st_i := set_directory _ (emit _ (restart st1))) in *.
  destruct (downloadShow_spec program st_i _ eq_refl)
    as [(? & ? & _ & _ & _ & _ & [Hno | (s' & w' & Hs' & Hno)])
       | (s' & videos' & st_b & pre' & Hsetup' & Hrest)].
  { by rewrite Hshow in Hno. }
  { rewrite Hshow in Hs'. injection Hs' as <-. by rewrite Hlist in Hno. }
  pose proof (su_show _ _ _ _ _ _ Hsetup') as Hs. rewrite Hshow in Hs.
  injection Hs as <-.
  destruct (su_videos _ _ _ _ _ _ Hsetup') as [w' Hv]. rewrite Hlist in Hv.
  injection Hv as <-.
  (* its tracker holds every mark of the first run *)
  assert (∀ k, isDownloaded (tracker st_l) k = true →
               isDownloaded (tracker st_b) k = true) as Hmarks.
  { intros k Hk. apply (su_loaded _ _ _ _ _ _ Hsetup').
    rewrite (su_directory _ _ _ _ _ _ Hsetup').
    assert (ledger_synced st_l) as Hsync
      by apply (ext_synced _ _ Hext), (su_synced _ _ _ _ _ _ Hsetup).
    unfold ledger_synced in Hsync.
    rewrite (ext_tracker_directory _ _ Hext),
      (su_tracker_directory _ _ _ _ _ _ Hsetup),
      (su_directory _ _ _ _ _ _ Hsetup) in Hsync.
    replace (ledgers st_i) with (ledgers st_l) by by destruct st_l.
    replace (directory st_i)
      with (path_resolve (default EmptyString (dir program))) by done.
    replace (directory (set_directory (path_resolve (default EmptyString (dir program)))
                          (emit (EvLog log_init) st0)))
      with (path_resolve (default EmptyString (dir program))) in Hsync by done.
    rewrite Hsync. unfold isDownloaded in Hk. by apply bool_decide_eq_true in Hk. }
  destruct (for_of_settled program
              (mkBounds (parse_bound (from_date program)) (parse_bound (to_date program)))
              videos st_b) as (st_m & Hloop' & Hcounts).
  { intros v Hv. eapply settled_mono; [apply Hmarks|]. by apply Hsettled. }
  rewrite (su_counts _ _ _ _ _ _ Hsetup') in Hcounts. simpl in Hcounts.
  exists (emit (EvLog (log_showComplete (title s) (counts st_m))) st_m).
  split.
  { unfold main, mbind, M_bind. rewrite Hinit, Hmode. fold st_i. rewrite Hrest.
    unfold showVideos, mbind, M_bind. by rewrite Hloop'. }
  rewrite Hcounts. destruct st_m. cbn. split; [done|]. apply last_snoc.
Qed.


End Properties.

(** * The properties on the example *)

(** A failed download on the example: [failed] is one, the video unmarked. *)
Lemma completion_recorded_only_after_success_witness :
  ∃ st',
    downloadVideo (show_options "low") example_video no_bounds
      (example_state ∅ offline) = Done tt st'
    ∧ counts st' = mkCounter 0 0 1
    ∧ isDownloaded (tracker st') "101" = false.
Proof.
  destruct (completion_recorded_only_after_success (show_options "low")
              example_video no_bounds (example_state ∅ offline))
    as (st' & delta & Hrun & Htrace & _ & _ & Hfail).
  exists st'. split; [exact Hrun|].
  vm_compute in Hrun. injection Hrun as <-.
  vm_compute in Htrace. subst delta.
  destruct (Hfail [_; _; _; _; _] _ _ eq_refl) as (Hc & Hd & _).
  split; [exact Hc|exact Hd].
Defined.

(** [foo_3500.mp4] becomes [foo_8000.mp4], and the example video is probed
    for its 8000 bitrate file. *)
Lemma highest_quality_upgrade_witness :
  replace_bitrate "foo_3500.mp4" = "foo_8000.mp4"
  ∧ ∃ st' found,
      downloadVideo (show_options "highest") example_video no_bounds
        (example_state ∅ online) = Done tt st'
      ∧ EvCheckIfExists "https://cdn.example/101_8000.mp4" found ∈ trace st'.
Proof.
  destruct (highest_quality_upgrade (show_options "highest") example_video no_bounds
              (example_state ∅ online))
    as (Hreplace & st' & delta & Hrun & Htrace & _ & Hprobe).
  split.
  - exact (Hreplace "foo" "3"%char "5"%char "0"%char "0"%char
             eq_refl eq_refl eq_refl eq_refl).
  - destruct (Hprobe eq_refl eq_refl eq_refl eq_refl) as [found Hin].
    exists st', found. split; [exact Hrun|]. rewrite Htrace. exact Hin.
Defined.

(** The example video, already marked, in a directory without its metadata
    file: the file is written before the skip. *)
Lemma backfill_before_downloaded_skip_witness :
  date_skipped example_video no_bounds = false
  ∧ isDownloaded (tracker (example_state example_marks online)) "101" = true
  ∧ ∃ st' pre,
      downloadVideo (show_options "low") example_video no_bounds
        (example_state example_marks online) = Done tt st'
      ∧ trace st' = (pre ++ [EvLog (log_videoSkipDownloaded "Who? Me")])%list
      ∧ counts st' = mkCounter 0 1 0
      ∧ EvWriteFile "/videos/2020-01-01 - Who_ Me.metadata.json"
          (JSON_stringify_video example_video) ∈ pre.
Proof.
  split; [reflexivity|]. split; [vm_compute; reflexivity|].
  destruct (backfill_before_downloaded_skip (show_options "low") example_video no_bounds
              (example_state example_marks online)
              eq_refl ltac:(vm_compute; reflexivity))
    as (st' & pre & Hrun & Htrace & Hc & Hmeta & _).
  exists st', pre. split; [exact Hrun|]. split; [exact Htrace|]. split; [exact Hc|].
  exact (Hmeta ltac:(vm_compute; reflexivity)).
Defined.

(** [hd] on a video with a low URL only gives the low URL; [low] on a video
    with an hd URL gives the low URL. *)
Lemma quality_fallback_order_witness :
  quality (show_options "hd") = QUALITY_HD
  ∧ truthy (hd_url low_only_video) = false
  ∧ truthy (high_url low_only_video) = false
  ∧ urlToDownload (show_options "hd") low_only_video
    = Some "https://cdn.example/102_800.mp4"
  ∧ urlToDownload (show_options "low") example_video
    = Some "https://cdn.example/101_800.mp4".
Proof.
  split; [reflexivity|]. split; [reflexivity|]. split; [reflexivity|]. split.
  - exact (proj1 (proj2 (proj2 (proj2
             (quality_fallback_order (show_options "hd") low_only_video))))
             eq_refl eq_refl eq_refl).
  - exact (proj1 (quality_fallback_order (show_options "low") example_video) eq_refl).
Defined.

(** The example video is published on 2020-01-01: with both bounds on that
    day it is neither too early nor too late. *)
Lemma date_filter_inclusive_witness :
  dayjs (publish_date example_video) = Some 1577836800000%Z
  ∧ before_fromDate example_video new_year_2020 = false
  ∧ after_toDate example_video new_year_2020 = false.
Proof.
  split; [vm_compute; reflexivity|].
  destruct (date_filter_inclusive (platform := node_platform) (show_options "low") example_video new_year_2020
              (example_state ∅ online) 1577836800000%Z ltac:(vm_compute; reflexivity))
    as (_ & _ & Hfrom & Hto & _).
  split.
  - exact (Hfrom 1577836800000%Z ltac:(vm_compute; reflexivity) eq_refl).
  - exact (Hto 1577836800000%Z ltac:(vm_compute; reflexivity) eq_refl).
Defined.

(** After a run that downloaded the example video, the next run skips it. *)
Lemma rerun_skips_every_video_witness :
  main (show_options "low") (example_boot online) = Done tt online_run_1
  ∧ failed (counts online_run_1) = 0%nat
  ∧ ∃ st2,
      main (show_options "low") (restart online_run_1) = Done tt st2
      ∧ counts st2 = mkCounter 0 1 0.
Proof.
  assert (main (show_options "low") (example_boot online) = Done tt online_run_1) as Hrun
    by (vm_compute; reflexivity).
  assert (failed (counts online_run_1) = 0%nat) as Hfailed by (vm_compute; reflexivity).
  split; [exact Hrun|]. split; [exact Hfailed|].
  assert (∀ w : Network,
            (getShowInfo (default EmptyString (show (show_options "low"))) w).1
            = Some example_show) as Hshow by (intros w; reflexivity).
  assert (∀ w : Network, (getVideos example_show w).1 = Some [example_video]) as Hlist
    by (intros w; reflexivity).
  destruct (rerun_skips_every_video (show_options "low") (example_boot online)
              online_run_1 example_show [example_video]
              eq_refl Hshow Hlist Hrun Hfailed)
    as (st2 & Hagain & Hc & _).
  exists st2. split; [exact Hagain|exact Hc].
Defined.

(** C6, as stated, fails: when nothing can be downloaded, the first run of
    the show command counts one failure, and the same run again on what it
    left behind, nothing having changed, tries the video again and counts
    one failure, not one skip. *)
Lemma rerun_retries_failed_download :
  main (show_options "low") (example_boot offline) = Done tt offline_run_1
  ∧ main (show_options "low") (restart offline_run_1) = Done tt offline_run_2
  ∧ world offline_run_1 = offline
  ∧ counts offline_run_1 = mkCounter 0 0 1
  ∧ counts offline_run_2 = mkCounter 0 0 1
  ∧ counts offline_run_2 ≠ mkCounter 0 (length [example_video]) 0.
Proof. vm_compute. repeat split; try reflexivity. discriminate. Qed.

(** The show command after a first run writes no file that the first run
    left. *)
Lemma metadata_never_overwritten_witness :
  ∃ delta,
    trace (final_state (downloadShow (show_options "low") (restart online_run_1)))
    = (trace (restart online_run_1) ++ delta)%list
    ∧ ∀ p c, EvWriteFile p c ∈ delta → files (restart online_run_1) !! p = None.
Proof.
  exact (proj1 (proj2 (metadata_never_overwritten (show_options "low")))
           (restart online_run_1) _ eq_refl).
Defined.

(** The scenario of the specification: one identifier of the catalog and one
    that is not, with dates that would reject the video in show mode. *)
Example one_valid_one_invalid_identifier :
  counts (final_state (main (id_options "101,999" "hd") (example_boot online)))
  = mkCounter 1 0 1
  ∧ lookups (trace (final_state (main (id_options "101,999" "hd") (example_boot online))))
    = ["101"; "999"].
Proof. vm_compute. by split. Qed.

(** C7.  The metadata file and the image of a video are named after the
    sanitised base name, the video file is not: for the video named
    [Who? Me] the first two are [2020-01-01 - Who_ Me.metadata.json] and
    [2020-01-01 - Who_ Me.jpg], the video file is fetched to
    [2020-01-01 - Who? Me.mp4]. *)
Theorem video_file_name_is_not_sanitized :
  video_filename_base example_video = "2020-01-01 - Who_ Me"
  ∧ trace (final_state (downloadVideo (show_options "low") example_video no_bounds
                          (example_state ∅ online)))
    = [ EvLog (log_debug "Writing metadata for video");
        EvWriteFile "/videos/2020-01-01 - Who_ Me.metadata.json"
          (JSON_stringify_video example_video);
        EvLog (log_posterDownload "video image" "/videos/2020-01-01 - Who_ Me.jpg");
        EvDownloadFile "https://cdn.example/101.jpg"
          "/videos/2020-01-01 - Who_ Me.jpg" true;
        EvMarkDownloaded "101_image";
        EvLog (log_videoDownload "Who? Me" "2020-01-01 - Who? Me.mp4");
        EvDownloadFile "https://cdn.example/101_800.mp4"
          "/videos/2020-01-01 - Who? Me.mp4" true;
        EvMarkDownloaded "101" ].
Proof. vm_compute. by split. Qed.

(** * Further properties of the code *)

(** ** The bitrate token and the identifiers *)

Section Strings.
#[local] Arguments String.append !_ _ / : simpl nomatch.

Lemma substring_all (s : string) : substring 0 (String.length s) s = s.
Proof. induction s as [|c s IH]; simpl; [done | by rewrite IH]. Qed.

Lemma substring_split (n : nat) (s : string) :
  (n ≤ String.length s)%nat →
  s = substring 0 n s ++ substring n (String.length s - n) s.
Proof.
  revert s. induction n as [|n IH]; intros s Hn.
  - rewrite Nat.sub_0_r, substring_all. by destruct s.
  - destruct s as [|c s]; [simpl in Hn; lia|]. simpl. f_equal.
    apply IH. simpl in Hn. lia.
Qed.

Lemma is_bitrate_suffix_inv (x : string) :
  is_bitrate_suffix x = true →
  ∃ d1 d2 d3 d4,
    is_digit d1 = true ∧ is_digit d2 = true ∧ is_digit d3 = true ∧ is_digit d4 = true
    ∧ x = String "_" (String d1 (String d2 (String d3 (String d4 ".mp4")))).
Proof.
  destruct x as [|u [|d1 [|d2 [|d3 [|d4 rest]]]]]; try done.
  unfold is_bitrate_suffix. rewrite !andb_true_iff.
  intros [[[[[Hu H1] H2] H3] H4] Hrest].
  apply Ascii.eqb_eq in Hu as ->. apply String.eqb_eq in Hrest as ->.
  by exists d1, d2, d3, d4.
Qed.

Lemma replace_bitrate_cases (s : string) :
  replace_bitrate s = s
  ∨ ∃ p d1 d2 d3 d4,
      is_digit d1 = true ∧ is_digit d2 = true ∧ is_digit d3 = true ∧ is_digit d4 = true
      ∧ s = p ++ String "_" (String d1 (String d2 (String d3 (String d4 ".mp4"))))
      ∧ replace_bitrate s = p ++ "_8000.mp4".
Proof.
  unfold replace_bitrate.
  destruct (Nat.ltb_spec (String.length s) 9) as [|Hlen]; [by left|].
  destruct (is_bitrate_suffix _) eqn:Hsuffix; [right|by left].
  apply is_bitrate_suffix_inv in Hsuffix as (d1 & d2 & d3 & d4 & H1 & H2 & H3 & H4 & Hs).
  exists (substring 0 (String.length s - 9) s), d1, d2, d3, d4.
  repeat (split; [done|]). split; [|done].
  pose proof (substring_split (String.length s - 9) s ltac:(lia)) as Hsplit.
  replace (String.length s - (String.length s - 9))%nat with 9%nat in Hsplit by lia.
  by rewrite Hs in Hsplit.
Qed.

(** X18.  The identifiers of [--video_id] are the texts between its
    commas: there is at least one, none holds a comma, and joined by commas
    they give the option back, so an empty text between two commas, or
    after the last, is an identifier too. *)
Theorem split_comma_join (s : string) :
  join_comma (split_comma s) = s
  ∧ split_comma s ≠ []
  ∧ Forall (λ x, all_chars (λ c, negb (Ascii.eqb c ",")) x = true) (split_comma s).
Proof.
  induction s as [|c s (IHjoin & IHne & IHall)]; [by repeat constructor|].
  cbn [split_comma]. destruct (Ascii.eqb_spec c ",") as [->|Hc].
  - split; [|split; [done|by constructor]].
    destruct (split_comma s) as [|x xs]; [done|]. by rewrite <- IHjoin.
  - destruct (split_comma s) as [|x xs]; [done|].
    split; [|split; [done|]].
    + rewrite <- IHjoin. by destruct xs.
    + inversion_clear IHall as [|? ? Hx Hxs]. constructor; [|done].
      cbn [all_chars]. rewrite Hx, andb_true_r.
      by destruct (Ascii.eqb_spec c ",").
Qed.

(** X10.  The rewriting of the bitrate token changes nothing but that
    token: the result is the text itself, or the text ends in
    [_dddd.mp4] and the result has [8000] for the four digits; the length
    stays, and rewriting twice is rewriting once. *)
Theorem replace_bitrate_idempotent (s : string) :
  replace_bitrate (replace_bitrate s) = replace_bitrate s
  ∧ String.length (replace_bitrate s) = String.length s
  ∧ (replace_bitrate s = s
     ∨ ∃ p d1 d2 d3 d4,
         is_digit d1 = true ∧ is_digit d2 = true ∧ is_digit d3 = true
         ∧ is_digit d4 = true
         ∧ s = p ++ String "_" (String d1 (String d2 (String d3 (String d4 ".mp4"))))
         ∧ replace_bitrate s = p ++ "_8000.mp4").
Proof.
  destruct (replace_bitrate_cases s)
    as [Hsame | (p & d1 & d2 & d3 & d4 & H1 & H2 & H3 & H4 & Hs & Hr)].
  - rewrite !Hsame. split; [done|]. split; [done|by left].
  - rewrite Hr. split; [by apply (replace_bitrate_token p "8" "0" "0" "0")|].
    split; [by rewrite Hs, !length_append|].
    right. by exists p, d1, d2, d3, d4.
Qed.

Lemma split_comma_free (x : string) : comma_free x = true → split_comma x = [x].
Proof.
  unfold comma_free. induction x as [|c x IH]; [done|].
  cbn [all_chars split_comma]. intros [Hc Hx]%andb_true_iff.
  apply negb_true_iff in Hc. by rewrite Hc, IH.
Qed.

Lemma split_comma_append (x y : string) :
  comma_free x = true → split_comma (x ++ String "," y) = x :: split_comma y.
Proof.
  unfold comma_free. induction x as [|c x IH]; [done|].
  cbn [all_chars]. intros [Hc Hx]%andb_true_iff. apply negb_true_iff in Hc.
  simpl. by rewrite Hc, IH.
Qed.

(** The identifiers [ids], written with commas in between, are split into
    [ids] again. *)
Lemma split_comma_of_join (ids : list string) :
  ids ≠ [] → Forall (λ i, comma_free i = true) ids →
  split_comma (join_comma ids) = ids.
Proof.
  intros Hne Hfree. induction Hfree as [|x rest Hx Hrest IH]; [done|].
  destruct rest as [|y rest]; [by apply split_comma_free|].
  change (join_comma (x :: y :: rest)) with (x ++ String "," (join_comma (y :: rest))).
  rewrite split_comma_append by done. by rewrite IH.
Qed.

End Strings.

Section FurtherProperties.
Context `{platform : Platform} {World : Type} `{api : GiantBombAPI World}.
Implicit Types (st : State World) (v video : Video) (b bounds : DateBounds).
Implicit Types (program : Options) (t : DownloadTracker) (delta : list Event).

(** ** [initProgram] and [main] *)

Lemma initProgram_cases program st :
  (truthy (show program) ≠ truthy (video_id program)
   ∧ truthy (api_key program) = true ∧ truthy (dir program) = true
   ∧ is_Some (files st !! path_resolve (default EmptyString (dir program)))
   ∧ quality program ∈ QUALITY_OPTIONS
   ∧ initProgram program st
     = Done tt (set_directory (path_resolve (default EmptyString (dir program)))
                  (emit (EvLog log_init) st)))
  ∨ (¬ (truthy (show program) ≠ truthy (video_id program)
        ∧ truthy (api_key program) = true ∧ truthy (dir program) = true
        ∧ is_Some (files st !! path_resolve (default EmptyString (dir program)))
        ∧ quality program ∈ QUALITY_OPTIONS)
     ∧ ∃ st' problem,
         initProgram program st = Exit 1 st'
         ∧ error_log problem
         ∧ trace st' = (trace st ++ [EvLog log_init; EvLog problem])%list
         ∧ files st' = files st ∧ ledgers st' = ledgers st ∧ world st' = world st
         ∧ counts st' = counts st).
Proof.
  unfold initProgram. destruct st as [d f l t c w tr]. unfold_prims.
  repeat (split_atom; unfold_prims; cbn [negb andb orb Bool.eqb length Nat.eqb app]).
  all: prop_bools.
  all: first
    [ left; by repeat split
    | right; split;
      [ intros (H1 & H2 & H3 & H4 & H5); congruence
      | eexists _, _; split; [reflexivity|]; cbn; rewrite <- ?app_assoc; by repeat split ] ].
Qed.


(** X1.  [initProgram] returns exactly when one of [--show] and
    [--video_id] is given and not the other, [--api_key] and [--dir] are
    given, the directory exists and the quality is one of the four; it then
    has logged the start, set the global [directory] to the resolved
    directory and done nothing else. *)
Theorem initProgram_checks program st :
  ((∃ st', initProgram program st = Done tt st')
   ↔ truthy (show program) ≠ truthy (video_id program)
     ∧ truthy (api_key program) = true ∧ truthy (dir program) = true
     ∧ is_Some (files st !! path_resolve (default EmptyString (dir program)))
     ∧ quality program ∈ QUALITY_OPTIONS)
  ∧ ∀ st', initProgram program st = Done tt st' →
      st' = set_directory (path_resolve (default EmptyString (dir program)))
              (emit (EvLog log_init) st).
Proof.
  destruct (initProgram_cases program st)
    as [(H1 & H2 & H3 & H4 & H5 & Hrun) | (Hno & st1 & problem & Hrun & _)].
  - split; [split; [done | by eexists]|]. intros st' Hrun'. congruence.
  - split; [split; [|done]|]; [intros [st' Hrun']|intros st' Hrun']; congruence.
Qed.

(** X2.  When [initProgram] rejects the command line, [main] exits with
    code 1 having logged the start and one error, and nothing else: the
    file system, the ledgers and the network are as they were. *)
Theorem rejected_command_line_touches_nothing program st code st' :
  initProgram program st = Exit code st' →
  main program st = Exit 1 st'
  ∧ (∃ problem, error_log problem
                ∧ trace st' = (trace st ++ [EvLog log_init; EvLog problem])%list)
  ∧ files st' = files st ∧ ledgers st' = ledgers st ∧ world st' = world st.
Proof.
  intros Hrun.
  destruct (initProgram_cases program st)
    as [(_ & _ & _ & _ & _ & Hdone)
       | (_ & st1 & problem & Hexit & Herr & Htrace & Hf & Hl & Hw & _)]; [congruence|].
  rewrite Hrun in Hexit. injection Hexit as -> ->.
  split; [unfold main, mbind, M_bind; by rewrite Hrun|].
  split; [by exists problem|done].
Qed.

(** X3.  After [initProgram], [main] runs exactly one of the two commands:
    [downloadShow] when [--show] is given and [downloadVideosById]
    otherwise; its last branch, in which neither runs, is never taken. *)
Theorem main_runs_one_command program st :
  main program st
  = (initProgram program ;;
     if truthy (show program) return M World unit
     then downloadShow program else downloadVideosById program) st.
Proof.
  unfold main, mbind, M_bind.
  destruct (initProgram_cases program st)
    as [(H1 & _ & _ & _ & _ & ->) | (_ & st1 & problem & -> & _)]; [|done].
  by destruct (truthy (show program)), (truthy (video_id program)).
Qed.

(** ** [downloadShow] *)

(** X4.  A show the catalog does not know is fatal at once: [downloadShow]
    exits with code 1 after the one lookup, before it makes a directory,
    loads a ledger or writes a file. *)
Theorem unknown_show_is_fatal program st :
  (getShowInfo (default EmptyString (show program)) (world st)).1 = None →
  ∃ st',
    downloadShow program st = Exit 1 st'
    ∧ trace st' = (trace st ++ [EvGetShowInfo (default EmptyString (show program)) None])%list
    ∧ files st' = files st ∧ ledgers st' = ledgers st
    ∧ directory st' = directory st ∧ tracker st' = tracker st
    ∧ counts st' = counts st.
Proof.
  intros Hshow. unfold downloadShow.
  destruct st as [d f l t c w tr].
  unfold api_getShowInfo at 1. unfold mbind at 1. unfold M_bind at 1.
  cbn [world] in *.
  destruct (getShowInfo (default EmptyString (show program)) w) as [[s|] w1];
    [discriminate Hshow|].
  eexists. split; [reflexivity|]. by cbn.
Qed.

Lemma downloadShowPoster_cases what i st :
  ∃ st',
    downloadShowPoster what i st = Done tt st'
    ∧ counts st' = counts st ∧ extends st st'
    ∧ (if truthy (image_url i) && negb (isDownloaded (tracker st) ("show_" ++ what))
       then ∃ ok,
           trace st' =
             (trace st
              ++ [EvLog (log_posterDownload ("show " ++ what)
                    (what ++ path_extname (default EmptyString (image_url i))));
                  EvDownloadFile (default EmptyString (image_url i))
                    (path_join (directory st)
                       (what ++ path_extname (default EmptyString (image_url i)))) ok]
              ++ (if ok then [EvMarkDownloaded ("show_" ++ what)] else []))%list
           ∧ isDownloaded (tracker st') ("show_" ++ what) = ok
       else st' = st).
Proof.
  unfold downloadShowPoster.
  start_run st.
  all: eexists; split; [reflexivity|]; split; [reflexivity|].
  all: split; [solve [constructor; unfold ledger_synced; cbn;
                  auto using isDownloaded_insert_mono, store_download_mono, synced_mark]|].
  all: norm_state; rewrite_bools; cbn [andb negb].
  all: first [ done
             | exists true; split; [reflexivity | apply isDownloaded_insert_eq]
             | exists false; split; [reflexivity | done] ].
Qed.

Lemma downloadShowPoster_setup d what i st :
  what = "image" ∨ what = "logo" →
  ∃ st' delta,
    downloadShowPoster what i st = Done tt st'
    ∧ trace st' = (trace st ++ delta)%list
    ∧ extends st st' ∧ counts st' = counts st
    ∧ Forall (setup_event d) delta
    ∧ ∀ p, EvMkdir p ∉ delta.
Proof.
  intros Hwhat.
  destruct (downloadShowPoster_cases what i st) as (st' & Hrun & Hc & He & Hcase).
  destruct (truthy (image_url i) && negb _).
  - destruct Hcase as (ok & Htrace & _). eexists st', _.
    split; [done|]. split; [done|]. split; [done|]. split; [done|]. split.
    + destruct Hwhat as [-> | ->]; destruct ok;
        repeat (apply Forall_cons; split; [first [done | by left | by right]|]);
        apply Forall_nil_2.
    + intros p Hin. destruct ok; by elem_cases Hin.
  - subst st'. exists st, []. rewrite app_nil_r.
    split; [done|]. split; [done|]. split; [done|]. split; [done|].
    split; [constructor|]. intros p Hin. by elem_cases Hin.
Qed.

(** [downloadShow] on a show of the catalog, up to the request of the list
    of its videos. *)
Lemma downloadShow_found program st s :
  (getShowInfo (default EmptyString (show program)) (world st)).1 = Some s →
  ∃ st4 pre,
    downloadShow program st = listVideos program s st4
    ∧ show_directory s st st4 pre.
Proof.
  intros Hshow. unfold downloadShow, listVideos, showVideos.
  destruct st as [d f l [td tm] c w tr].
  unfold api_getShowInfo at 1. unfold mbind at 1. unfold M_bind at 1.
  cbn [world] in *.
  destruct (getShowInfo (default EmptyString (show program)) w) as [[s'|] w1];
    cbn in Hshow; [|discriminate Hshow].
  injection Hshow as ->.
  cbv [mbind M_bind mret M_ret when logger get_directory assign_directory
       fs_existsSync fs_mkdirSync fs_writeFileSync new_DownloadTracker
       emit set_directory set_files set_ledgers set_tracker set_counts
       set_world set_trace refuses_write refuses_mkdir reliable_fs].
  cbn [directory files ledgers tracker counts world trace].
  repeat (split_atom; cbn [negb directory files ledgers tracker counts world trace]).
  all: prop_bools.
  all: match goal with |- context [downloadShowPoster "image" ?i ?stx] =>
         destruct (downloadShowPoster_setup (path_join d (sanitize (title s)))
                     "image" i stx (or_introl eq_refl))
           as (st3 & d3 & Hrun3 & Ht3 & He3 & Hc3 & Hs3 & Hm3); rewrite Hrun3
       end.
  all: match goal with |- context [downloadShowPoster "logo" ?i ?stx] =>
         destruct (downloadShowPoster_setup (path_join d (sanitize (title s)))
                     "logo" i stx (or_intror eq_refl))
           as (st4 & d4 & Hrun4 & Ht4 & He4 & Hc4 & Hs4 & Hm4); rewrite Hrun4
       end.
  all: exists st4; eexists; split; [reflexivity|].
  all: pose proof (extends_trans _ _ _ He3 He4) as He;
       destruct He as [Edir Etd Emarks Efiles Esync _].
  all: cbn [directory files ledgers tracker tracker_directory trace world counts] in *.
  all: constructor; cbn [directory files ledgers tracker tracker_directory trace world counts];
       rewrite ?Edir.
  all: try solve [rewrite Ht4, Ht3, <- !app_assoc; reflexivity].
  all: try solve [congruence].
  all: try solve [apply Efiles; first [done | rewrite lookup_insert_eq; by eexists
                                       | apply insert_mono; first [done | rewrite lookup_insert_eq; by eexists]]].
  all: try solve [intros p Hp; apply Efiles; auto using insert_mono].
  all: try solve [simpl; repeat (apply Forall_cons; split; [done|]);
                  apply Forall_app; split; done].
  all: split; [intros Hin | intros Hnone].
  all: try solve [by apply eq_None_not_Some].
  all: try solve [simpl; solve_elem].
  all: try solve [rewrite Hnone in Hd; by destruct Hd].
  all: exfalso; simpl in Hin; rewrite ?elem_of_cons, !elem_of_app in Hin;
       destruct_or!; try discriminate Hin;
       first [by apply Hm3 in Hin | by apply Hm4 in Hin].
Qed.


(** X6.  The show image (and likewise the show logo) is asked for when the
    catalog has one and the ledger does not mark it, once per call and to
    [image] plus the extension of its URL in the directory of the show; it
    is marked when the download succeeded, and once it is marked no later
    call asks for it again, whatever the catalog then says.  The counters
    are never touched. *)
Theorem show_poster_fetched_until_it_succeeds what i st :
  ∃ st',
    downloadShowPoster what i st = Done tt st'
    ∧ counts st' = counts st
    ∧ (if truthy (image_url i) && negb (isDownloaded (tracker st) ("show_" ++ what))
       then ∃ ok,
           trace st' =
             (trace st
              ++ [EvLog (log_posterDownload ("show " ++ what)
                    (what ++ path_extname (default EmptyString (image_url i))));
                  EvDownloadFile (default EmptyString (image_url i))
                    (path_join (directory st)
                       (what ++ path_extname (default EmptyString (image_url i)))) ok]
              ++ (if ok then [EvMarkDownloaded ("show_" ++ what)] else []))%list
           ∧ isDownloaded (tracker st') ("show_" ++ what) = ok
       else st' = st)
    ∧ (isDownloaded (tracker st') ("show_" ++ what) = true →
       ∀ i', downloadShowPoster what i' st' = Done tt st').
Proof.
  destruct (downloadShowPoster_cases what i st) as (st' & Hrun & Hc & _ & Hcase).
  exists st'. split; [done|]. split; [done|]. split; [done|].
  intros Hmarked i'.
  destruct (downloadShowPoster_cases what i' st') as (st2 & Hrun2 & _ & _ & Hcase2).
  rewrite Hmarked, andb_false_r in Hcase2. by subst st2.
Qed.

(** *** The events of the loop *)

Lemma video_event_loop e : video_event e → loop_event e.
Proof. by destruct e as [[]| | | | | | | |]. Qed.

Lemma downloadVideo_loop_events program v b st :
  ∃ st' delta,
    downloadVideo program v b st = Done tt st'
    ∧ trace st' = (trace st ++ delta)%list
    ∧ Forall loop_event delta
    ∧ ∀ p, is_Some (files st !! p) → is_Some (files st' !! p).
Proof.
  destruct (downloadVideo_step program v b st)
    as (st' & delta & Hrun & Htrace & Hext & _).
  exists st', delta. split; [done|]. split; [done|]. split; [|apply Hext].
  destruct (date_skipped v b) eqn:Hskip.
  - rewrite (downloadVideo_date_skip program v b st Hskip) in Hrun.
    injection Hrun as <-. destruct st. cbn in Htrace.
    apply app_inv_head in Htrace as <-. by repeat constructor.
  - eapply Forall_impl; [|apply video_event_loop].
    by eapply downloadVideo_in_range_events.
Qed.




(** ** [downloadVideo] *)

Lemma prepareVideo_quiet v st :
  truthy (image_url (image v)) = false
  ∨ isDownloaded (tracker st) (id v ++ "_image") = true →
  ∃ st2 pre,
    prepareVideo v (directory st) st = Done tt st2
    ∧ trace st2 = (trace st ++ pre)%list
    ∧ Forall (λ e, ¬ network_event e) pre
    ∧ world st2 = world st ∧ tracker st2 = tracker st ∧ ledgers st2 = ledgers st
    ∧ counts st2 = counts st ∧ directory st2 = directory st.
Proof.
  intros Himage. unfold prepareVideo.
  start_run st.
  all: cbn in Himage; try (destruct Himage; congruence).
  all: eexists _, _; split; [reflexivity|]; norm_state.
  all: split; [solve_trace|]; split; [|done].
  all: repeat constructor; by intros [].
Qed.

Lemma fetchVideo_tracked program v d st :
  isDownloaded (tracker st) (id v) = true →
  fetchVideo program v d st
  = Done tt (emit (EvLog (log_videoSkipDownloaded (name v)))
               (set_counts (incr_skipped (counts st)) st)).
Proof.
  intros Htracked. unfold fetchVideo, tracker_isDownloaded, mbind, M_bind.
  by rewrite Htracked.
Qed.

(** X8.  A video whose identifier is marked in the ledger, and whose image
    is marked too or missing from the catalog, costs no call of the catalog
    client: nothing is probed or downloaded, the ledger stays as it is and
    the video counts as skipped. *)
Theorem tracked_video_needs_no_network program v b st :
  isDownloaded (tracker st) (id v) = true →
  truthy (image_url (image v)) = false
  ∨ isDownloaded (tracker st) (id v ++ "_image") = true →
  ∃ st' delta,
    downloadVideo program v b st = Done tt st'
    ∧ trace st' = (trace st ++ delta)%list
    ∧ Forall (λ e, ¬ network_event e) delta
    ∧ world st' = world st ∧ tracker st' = tracker st ∧ ledgers st' = ledgers st
    ∧ counts st' = incr_skipped (counts st).
Proof.
  intros Htracked Himage.
  destruct (date_skipped v b) eqn:Hskip.
  - rewrite (downloadVideo_date_skip program v b st Hskip).
    eexists _, [_]. split; [reflexivity|]. destruct st. cbn.
    split; [done|]. split; [|done]. repeat constructor. by intros [].
  - apply orb_false_iff in Hskip as [Hb Ha].
    destruct (prepareVideo_quiet v st Himage)
      as (st2 & pre & Hprep & Htrace & Hquiet & Hw & Ht & Hl & Hc & Hd).
    unfold downloadVideo. rewrite Hb, Ha.
    unfold mbind, M_bind, get_directory. rewrite Hprep.
    rewrite fetchVideo_tracked by (by rewrite Ht).
    eexists _, (pre ++ [_])%list. split; [reflexivity|].
    destruct st2. cbn in *. subst.
    split; [by rewrite app_assoc|]. split; [|done].
    apply Forall_app. split; [done|]. repeat constructor. by intros [].
Qed.

(** X9.  A video for which no URL resolves is a skip, not a failure: past
    the date filter and not yet marked, it has its metadata and image seen
    to, is logged as having no URL and counted as skipped, and stays
    unmarked; no video file is asked for. *)
Theorem video_without_url_is_skipped program v b st :
  date_skipped v b = false →
  isDownloaded (tracker st) (id v) = false →
  truthy (urlToDownload program v) = false →
  ∃ st' pre,
    downloadVideo program v b st = Done tt st'
    ∧ trace st' = (trace st ++ pre
                   ++ [EvLog (log_videoSkipNoURL (name v) (quality program))])%list
    ∧ Forall (prepare_event v) pre
    ∧ counts st' = incr_skipped (counts st)
    ∧ isDownloaded (tracker st') (id v) = false.
Proof.
  intros Hskip Hnew Hurl.
  destruct (downloadVideo_in_range program v b st Hskip)
    as (st2 & st' & pre & post & Hrun & Hpre & Hpost).
  pose proof (prep_marks _ _ _ _ Hpre (id v) (not_eq_sym (append_image_neq (id v)))) as Hsame.
  destruct (fetch_cases _ _ _ _ _ Hpost)
    as [(Htr & _) | [(_ & _ & Heq & Hc & Ht) | (_ & Hyes & _)]]; [congruence| |congruence].
  exists st', pre. split; [done|].
  rewrite (fetch_trace _ _ _ _ _ Hpost), (prep_trace _ _ _ _ Hpre), Heq, <- app_assoc.
  split; [done|]. split; [apply Hpre|].
  rewrite Hc, (prep_counts _ _ _ _ Hpre), Ht. split; [done|congruence].
Qed.

(** ** The ledger of the show directory *)

(** X19.  A run of [downloadShow] that returns never unmarks anything:
    what the ledger file of the show directory marked before the run, it
    marks after it, and it holds what the tracker of the run has in
    memory.  (The ledger is the one of [DownloadTracker] as modelled.) *)
Theorem show_run_keeps_ledger_marks program st st' s :
  (getShowInfo (default EmptyString (show program)) (world st)).1 = Some s →
  downloadShow program st = Done tt st' →
  tracker_directory (tracker st') = path_join (directory st) (sanitize (title s))
  ∧ ledger_synced st'
  ∧ ∀ k, default ∅ (ledgers st !! path_join (directory st) (sanitize (title s))) !! k
         = Some true →
         default ∅ (ledgers st' !! path_join (directory st) (sanitize (title s))) !! k
         = Some true.
Proof.
  intros Hshow Hrun.
  destruct (downloadShow_spec program st _ Hrun)
    as [(st1 & delta & Hexit & _) | (s' & videos & st_a & pre & Hsetup & Hr)];
    [discriminate Hexit|].
  destruct (showVideos_spec program s' videos st_a) as (st1 & delta & _ & Hprog & Heq).
  rewrite Heq in Hr. injection Hr as ->.
  pose proof (su_show _ _ _ _ _ _ Hsetup) as Hs'. rewrite Hshow in Hs'.
  injection Hs' as <-.
  destruct Hprog as [_ [Edir Etd Emarks _ Esync _] _ _].
  destruct Hsetup as [_ _ _ _ Hd Htd Hsync Hloaded _ _ _].
  assert (tracker_directory (tracker st1)
          = path_join (directory st) (sanitize (title s))) as Hdir by congruence.
  specialize (Esync Hsync). unfold ledger_synced in *.
  clear Hrun Heq.
  destruct st1 as [d1 f1 l1 [td1 tm1] c1 w1 tr1]. cbn in *.
  split; [done|]. split; [done|].
  intros k Hk. rewrite <- Hdir, Esync. rewrite <- Hd in Hk.
  apply Hloaded, Emarks in Hk. unfold isDownloaded in Hk. cbn in Hk.
  by apply bool_decide_eq_true in Hk.
Qed.

(** ** [downloadVideosById] *)

Lemma downloadVideoById_events program i st :
  ∃ st' delta,
    downloadVideoById program i st = Done tt st'
    ∧ trace st' = (trace st ++ delta)%list
    ∧ Forall id_event delta
    ∧ directory st' = directory st
    ∧ tracker_directory (tracker st') = tracker_directory (tracker st).
Proof.
  unfold downloadVideoById, api_getVideoById, mbind, M_bind.
  destruct (getVideoById i (world st)) as [[v|] w].
  - set (st0 := emit _ _).
    destruct (downloadVideo_loop_events program v no_bounds st0)
      as (st' & delta & Hrun & Htrace & Hloop & _).
    destruct (downloadVideo_step program v no_bounds st0)
      as (st'' & _ & Hrun' & _ & [Edir Etd _ _ _ _] & _).
    rewrite Hrun in Hrun'. injection Hrun' as <-.
    exists st', (EvGetVideoById i (Some v) :: delta). split; [done|].
    rewrite Htrace, Edir, Etd. destruct st. cbn. rewrite <- app_assoc.
    split; [done|]. split; [|done]. constructor; [done|].
    eapply Forall_impl; [exact Hloop|]. by intros [].
  - eexists _, [_]. split; [reflexivity|]. destruct st. cbn.
    split; [done|]. split; [|done]. by repeat constructor.
Qed.

Lemma for_of_downloadVideoById_events program ids st :
  ∃ st' delta,
    for_of ids (downloadVideoById program) st = Done tt st'
    ∧ trace st' = (trace st ++ delta)%list
    ∧ Forall id_event delta
    ∧ directory st' = directory st
    ∧ tracker_directory (tracker st') = tracker_directory (tracker st).
Proof.
  destruct (for_of_chain
              (λ (xs : list string) st1 st2, ∃ delta,
                 trace st2 = (trace st1 ++ delta)%list ∧ Forall id_event delta
                 ∧ directory st2 = directory st1
                 ∧ tracker_directory (tracker st2) = tracker_directory (tracker st1))
              (downloadVideoById program)) with (xs := ids) (st := st)
    as (st' & Hrun & delta & Htrace & Hevents & Hdir & Htd).
  - intros st1. exists []. by rewrite app_nil_r.
  - intros x xs st1 st2 st3 (d1 & Ht1 & He1 & Hd1 & Htd1) (d2 & Ht2 & He2 & Hd2 & Htd2).
    exists (d1 ++ d2)%list. rewrite Ht2, Ht1, app_assoc.
    split; [done|]. split; [by apply Forall_app|]. split; congruence.
  - intros x st1 _.
    destruct (downloadVideoById_events program x st1) as (st2 & d & ? & ?).
    by eauto.
  - by eauto 10.
Qed.

(** ** The exits of [main] *)

Lemma setup_event_no_report d e : setup_event d e → ¬ report e.
Proof. destruct e as [[]| | | | | | | |]; simpl; tauto. Qed.

Lemma downloadShow_exit program st code st' :
  downloadShow program st = Exit code st' →
  code = 1
  ∧ counts st' = counts st
  ∧ ∃ delta, trace st' = (trace st ++ delta)%list ∧ Forall (λ e, ¬ report e) delta.
Proof.
  destruct ((getShowInfo (default EmptyString (show program)) (world st)).1)
    as [s|] eqn:Hshow.
  - destruct (downloadShow_found program st s Hshow) as (st4 & pre & -> & Hsetup).
    destruct Hsetup as [Ht _ He _ _ _ _ Hc].
    unfold listVideos, api_getVideos, mbind, M_bind.
    destruct (getVideos s (world st4)) as [[videos|] w'].
    + unfold new_counts.
      destruct (showVideos_spec program s videos
                  (set_counts (mkCounter 0 0 0)
                     (emit (EvGetVideos s (Some videos)) (set_world w' st4))))
        as (st1 & delta & _ & _ & ->).
      discriminate.
    + intros [= <- <-]. split; [done|]. destruct st4. cbn in *. subst.
      split; [done|]. exists (pre ++ [EvGetVideos s None])%list.
      rewrite app_assoc. split; [done|]. apply Forall_app. split.
      * eapply Forall_impl; [exact He|]. apply setup_event_no_report.
      * repeat constructor. by intros [].
  - unfold downloadShow. destruct st as [d f l t c w tr].
    unfold api_getShowInfo at 1. unfold mbind at 1. unfold M_bind at 1.
    cbn [world] in *.
    destruct (getShowInfo (default EmptyString (show program)) w) as [[s|] w1];
      [discriminate Hshow|].
    intros [= <- <-]. split; [done|]. split; [done|].
    eexists [_]. split; [reflexivity|]. repeat constructor. by intros [].
Qed.

(** X21.  [main] exits with code 1 or not at all, and a run that exits
    reports no counters: none of its events is a report of the counters,
    and the counters are as they were. *)
Theorem main_exits_without_report program st code st' :
  main program st = Exit code st' →
  code = 1
  ∧ counts st' = counts st
  ∧ ∃ delta, trace st' = (trace st ++ delta)%list ∧ Forall (λ e, ¬ report e) delta.
Proof.
  unfold main, mbind, M_bind.
  destruct (initProgram_cases program st)
    as [(_ & _ & _ & _ & _ & ->)
       | (_ & st1 & problem & -> & Herr & Htrace & _ & _ & _ & Hcounts)].
  - set (stI := set_directory _ (emit _ st)).
    destruct (truthy (show program)); [|destruct (truthy (video_id program))].
    + intros Hexit.
      destruct (downloadShow_exit _ _ _ _ Hexit) as (-> & Hc & delta & Htrace & Hquiet).
      split; [done|]. rewrite Hc, Htrace. subst stI. destruct st. cbn.
      split; [done|]. exists (EvLog log_init :: delta). rewrite <- app_assoc.
      split; [done|]. constructor; [by intros []|done].
    + unfold downloadVideosById.
      set (ids := split_comma _).
      set (st0 := set_counts (mkCounter 0 0 0)
                    (set_tracker (mkTracker (directory stI)
                       (default ∅ (ledgers stI !! directory stI))) stI)).
      destruct (for_of_downloadVideoById program ids st0) as (st2 & delta & Hrun & _).
      cbv [mbind M_bind get_directory new_DownloadTracker new_counts get_counts logger].
      fold st0. by rewrite Hrun.
    + done.
  - intros [= <- <-]. split; [done|]. split; [done|].
    eexists. split; [exact Htrace|].
    repeat constructor; [by intros []|]. destruct problem; simpl in *; tauto.
Qed.

(** ** The date options *)

Lemma bind_ext {A B} (m : M World A) (f g : A → M World B) st :
  (∀ a st', f a st' = g a st') → (m ≫= f) st = (m ≫= g) st.
Proof. intros H. unfold mbind, M_bind. by destruct (m st). Qed.

Lemma for_of_ext {A} (xs : list A) (f g : A → M World unit) :
  (∀ x st, f x st = g x st) → ∀ st, for_of xs f st = for_of xs g st.
Proof.
  intros H. induction xs as [|x xs IH]; intros st; simpl; [done|].
  unfold mbind, M_bind. rewrite H. destruct (g x st); [apply IH|done..].
Qed.

Lemma downloadVideo_same program program' v b b' st :
  quality program = quality program' →
  before_fromDate v b = before_fromDate v b' →
  after_toDate v b = after_toDate v b' →
  downloadVideo program v b st = downloadVideo program' v b' st.
Proof.
  intros Hq Hb Ha. unfold downloadVideo, fetchVideo, urlToDownload, hdUrl, highUrl.
  by rewrite Hq, Hb, Ha.
Qed.

Lemma downloadShow_same program program' st :
  show program = show program' → quality program = quality program' →
  (∀ v, before_fromDate v (mkBounds (parse_bound (from_date program))
                                    (parse_bound (to_date program)))
        = before_fromDate v (mkBounds (parse_bound (from_date program'))
                                      (parse_bound (to_date program')))) →
  (∀ v, after_toDate v (mkBounds (parse_bound (from_date program))
                                 (parse_bound (to_date program)))
        = after_toDate v (mkBounds (parse_bound (from_date program'))
                                   (parse_bound (to_date program')))) →
  downloadShow program st = downloadShow program' st.
Proof.
  intros Hshow Hq Hb Ha. unfold downloadShow. rewrite Hshow.
  apply bind_ext. intros [s|] st1; [|done].
  repeat (apply bind_ext; intros ? ?).
  match goal with |- match ?a with _ => _ end _ = _ => destruct a as [videos|] end;
    [|done].
  apply bind_ext. intros _ st2. unfold mbind at 1 3, M_bind at 1 3.
  by rewrite (for_of_ext videos _ _
                (λ video st0, downloadVideo_same program program' video _ _ st0
                                Hq (Hb video) (Ha video))).
Qed.

Lemma isBefore_day_invalid (a : Dayjs) : isBefore_day a None = false.
Proof. by destruct a. Qed.

Lemma isAfter_day_invalid (a : Dayjs) : isAfter_day a None = false.
Proof. by destruct a. Qed.

(** X11.  A [--from_date] or [--to_date] that does not parse is no bound at
    all: [downloadShow] runs as it does without the option. *)
Theorem unparsable_date_is_no_bound program st :
  (dayjs (default EmptyString (from_date program)) = None →
   downloadShow program st = downloadShow (without_from_date program) st)
  ∧ (dayjs (default EmptyString (to_date program)) = None →
     downloadShow program st = downloadShow (without_to_date program) st).
Proof.
  split; intros Hinvalid; apply downloadShow_same; try done; intros v;
    unfold before_fromDate, after_toDate, parse_bound; cbn; try done.
  - destruct (truthy (from_date program)); [|done].
    by rewrite Hinvalid, isBefore_day_invalid.
  - destruct (truthy (to_date program)); [|done].
    by rewrite Hinvalid, isAfter_day_invalid.
Qed.

End FurtherProperties.

(** * File systems that refuse *)

Section Refusals.
Context `{platform : Platform} {World : Type} `{api : GiantBombAPI World}.
Context {fsys : FileSystem}.
Implicit Types (st : State World) (v video : Video) (b bounds : DateBounds).
Implicit Types (program : Options) (t : DownloadTracker) (delta : list Event).

Lemma throws_or_refl {A} (r : @Result World A) : throws_or r r.
Proof. by right. Qed.

Lemma throws_or_bind {A B} (m m' : M World A) (f f' : A → M World B) st :
  throws_or (m st) (m' st) →
  (∀ a st1, throws_or (f a st1) (f' a st1)) →
  throws_or ((m ≫= f) st) ((m' ≫= f') st).
Proof.
  intros [(s & Hm & Hs) | Hm] Hf; unfold mbind, M_bind.
  - left. exists s. by rewrite Hm.
  - rewrite Hm. destruct (m' st) as [a st1|code st1|st1]; [apply Hf|by right..].
Qed.

Lemma throws_or_when (c : bool) (m m' : M World unit) st :
  throws_or (m st) (m' st) → throws_or (when c m st) (when c m' st).
Proof. destruct c; [done|by right]. Qed.

Lemma fs_writeFileSync_refines p content st :
  throws_or (fs_writeFileSync p content st)
            (fs_writeFileSync (fsys := reliable_fs) p content st).
Proof.
  unfold fs_writeFileSync. destruct (refuses_write p (files st)) eqn:Hp.
  - left. exists st. split; [done|]. exists p. by left.
  - by right.
Qed.

Lemma fs_mkdirSync_refines p st :
  throws_or (fs_mkdirSync p st) (fs_mkdirSync (fsys := reliable_fs) p st).
Proof.
  unfold fs_mkdirSync. destruct (refuses_mkdir p (files st)) eqn:Hp.
  - left. exists st. split; [done|]. exists p. by right.
  - by right.
Qed.

Lemma for_of_refines {A} (xs : list A) (body body' : A → M World unit) :
  (∀ x st, throws_or (body x st) (body' x st)) →
  ∀ st, throws_or (for_of xs body st) (for_of xs body' st).
Proof.
  intros Hbody. induction xs as [|x xs IH]; intros st; [by right|].
  apply throws_or_bind; [apply Hbody|]. intros _ st1. apply IH.
Qed.

(** ** [downloadVideo] *)

(** [downloadVideo] throws exactly when the video passes the date filter,
    its metadata file is absent and the file system refuses to write it: it
    then dies after the log of the write; otherwise it is the call on the
    reliable file system. *)
Lemma downloadVideo_refused program v b st :
  downloadVideo program v b st
  = if metadata_refused v b st
    then Throw (emit (EvLog (log_debug "Writing metadata for video")) st)
    else downloadVideo (fsys := reliable_fs) program v b st.
Proof.
  unfold metadata_refused, date_skipped, downloadVideo, metadataPath.
  destruct (before_fromDate v b); [done|].
  destruct (after_toDate v b); [done|].
  cbn [orb negb andb].
  unfold mbind at 1 2, M_bind at 1 2, get_directory.
  unfold prepareVideo.
  cbv [mbind M_bind when fs_existsSync logger fs_writeFileSync mret M_ret].
  destruct (bool_decide (is_Some _)); [done|]. cbn [negb andb].
  destruct st as [d f l t c w tr]. cbn [files directory emit set_trace trace ledgers tracker counts world].
  by destruct (refuses_write _ f).
Qed.

Lemma downloadVideo_refines program v b st :
  throws_or (downloadVideo program v b st)
            (downloadVideo (fsys := reliable_fs) program v b st).
Proof.
  rewrite downloadVideo_refused. unfold metadata_refused.
  destruct (negb (date_skipped v b) && negb (bool_decide _)); [|by right].
  cbn [andb]. destruct (refuses_write _ _) eqn:Hp; [|by right].
  left. eexists. split; [done|]. eexists. left. destruct st. exact Hp.
Qed.

(** ** The commands *)

Lemma downloadShow_refines program st :
  throws_or (downloadShow program st) (downloadShow (fsys := reliable_fs) program st).
Proof.
  unfold downloadShow.
  apply throws_or_bind; [apply throws_or_refl|]. intros [s|] st1; [|apply throws_or_refl].
  do 4 (apply throws_or_bind; [apply throws_or_refl|]; intros ? ?).
  apply throws_or_bind; [apply throws_or_when, fs_mkdirSync_refines|]. intros ? ?.
  do 2 (apply throws_or_bind; [apply throws_or_refl|]; intros ? ?).
  apply throws_or_bind.
  { apply throws_or_when, throws_or_bind; [apply throws_or_refl|].
    intros ? ?. apply fs_writeFileSync_refines. }
  intros ? ?.
  do 2 (apply throws_or_bind; [apply throws_or_refl|]; intros ? ?).
  apply throws_or_bind; [apply throws_or_refl|]. intros [videos|] ?; [|apply throws_or_refl].
  apply throws_or_bind; [apply throws_or_refl|]. intros ? ?.
  apply throws_or_bind; [|intros ? ?; apply throws_or_refl].
  apply for_of_refines. intros video st'. apply downloadVideo_refines.
Qed.

(** One round of the loop over the identifiers throws exactly when the
    video is found and its metadata file is refused. *)
Lemma downloadVideoById_refused program i st :
  downloadVideoById program i st
  = match (getVideoById i (world st)).1 with
    | Some v =>
        let st0 := emit (EvGetVideoById i (Some v))
                     (set_world (getVideoById i (world st)).2 st) in
        if metadata_refused v no_bounds st0
        then Throw (emit (EvLog (log_debug "Writing metadata for video")) st0)
        else downloadVideoById (fsys := reliable_fs) program i st
    | None => downloadVideoById (fsys := reliable_fs) program i st
    end.
Proof.
  unfold downloadVideoById, api_getVideoById, mbind, M_bind.
  destruct (getVideoById i (world st)) as [[v|] w1]; cbn [fst snd]; [|done].
  apply downloadVideo_refused.
Qed.

Lemma downloadVideoById_refines program i st :
  throws_or (downloadVideoById program i st)
            (downloadVideoById (fsys := reliable_fs) program i st).
Proof.
  unfold downloadVideoById.
  apply throws_or_bind; [apply throws_or_refl|]. intros [v|] st1; [|apply throws_or_refl].
  apply downloadVideo_refines.
Qed.

Lemma downloadVideosById_refines program st :
  throws_or (downloadVideosById program st)
            (downloadVideosById (fsys := reliable_fs) program st).
Proof.
  unfold downloadVideosById.
  do 3 (apply throws_or_bind; [apply throws_or_refl|]; intros ? ?).
  apply throws_or_bind; [|intros ? ?; apply throws_or_refl].
  apply for_of_refines. intros i st'. apply downloadVideoById_refines.
Qed.

Lemma main_refines program st :
  throws_or (main program st) (main (fsys := reliable_fs) program st).
Proof.
  unfold main. apply throws_or_bind; [apply throws_or_refl|]. intros _ st1.
  destruct (truthy (show program)); [apply downloadShow_refines|].
  destruct (truthy (video_id program)); [apply downloadVideosById_refines|].
  apply throws_or_refl.
Qed.

(** A loop on any file system: it is the loop on the reliable one, or it
    throws in a round, the rounds before being those of the reliable one. *)
Lemma for_of_refused {A} (T : A → State World → State World → Prop)
    (body body' : A → M World unit) (xs : list A) :
  (∀ x st, body x st = body' x st ∨ ∃ s, body x st = Throw s ∧ T x st s) →
  ∀ st,
    for_of xs body st = for_of xs body' st
    ∨ ∃ before x rest st1 s,
        xs = (before ++ x :: rest)%list
        ∧ for_of before body' st = Done tt st1
        ∧ T x st1 s
        ∧ for_of xs body st = Throw s.
Proof.
  intros Hbody. induction xs as [|x xs IH]; intros st; [by left|].
  cbn [for_of]. unfold mbind, M_bind.
  destruct (Hbody x st) as [Hsame | (s & Hthrow & HT)].
  - rewrite Hsame. destruct (body' x st) as [[] st1|code st1|st1] eqn:Hx; [|by left..].
    destruct (IH st1) as [Hrest | (before & y & rest & st2 & s & -> & Hbefore & HT & Hrun)];
      [by left|right].
    exists (x :: before), y, rest, st2, s. split; [done|].
    split; [|done]. cbn [for_of]. unfold mbind, M_bind. by rewrite Hx.
  - right. exists [], x, xs, st, s. by rewrite Hthrow.
Qed.

(** [downloadVideosById] on any file system: its loop is the loop on the
    reliable one and it returns, or it throws at the metadata file of a
    video it found, the rounds before being those on the reliable one. *)
Lemma downloadVideosById_cases program st :
  (∃ st',
      for_of (split_comma (default EmptyString (video_id program)))
        (downloadVideoById (fsys := reliable_fs) program)
        (set_counts (mkCounter 0 0 0)
           (set_tracker (mkTracker (directory st)
              (default ∅ (ledgers st !! directory st))) st)) = Done tt st'
      ∧ downloadVideosById program st
        = Done tt (emit (EvLog (log_videosComplete
                          (length (split_comma (default EmptyString (video_id program))))
                          (counts st'))) st'))
  ∨ (∃ before i rest st1 v,
      split_comma (default EmptyString (video_id program)) = (before ++ i :: rest)%list
      ∧ for_of before (downloadVideoById (fsys := reliable_fs) program)
          (set_counts (mkCounter 0 0 0)
             (set_tracker (mkTracker (directory st)
                (default ∅ (ledgers st !! directory st))) st)) = Done tt st1
      ∧ (getVideoById i (world st1)).1 = Some v
      ∧ metadata_refused v no_bounds
          (emit (EvGetVideoById i (Some v))
             (set_world (getVideoById i (world st1)).2 st1)) = true
      ∧ downloadVideosById program st
        = Throw (emit (EvLog (log_debug "Writing metadata for video"))
                   (emit (EvGetVideoById i (Some v))
                      (set_world (getVideoById i (world st1)).2 st1)))).
Proof.
  unfold downloadVideosById.
  set (ids := split_comma _).
  set (st0 := set_counts (mkCounter 0 0 0)
                (set_tracker (mkTracker (directory st)
                   (default ∅ (ledgers st !! directory st))) st)).
  cbv [mbind M_bind get_directory new_DownloadTracker new_counts get_counts logger].
  fold st0.
  destruct (for_of_refused
              (λ i st1 s, ∃ v,
                 (getVideoById i (world st1)).1 = Some v
                 ∧ metadata_refused v no_bounds
                     (emit (EvGetVideoById i (Some v))
                        (set_world (getVideoById i (world st1)).2 st1)) = true
                 ∧ s = emit (EvLog (log_debug "Writing metadata for video"))
                         (emit (EvGetVideoById i (Some v))
                            (set_world (getVideoById i (world st1)).2 st1)))
              (downloadVideoById program)
              (downloadVideoById (fsys := reliable_fs) program) ids) with (st := st0)
    as [Hsame | (before & i & rest & st1 & s & Hids & Hbefore & (v & Hv & Hrefused & ->) & Hrun)].
  - intros i st1. rewrite downloadVideoById_refused.
    destruct ((getVideoById i (world st1)).1) as [v|] eqn:Hv; [|by left].
    cbv zeta. destruct (metadata_refused v no_bounds _) eqn:Hrefused; [|by left].
    right. eexists. split; [done|]. by exists v.
  - left. rewrite Hsame.
    destruct (downloadVideosById_done program st) as (st' & delta & Hloop & _).
    fold ids st0 in Hloop. rewrite Hloop. by exists st'.
  - right. rewrite Hrun. by exists before, i, rest, st1, v.
Qed.

(** ** C10: every video that is processed to the end is counted once *)

(** C10.  One call of [downloadVideo], on any file system, ends in one of
    two ways.  When the video passes the date filter, its metadata file is
    absent and the file system refuses to write it, the call dies in the
    exception of [fs.writeFileSync], right after the log of the write and
    with the counters as they were.  Otherwise it returns with exactly one
    of the three counters incremented by one and the other two unchanged,
    whatever happens to the image.  And when [downloadShow] returns, the
    counters it reports add up to the number of videos the catalog listed. *)
Theorem every_video_counted_once program :
  (∀ v b st,
     if metadata_refused v b st
     then downloadVideo program v b st
          = Throw (emit (EvLog (log_debug "Writing metadata for video")) st)
     else ∃ st',
         downloadVideo program v b st = Done tt st'
         ∧ (counts st' = incr_downloaded (counts st)
            ∨ counts st' = incr_skipped (counts st)
            ∨ counts st' = incr_failed (counts st)))
  ∧ (∀ st st', downloadShow program st = Done tt st' →
      ∃ s videos before delta c,
        trace st' = (trace st ++ before ++ [EvGetVideos s (Some videos)] ++ delta
                     ++ [EvLog (log_showComplete (title s) c)])%list
        ∧ counts st' = c
        ∧ (downloaded c + skipped c + failed c)%nat = length videos).
Proof.
  split.
  - intros v b st. rewrite downloadVideo_refused.
    destruct (metadata_refused v b st); [done|].
    destruct (downloadVideo_step program v b st) as (st' & delta & Hrun & _ & _ & _ & Hc).
    by exists st'.
  - intros st st' Hrun.
    destruct (downloadShow_refines program st) as [(s & Hthrow & _) | Hsame];
      [congruence|].
    rewrite Hsame in Hrun. exact (downloadShow_done_counts program st st' Hrun).
Qed.

(** ** C9: identifier mode *)

(** C9.  For identifiers [ids] without commas, given as [--video_id] with
    commas in between, [downloadVideosById] on any file system ends in one
    of two ways.  It returns: then it has looked the identifiers up one by
    one in the order given ([lookups]), logged no skip of the date filter,
    whatever dates the options carry, counted every lookup that found
    nothing as a failure, and its counters add up to the number of
    identifiers.  Or it dies in the exception of the metadata write of a
    video it found: then it has looked up, in the order given, the
    identifiers up to that one, and has counted the ones before it once
    each.  It returns when the file system refuses no write.  One round on
    an identifier that is not found only increments [failed], and the loop
    goes on; a round on an identifier that is found is [downloadVideo] on
    the video without date bounds. *)
Theorem identifier_mode program st ids :
  ids ≠ [] → Forall (λ i, comma_free i = true) ids →
  default EmptyString (video_id program) = join_comma ids →
  ((∃ st' delta c,
      downloadVideosById program st = Done tt st'
      ∧ trace st' = (trace st ++ delta ++ [EvLog (log_videosComplete (length ids) c)])%list
      ∧ lookups delta = ids
      ∧ Forall (λ e, ¬ date_skip_log e) delta
      ∧ (lookups_not_found delta ≤ failed c)%nat
      ∧ (downloaded c + skipped c + failed c)%nat = length ids)
   ∨ (∃ st' delta before i v rest,
      downloadVideosById program st = Throw st'
      ∧ ids = (before ++ i :: rest)%list
      ∧ trace st' = (trace st ++ delta)%list
      ∧ lookups delta = (before ++ [i])%list
      ∧ Forall (λ e, ¬ date_skip_log e) delta
      ∧ EvGetVideoById i (Some v) ∈ delta
      ∧ refuses_write (metadataPath (directory st) v) (files st') = true
      ∧ total (counts st') = length before))
  ∧ ((∀ p f, refuses_write p f = false) →
     ∃ st', downloadVideosById program st = Done tt st')
  ∧ (∀ i st0, (getVideoById i (world st0)).1 = None →
       ∃ st1, downloadVideoById program i st0 = Done tt st1
              ∧ trace st1 = (trace st0 ++ [EvGetVideoById i None])%list
              ∧ counts st1 = incr_failed (counts st0)
              ∧ tracker st1 = tracker st0 ∧ files st1 = files st0)
  ∧ (∀ i v st0, (getVideoById i (world st0)).1 = Some v →
       downloadVideoById program i st0
       = downloadVideo program v no_bounds
           (emit (EvGetVideoById i (Some v))
              (set_world (getVideoById i (world st0)).2 st0))).
Proof.
  intros Hne Hfree Hoption.
  pose proof (split_comma_of_join ids Hne Hfree) as Hids. rewrite <- Hoption in Hids.
  set (st0 := set_counts (mkCounter 0 0 0)
                (set_tracker (mkTracker (directory st)
                   (default ∅ (ledgers st !! directory st))) st)).
  assert ((∃ st' delta c,
      downloadVideosById program st = Done tt st'
      ∧ trace st' = (trace st ++ delta ++ [EvLog (log_videosComplete (length ids) c)])%list
      ∧ lookups delta = ids
      ∧ Forall (λ e, ¬ date_skip_log e) delta
      ∧ (lookups_not_found delta ≤ failed c)%nat
      ∧ (downloaded c + skipped c + failed c)%nat = length ids)
   ∨ (∃ st' delta before i v rest,
      downloadVideosById program st = Throw st'
      ∧ ids = (before ++ i :: rest)%list
      ∧ trace st' = (trace st ++ delta)%list
      ∧ lookups delta = (before ++ [i])%list
      ∧ Forall (λ e, ¬ date_skip_log e) delta
      ∧ EvGetVideoById i (Some v) ∈ delta
      ∧ refuses_write (metadataPath (directory st) v) (files st') = true
      ∧ total (counts st') = length before)) as Hcases.
  { destruct (downloadVideosById_cases program st)
      as [(st' & Hloop & Hrun)
         | (before & i & rest & st1 & v & Hsplit & Hbefore & Hv & Hrefused & Hrun)].
    - left. rewrite Hids in Hloop, Hrun. fold st0 in Hloop.
      destruct (for_of_downloadVideoById program ids st0)
        as (st'' & delta & Hloop' & Hprog & Hl & Hd & Hf).
      rewrite Hloop in Hloop'. injection Hloop' as <-.
      exists (emit (EvLog (log_videosComplete (length ids) (counts st'))) st'),
             delta, (counts st').
      split; [done|].
      pose proof (prog_trace _ _ _ _ Hprog) as Ht.
      pose proof (prog_total _ _ _ _ Hprog) as Hn.
      split; [destruct st, st'; cbn in *; by rewrite Ht, <- app_assoc|].
      split; [done|]. split; [done|].
      unfold total in Hn. destruct st; cbn in *. lia.
    - right. rewrite Hids in Hsplit. fold st0 in Hbefore.
      destruct (for_of_downloadVideoById program before st0)
        as (st1' & delta & Hloop' & Hprog & Hl & Hd & Hf).
      rewrite Hbefore in Hloop'. injection Hloop' as <-.
      pose proof (prog_trace _ _ _ _ Hprog) as Ht.
      pose proof (prog_total _ _ _ _ Hprog) as Hn.
      pose proof (ext_directory _ _ (prog_extends _ _ _ _ Hprog)) as Hdir.
      eexists _, (delta ++ [EvGetVideoById i (Some v);
                            EvLog (log_debug "Writing metadata for video")])%list,
        before, i, v, rest.
      split; [exact Hrun|]. split; [done|].
      unfold metadata_refused in Hrefused.
      apply andb_true_iff in Hrefused as [_ Hrefused].
      subst st0. destruct st as [d f l t c w tr], st1 as [d1 f1 l1 t1 c1 w1 tr1].
      cbn in *. rewrite Hdir in Hrefused. rewrite Ht.
      split; [by rewrite <- !app_assoc|].
      split; [by rewrite lookups_app, Hl|].
      split; [apply Forall_app; split; [done|]; repeat constructor; by intros []|].
      split; [apply elem_of_app; right; apply list_elem_of_here|].
      split; [done|]. unfold total in *. cbn in Hn. lia. }
  split; [exact Hcases|]. split; [|split].
  - intros Hok.
    destruct Hcases as [(st' & _ & _ & Hrun & _)
                       | (st' & _ & _ & _ & v & _ & _ & _ & _ & _ & _ & _ & Hrefused & _)];
      [by exists st'|].
    by rewrite Hok in Hrefused.
  - intros i st1 Hnone. rewrite downloadVideoById_refused, Hnone.
    destruct (downloadVideoById_spec program i st1)
      as (st2 & d & Hrun & Hprog & _ & _ & _ & Hnf).
    destruct (Hnf Hnone) as (-> & ? & ? & ? & _).
    exists st2. repeat split; try done. apply Hprog.
  - intros i v st1. unfold downloadVideoById, api_getVideoById, mbind, M_bind.
    destruct (getVideoById i (world st1)) as [r w1]. simpl. by intros ->.
Qed.

(** ** What identifier mode never does *)

(** X20.  On any file system [downloadVideosById] never exits: it returns
    or it dies in the exception of a metadata write.  In both cases it has
    worked in the base directory with the ledger of that directory: it has
    made no directory and never asked the catalog for a show or for a list
    of videos; every event is the lookup of an identifier, a log, or a file,
    probe or ledger event of a video. *)
Theorem identifier_mode_stays_in_the_base_directory program st :
  (∀ code s, downloadVideosById program st ≠ Exit code s)
  ∧ ∃ delta,
      trace (final_state (downloadVideosById program st)) = (trace st ++ delta)%list
      ∧ Forall id_event delta
      ∧ directory (final_state (downloadVideosById program st)) = directory st
      ∧ tracker_directory (tracker (final_state (downloadVideosById program st)))
        = directory st.
Proof.
  set (st0 := set_counts (mkCounter 0 0 0)
                (set_tracker (mkTracker (directory st)
                   (default ∅ (ledgers st !! directory st))) st)).
  destruct (downloadVideosById_cases program st)
    as [(st' & Hloop & ->)
       | (before & i & rest & st1 & v & _ & Hbefore & _ & _ & ->)];
    [fold st0 in Hloop|fold st0 in Hbefore]; (split; [done|]); cbn [final_state].
  - destruct (for_of_downloadVideoById_events program
                (split_comma (default EmptyString (video_id program))) st0)
      as (st'' & delta & Hloop' & Htrace & Hevents & Hdir & Htd).
    rewrite Hloop in Hloop'. injection Hloop' as <-.
    exists (delta ++ [EvLog (log_videosComplete
                               (length (split_comma (default EmptyString (video_id program))))
                               (counts st'))])%list.
    subst st0.
    destruct st' as [d1 f1 l1 t1 c1 w1 tr1], st as [d f l t c w tr].
    cbn in *. rewrite Htrace, Hdir, Htd, <- app_assoc.
    split; [done|]. split; [|done]. apply Forall_app. by repeat constructor.
  - destruct (for_of_downloadVideoById_events program before st0)
      as (st'' & delta & Hloop' & Htrace & Hevents & Hdir & Htd).
    rewrite Hbefore in Hloop'. injection Hloop' as <-.
    exists (delta ++ [EvGetVideoById i (Some v);
                      EvLog (log_debug "Writing metadata for video")])%list.
    subst st0.
    destruct st1 as [d1 f1 l1 t1 c1 w1 tr1], st as [d f l t c w tr].
    cbn in *. rewrite Htrace, Hdir, Htd, <- !app_assoc.
    split; [done|]. split; [|done]. apply Forall_app. by repeat constructor.
Qed.

(** ** Any file system and the reliable one *)

(** X22.  On any file system a run of [main] dies in an exception of
    [fs.mkdirSync] or [fs.writeFileSync], in a state whose files the file
    system refuses a call on, or it is the run on the file system that
    accepts every call: the same outcome, the same events, the same final
    state.  When the file system refuses no call, it is that run. *)
Theorem run_throws_or_is_reliable program st :
  ((∃ s, main program st = Throw s ∧ refused s)
   ∨ main program st = main (fsys := reliable_fs) program st)
  ∧ ((∀ p f, refuses_write p f = false ∧ refuses_mkdir p f = false) →
     main program st = main (fsys := reliable_fs) program st).
Proof.
  pose proof (main_refines program st) as Hmain. split; [exact Hmain|].
  intros Hok. destruct Hmain as [(s & _ & p & Hp) | Hsame]; [|done].
  destruct (Hok p (files s)) as [Hw Hm]. rewrite Hw, Hm in Hp. by destruct Hp.
Qed.

(** ** A run that dies *)

Lemma unreported_refl st : unreported st st.
Proof. exists []. by rewrite app_nil_r. Qed.

Lemma unreported_trans st1 st2 st3 :
  unreported st1 st2 → unreported st2 st3 → unreported st1 st3.
Proof.
  intros (d1 & H1 & Hq1) (d2 & H2 & Hq2). exists (d1 ++ d2)%list.
  rewrite H2, H1, app_assoc. split; [done|]. by apply Forall_app.
Qed.

Lemma unreported_emit e st : ¬ report e → unreported st (emit e st).
Proof. intros He. exists [e]. destruct st. cbn. split; [done|]. by constructor. Qed.

Lemma unreported_same st s : trace s = trace st → unreported st s.
Proof. intros Hs. exists []. by rewrite app_nil_r. Qed.

Lemma reports_nothing_ret {A} (a : A) : reports_nothing (mret a : M World A).
Proof. intros st. apply unreported_refl. Qed.

Lemma reports_nothing_bind {A B} (m : M World A) (f : A → M World B) :
  reports_nothing m → (∀ a, reports_nothing (f a)) → reports_nothing (m ≫= f).
Proof.
  intros Hm Hf st. specialize (Hm st). unfold mbind, M_bind.
  destruct (m st) as [a st1|code st1|st1]; [|done..].
  specialize (Hf a st1). destruct (f a st1) as [a' st2|code st2|st2].
  - by eapply unreported_trans.
  - destruct Hf. split; [done|]. by eapply unreported_trans.
  - destruct Hf. split; [done|]. by eapply unreported_trans.
Qed.

Lemma dies_unreported_bind {A B} (m : M World A) (f : A → M World B) :
  reports_nothing m → (∀ a, dies_unreported (f a)) → dies_unreported (m ≫= f).
Proof.
  intros Hm Hf st. specialize (Hm st). unfold mbind, M_bind.
  destruct (m st) as [a st1|code st1|st1]; [|done..].
  specialize (Hf a st1). destruct (f a st1) as [a' st2|code st2|st2].
  - done.
  - destruct Hf. split; [done|]. by eapply unreported_trans.
  - destruct Hf. split; [done|]. by eapply unreported_trans.
Qed.

Lemma reports_nothing_dies {A} (m : M World A) : reports_nothing m → dies_unreported m.
Proof. intros Hm st. specialize (Hm st). by destruct (m st). Qed.

Lemma reports_nothing_when (c : bool) (m : M World unit) :
  reports_nothing m → reports_nothing (when c m).
Proof. destruct c; [done|]. intros _. apply reports_nothing_ret. Qed.

Lemma reports_nothing_for_of {A} (xs : list A) (body : A → M World unit) :
  (∀ x, reports_nothing (body x)) → reports_nothing (for_of xs body).
Proof.
  intros Hbody. induction xs as [|x xs IH]; [apply reports_nothing_ret|].
  by apply reports_nothing_bind.
Qed.

Lemma reports_nothing_logger l : ¬ report (EvLog l) → reports_nothing (logger l : M World unit).
Proof. intros Hl st. by apply unreported_emit. Qed.

Lemma reports_nothing_exit {A} : reports_nothing (process_exit 1 : M World A).
Proof. intros st. split; [done|]. apply unreported_refl. Qed.

Lemma reports_nothing_get_directory : reports_nothing (get_directory : M World string).
Proof. intros st. apply unreported_refl. Qed.

Lemma reports_nothing_assign_directory d : reports_nothing (assign_directory d : M World unit).
Proof. intros st. by apply unreported_same. Qed.

Lemma reports_nothing_existsSync p : reports_nothing (fs_existsSync p : M World bool).
Proof. intros st. apply unreported_refl. Qed.

Lemma reports_nothing_mkdirSync p : reports_nothing (fs_mkdirSync p : M World unit).
Proof.
  intros st. unfold fs_mkdirSync. destruct (refuses_mkdir p (files st)) eqn:Hp.
  - split; [|apply unreported_refl]. exists p. by right.
  - apply (unreported_trans _ (set_files (<[p:=Directory]> (files st)) st));
      [by apply unreported_same|]. apply unreported_emit. by intros [].
Qed.

Lemma reports_nothing_writeFileSync p content :
  reports_nothing (fs_writeFileSync p content : M World unit).
Proof.
  intros st. unfold fs_writeFileSync. destruct (refuses_write p (files st)) eqn:Hp.
  - split; [|apply unreported_refl]. exists p. by left.
  - apply (unreported_trans _ (set_files (<[p:=File content]> (files st)) st));
      [by apply unreported_same|]. apply unreported_emit. by intros [].
Qed.

Lemma reports_nothing_downloadFile url p : reports_nothing (api_downloadFile url p).
Proof.
  intros st. unfold api_downloadFile.
  destruct (downloadFile url p (world st)) as [[success written] w].
  eapply unreported_trans; [|apply unreported_emit; by intros []]. by apply unreported_same.
Qed.

Lemma reports_nothing_checkIfExists url : reports_nothing (api_checkIfExists url).
Proof.
  intros st. unfold api_checkIfExists.
  destruct (checkIfExists url (world st)) as [found w].
  eapply unreported_trans; [|apply unreported_emit; by intros []]. by apply unreported_same.
Qed.

Lemma reports_nothing_getShowInfo n : reports_nothing (api_getShowInfo n).
Proof.
  intros st. unfold api_getShowInfo. destruct (getShowInfo n (world st)) as [r w].
  eapply unreported_trans; [|apply unreported_emit; by intros []]. by apply unreported_same.
Qed.

Lemma reports_nothing_getVideos s : reports_nothing (api_getVideos s).
Proof.
  intros st. unfold api_getVideos. destruct (getVideos s (world st)) as [r w].
  eapply unreported_trans; [|apply unreported_emit; by intros []]. by apply unreported_same.
Qed.

Lemma reports_nothing_getVideoById i : reports_nothing (api_getVideoById i).
Proof.
  intros st. unfold api_getVideoById. destruct (getVideoById i (world st)) as [r w].
  eapply unreported_trans; [|apply unreported_emit; by intros []]. by apply unreported_same.
Qed.

Lemma reports_nothing_new_DownloadTracker d : reports_nothing (new_DownloadTracker d : M World unit).
Proof. intros st. by apply unreported_same. Qed.

Lemma reports_nothing_isDownloaded k : reports_nothing (tracker_isDownloaded k : M World bool).
Proof. intros st. apply unreported_refl. Qed.

Lemma reports_nothing_markDownloaded k : reports_nothing (tracker_markDownloaded k : M World unit).
Proof.
  intros st. unfold tracker_markDownloaded.
  eapply unreported_trans; [|apply unreported_emit; by intros []]. by apply unreported_same.
Qed.

Lemma reports_nothing_new_counts : reports_nothing (new_counts : M World unit).
Proof. intros st. by apply unreported_same. Qed.

Lemma reports_nothing_get_counts : reports_nothing (get_counts : M World DownloadCounter).
Proof. intros st. apply unreported_refl. Qed.

Lemma reports_nothing_skipped : reports_nothing (counts_skipped_incr : M World unit).
Proof. intros st. by apply unreported_same. Qed.

Lemma reports_nothing_downloaded : reports_nothing (counts_downloaded_incr : M World unit).
Proof. intros st. by apply unreported_same. Qed.

Lemma reports_nothing_failed : reports_nothing (counts_failed_incr : M World unit).
Proof. intros st. by apply unreported_same. Qed.

Ltac quiet :=
  repeat first
    [ apply reports_nothing_ret | apply reports_nothing_exit
    | apply reports_nothing_get_directory | apply reports_nothing_assign_directory
    | apply reports_nothing_existsSync | apply reports_nothing_mkdirSync
    | apply reports_nothing_writeFileSync | apply reports_nothing_downloadFile
    | apply reports_nothing_checkIfExists | apply reports_nothing_getShowInfo
    | apply reports_nothing_getVideos | apply reports_nothing_getVideoById
    | apply reports_nothing_new_DownloadTracker | apply reports_nothing_isDownloaded
    | apply reports_nothing_markDownloaded | apply reports_nothing_new_counts
    | apply reports_nothing_get_counts | apply reports_nothing_skipped
    | apply reports_nothing_downloaded | apply reports_nothing_failed
    | apply reports_nothing_logger; by intros []
    | apply reports_nothing_when
    | apply reports_nothing_bind; [|intros ?]
    | match goal with
      | |- reports_nothing (if ?c then _ else _) => destruct c
      | |- reports_nothing (match ?c with _ => _ end) => destruct c
      end ].

Lemma reports_nothing_downloadVideo program v b : reports_nothing (downloadVideo program v b).
Proof. unfold downloadVideo, prepareVideo, fetchVideo. quiet. Qed.

Lemma reports_nothing_initProgram program : reports_nothing (initProgram program : M World unit).
Proof. unfold initProgram. quiet. Qed.

Lemma dies_unreported_logger l : dies_unreported (logger l : M World unit).
Proof. by intros st. Qed.

Lemma dies_unreported_downloadShow program : dies_unreported (downloadShow program).
Proof.
  unfold downloadShow.
  apply dies_unreported_bind; [quiet|]. intros [s|]; [|apply reports_nothing_dies; quiet].
  do 10 (apply dies_unreported_bind; [unfold downloadShowPoster; quiet|]; intros ?).
  apply dies_unreported_bind; [quiet|]. intros [videos|]; [|apply reports_nothing_dies; quiet].
  apply dies_unreported_bind; [quiet|]. intros _.
  apply dies_unreported_bind.
  { apply reports_nothing_for_of. intros video. apply reports_nothing_downloadVideo. }
  intros _. apply dies_unreported_bind; [quiet|]. intros c. apply dies_unreported_logger.
Qed.

Lemma dies_unreported_downloadVideosById program :
  dies_unreported (downloadVideosById program).
Proof.
  unfold downloadVideosById.
  do 3 (apply dies_unreported_bind; [quiet|]; intros ?).
  apply dies_unreported_bind.
  { apply reports_nothing_for_of. intros i. unfold downloadVideoById.
    apply reports_nothing_bind; [quiet|]. intros [v|]; [|quiet].
    apply reports_nothing_downloadVideo. }
  intros _. apply dies_unreported_bind; [quiet|]. intros c. apply dies_unreported_logger.
Qed.

Lemma dies_unreported_main program : dies_unreported (main program).
Proof.
  unfold main. apply dies_unreported_bind; [apply reports_nothing_initProgram|].
  intros _. destruct (truthy (show program)); [apply dies_unreported_downloadShow|].
  destruct (truthy (video_id program)); [apply dies_unreported_downloadVideosById|].
  apply reports_nothing_dies, reports_nothing_ret.
Qed.

(** X23.  On any file system a run of [main] that does not return has
    reported no counters: none of its events is a report.  A run that
    exits, exits with code 1; a run that dies in an exception dies in a
    state on whose files the file system refuses a call. *)
Theorem a_run_that_dies_reports_nothing program st :
  (∀ code s, main program st = Exit code s →
     code = 1%nat
     ∧ ∃ delta, trace s = (trace st ++ delta)%list ∧ Forall (λ e, ¬ report e) delta)
  ∧ (∀ s, main program st = Throw s →
       refused s
       ∧ ∃ delta, trace s = (trace st ++ delta)%list ∧ Forall (λ e, ¬ report e) delta).
Proof.
  pose proof (dies_unreported_main program st) as Hmain.
  split; [intros code s Hrun|intros s Hrun]; by rewrite Hrun in Hmain.
Qed.

End Refusals.

(** * The version updater *)

Section VersionUpdater.
#[local] Arguments String.append !_ _ / : simpl nomatch.

Lemma append_assoc (a b c : string) : (a ++ b) ++ c = a ++ b ++ c.
Proof. induction a as [|x a IH]; simpl; [done | by rewrite IH]. Qed.

Lemma append_nil_r (a : string) : a ++ EmptyString = a.
Proof. induction a as [|x a IH]; simpl; [done | by rewrite IH]. Qed.

Lemma span_digits_append s d r : span_digits s = (d, r) → s = d ++ r.
Proof.
  revert d r. induction s as [|c s IH]; intros d r; simpl.
  - by intros [= <- <-].
  - destruct (is_digit c).
    + destruct (span_digits s) as [d' r'] eqn:E. intros [= <- <-].
      simpl. f_equal. by apply IH.
    + by intros [= <- <-].
Qed.

Lemma span_digits_prefix s d rest m r :
  span_digits s = (d, rest) → rest = m ++ r → span_digits (d ++ m) = (d, m).
Proof.
  revert d. induction s as [|c s IH]; intros d; simpl.
  - intros [= <- <-] E. destruct m; [done | discriminate E].
  - destruct (is_digit c) eqn:Hc.
    + destruct (span_digits s) as [d' r'] eqn:E. intros [= <- <-] Hr.
      simpl. rewrite Hc. by rewrite (IH d' eq_refl Hr).
    + intros [= <- <-] Hr. destruct m as [|c' m]; [done|].
      simpl in Hr. injection Hr as <- _. simpl. by rewrite Hc.
Qed.

Lemma span_digits_before s d rest x :
  span_digits s = (d, rest) → span_digits x = (EmptyString, x) →
  span_digits (s ++ x) = (d, rest ++ x).
Proof.
  intros Hs Hx. revert d Hs. induction s as [|c s IH]; intros d; simpl.
  - by intros [= <- <-].
  - destruct (is_digit c) eqn:Hc.
    + destruct (span_digits s) as [d' r'] eqn:E. intros [= <- <-].
      by rewrite (IH d' eq_refl).
    + by intros [= <- <-].
Qed.

Lemma match_here_append items s m r : match_here items s = Some (m, r) → s = m ++ r.
Proof.
  revert s m. induction items as [|[a|] items IH]; intros s m; simpl.
  - by intros [= <- <-].
  - destruct s as [|c s]; [done|]. destruct (Ascii.eqb c a); [|done].
    destruct (match_here items s) as [[m' r']|] eqn:E; simpl; [|done].
    intros [= <- <-]. simpl. f_equal. by apply IH.
  - destruct (span_digits s) as [d rest] eqn:Hs. destruct d as [|c d]; [done|].
    destruct (match_here items rest) as [[m' r']|] eqn:E; simpl; [|done].
    intros [= <- <-]. apply span_digits_append in Hs. apply IH in E.
    rewrite Hs, E. simpl. by rewrite append_assoc.
Qed.

(** What matched matches on its own. *)
Lemma match_here_closed items s m r :
  match_here items s = Some (m, r) → match_here items m = Some (m, EmptyString).
Proof.
  revert s m. induction items as [|[a|] items IH]; intros s m; simpl.
  - by intros [= <- <-].
  - destruct s as [|c s]; [done|]. destruct (Ascii.eqb c a) eqn:Hc; [|done].
    destruct (match_here items s) as [[m' r']|] eqn:E; simpl; [|done].
    intros [= <- <-]. rewrite Hc. by rewrite (IH _ _ E).
  - destruct (span_digits s) as [d rest] eqn:Hs. destruct d as [|c d]; [done|].
    destruct (match_here items rest) as [[m' r']|] eqn:E; simpl; [|done].
    intros [= <- <-].
    change (String c (d ++ m')) with (String c d ++ m').
    rewrite (span_digits_prefix _ _ _ m' r' Hs (match_here_append _ _ _ _ E)).
    by rewrite (IH _ _ E).
Qed.

Lemma match_here_split k1 k2 s m r :
  match_here (k1 ++ k2)%list s = Some (m, r) →
  ∃ m1 m2 mid, match_here k1 s = Some (m1, mid)
               ∧ match_here k2 mid = Some (m2, r) ∧ m = m1 ++ m2.
Proof.
  revert s m. induction k1 as [|[a|] k1 IH]; intros s m; simpl.
  - intros E. by exists EmptyString, m, s.
  - destruct s as [|c s]; [done|]. destruct (Ascii.eqb c a); [|done].
    destruct (match_here (k1 ++ k2)%list s) as [[m' r']|] eqn:E; simpl; [|done].
    intros [= <- <-]. destruct (IH _ _ E) as (m1 & m2 & mid & -> & H2 & ->).
    by exists (String c m1), m2, mid.
  - destruct (span_digits s) as [d rest] eqn:Hs. destruct d as [|c d]; [done|].
    destruct (match_here (k1 ++ k2)%list rest) as [[m' r']|] eqn:E; simpl; [|done].
    intros [= <- <-]. destruct (IH _ _ E) as (m1 & m2 & mid & -> & H2 & ->).
    exists (String c d ++ m1), m2, mid. simpl. by rewrite append_assoc.
Qed.

Lemma match_here_join k1 k2 s m1 r1 x :
  match_here k1 s = Some (m1, r1) → span_digits x = (EmptyString, x) →
  match_here (k1 ++ k2)%list (s ++ x)
  = '(m2, r2) ← match_here k2 (r1 ++ x); Some (m1 ++ m2, r2).
Proof.
  intros Hs Hx. revert s m1 Hs. induction k1 as [|[a|] k1 IH]; intros s m1; simpl.
  - intros [= <- <-]. simpl. by destruct (match_here k2 (s ++ x)) as [[? ?]|].
  - destruct s as [|c s]; [done|]. simpl. destruct (Ascii.eqb c a); [|done].
    destruct (match_here k1 s) as [[m' r']|] eqn:E; simpl; [|done].
    intros [= <- <-]. rewrite (IH _ _ E).
    by destruct (match_here k2 (r' ++ x)) as [[? ?]|].
  - destruct (span_digits s) as [d rest] eqn:Hd. destruct d as [|c d]; [done|].
    destruct (match_here k1 rest) as [[m' r']|] eqn:E; simpl; [|done].
    intros [= <- <-]. rewrite (span_digits_before _ _ _ _ Hd Hx), (IH _ _ E).
    destruct (match_here k2 (r' ++ x)) as [[? ?]|]; simpl; [|done].
    by rewrite append_assoc.
Qed.

Lemma match_here_literal p k s :
  match_here (literal p ++ k)%list (p ++ s)
  = '(m, r) ← match_here k s; Some (p ++ m, r).
Proof.
  induction p as [|c p IH]; simpl.
  - by destruct (match_here k s) as [[? ?]|].
  - rewrite Ascii.eqb_refl, IH.
    by destruct (match_here k s) as [[? ?]|].
Qed.

Lemma match_here_literal_inv p s m r :
  match_here (literal p) s = Some (m, r) → m = p.
Proof.
  revert s m. induction p as [|a p IH]; intros s m; simpl.
  - by intros [= <- <-].
  - destruct s as [|c s]; [done|]. destruct (Ascii.eqb_spec c a) as [->|]; [|done].
    destruct (match_here (literal p) s) as [[m' r']|] eqn:E; simpl; [|done].
    intros [= <- <-]. f_equal. by eapply IH.
Qed.

Lemma all_chars_append P (a b : string) :
  all_chars P (a ++ b) = all_chars P a && all_chars P b.
Proof. induction a as [|c a IH]; simpl; [done|]. by rewrite IH, andb_assoc. Qed.

Lemma span_digits_chars (P : ascii → bool) s d rest :
  (∀ c, is_digit c = true → P c = true) →
  span_digits s = (d, rest) → all_chars P d = true.
Proof.
  intros Hdigit. revert d. induction s as [|c s IH]; intros d; simpl.
  - by intros [= <- <-].
  - destruct (is_digit c) eqn:Hc.
    + destruct (span_digits s) as [d' r'] eqn:E. intros [= <- <-]. simpl.
      by rewrite (Hdigit _ Hc), (IH d' eq_refl).
    + by intros [= <- <-].
Qed.

(** Every character of a match is a digit or a literal of the expression. *)
Lemma match_here_chars (P : ascii → bool) items s m r :
  (∀ c, is_digit c = true → P c = true) →
  Forall (λ it, match it with Lit a => P a = true | Digits => True end) items →
  match_here items s = Some (m, r) → all_chars P m = true.
Proof.
  intros Hdigit Hitems. revert s m.
  induction Hitems as [|[a|] items Ha _ IH]; intros s m; simpl.
  - by intros [= <- <-].
  - destruct s as [|c s]; [done|]. destruct (Ascii.eqb_spec c a) as [->|]; [|done].
    destruct (match_here items s) as [[m' r']|] eqn:E; simpl; [|done].
    intros [= <- <-]. simpl. by rewrite Ha, (IH _ _ E).
  - destruct (span_digits s) as [d rest] eqn:Hd. destruct d as [|c d]; [done|].
    destruct (match_here items rest) as [[m' r']|] eqn:E; simpl; [|done].
    intros [= <- <-].
    change (String c (d ++ m')) with (String c d ++ m').
    by rewrite all_chars_append, (span_digits_chars P _ _ _ Hdigit Hd), (IH _ _ E).
Qed.

Lemma match_here_literal_only p s : match_here (literal p) (p ++ s) = Some (p, s).
Proof. induction p as [|c p IH]; simpl; [done|]. by rewrite Ascii.eqb_refl, IH. Qed.

(** *** Where a match may start *)

Lemma agree_span s t :
  agree s t →
  ∃ d r r', span_digits s = (d, r) ∧ span_digits t = (d, r') ∧ agree r r'.
Proof.
  induction 1 as [s t Hs Ht | c s t Hst (d & r & r' & Es & Et & Hr)].
  - exists EmptyString, s, t. split; [|split].
    + destruct s as [|c s]; [done|]. simpl in Hs. by subst c.
    + destruct t as [|c t]; [done|]. simpl in Ht. by subst c.
    + by apply agree_stop.
  - simpl. destruct (is_digit c) eqn:Hc.
    + exists (String c d), r, r'. by rewrite Es, Et.
    + exists EmptyString, (String c s), (String c t).
      split; [done|]. split; [done|]. by apply agree_cons.
Qed.

Lemma match_here_stops a items u :
  Lit a ≠ Lit "C" → stops u → match_here (Lit a :: items) u = None.
Proof.
  intros Ha Hu. destruct u as [|c u]; [done|]. simpl in Hu. subst c.
  cbn [match_here]. destruct (Ascii.eqb_spec "C" a) as [<-|]; [by destruct Ha|done].
Qed.

(** Past its first character, the expression has no [C]: whether it
    matches is decided before the next point where a match may start. *)
Lemma match_here_agree items s t :
  Forall (λ it, it ≠ Lit "C") items → agree s t →
  fst <$> match_here items s = fst <$> match_here items t.
Proof.
  intros Hitems. revert s t.
  induction Hitems as [|[a|] items Ha _ IH]; intros s t Hst.
  - done.
  - destruct Hst as [s t Hs Ht | c s t Hst].
    + by rewrite !match_here_stops.
    + simpl. destruct (Ascii.eqb c a); [|done]. specialize (IH s t Hst).
      destruct (match_here items s) as [[? ?]|], (match_here items t) as [[? ?]|];
        simpl in *; congruence.
  - simpl. destruct (agree_span _ _ Hst) as (d & r & r' & -> & -> & Hr).
    destruct d as [|c d]; [done|]. specialize (IH r r' Hr).
    destruct (match_here items r) as [[? ?]|], (match_here items r') as [[? ?]|];
      simpl in *; congruence.
Qed.

Lemma VERSION_REGEX_head :
  ∃ items, VERSION_REGEX = Lit "C" :: items ∧ Forall (λ it, it ≠ Lit "C") items.
Proof. eexists. split; [reflexivity|]. repeat (constructor; [done|]). constructor. Qed.

Lemma match_version_agree c s t :
  agree s t →
  fst <$> match_here VERSION_REGEX (String c s)
  = fst <$> match_here VERSION_REGEX (String c t).
Proof.
  intros Hst. destruct VERSION_REGEX_head as (items & -> & Hitems). simpl.
  destruct (Ascii.eqb c "C"); [|done].
  pose proof (match_here_agree items s t Hitems Hst) as H.
  destruct (match_here items s) as [[? ?]|], (match_here items t) as [[? ?]|];
    simpl in *; congruence.
Qed.

Lemma match_version_head s m r :
  match_here VERSION_REGEX s = Some (m, r) → ∃ m', m = String "C" m'.
Proof.
  destruct VERSION_REGEX_head as (items & -> & _). simpl.
  destruct s as [|c s]; [done|]. destruct (Ascii.eqb_spec c "C") as [->|]; [|done].
  destruct (match_here items s) as [[m' r']|]; simpl; [|done].
  intros [= <- <-]. by eexists.
Qed.

Lemma match_version_shorter s m r :
  match_here VERSION_REGEX s = Some (m, r) → (String.length r < String.length s)%nat.
Proof.
  intros E. destruct (match_version_head _ _ _ E) as [m' ->].
  apply match_here_append in E as ->. simpl. rewrite length_append. lia.
Qed.

(** *** The pieces of a text *)

Lemma pieces_upto_enough n n' s :
  (String.length s ≤ n)%nat → (String.length s ≤ n')%nat →
  pieces_upto n s = pieces_upto n' s.
Proof.
  assert (match_here VERSION_REGEX EmptyString = None) as Hempty by reflexivity.
  revert n' s. induction n as [|n IH]; intros [|n'] s Hn Hn'; cbn [pieces_upto].
  - done.
  - destruct s; [|simpl in Hn; lia]. by rewrite Hempty.
  - destruct s; [|simpl in Hn'; lia]. by rewrite Hempty.
  - destruct (match_here VERSION_REGEX s) as [[m rest]|] eqn:E.
    + f_equal. apply match_version_shorter in E. apply IH; lia.
    + destruct s as [|c s]; [done|]. f_equal. simpl in Hn, Hn'. apply IH; lia.
Qed.

Lemma pieces_eq s :
  pieces s = match match_here VERSION_REGEX s with
             | Some (m, rest) => Match m :: pieces rest
             | None => match s with
                       | String c rest => Text c :: pieces rest
                       | EmptyString => []
                       end
             end.
Proof.
  unfold pieces. destruct s as [|c s]; [reflexivity|].
  cbn [String.length pieces_upto].
  destruct (match_here VERSION_REGEX (String c s)) as [[m rest]|] eqn:E; [|done].
  f_equal. apply match_version_shorter in E. simpl in E.
  apply pieces_upto_enough; lia.
Qed.

Lemma pieces_ind (P : string → Prop) :
  P EmptyString →
  (∀ s m rest, match_here VERSION_REGEX s = Some (m, rest) → P rest → P s) →
  (∀ c s, match_here VERSION_REGEX (String c s) = None → P s → P (String c s)) →
  ∀ s, P s.
Proof.
  intros H0 Hm Ht s. remember (String.length s) as n eqn:Hn. revert s Hn.
  induction (lt_wf n) as [n _ IH]. intros s ->.
  destruct (match_here VERSION_REGEX s) as [[m rest]|] eqn:E.
  - apply (Hm _ _ _ E). apply (IH (String.length rest)); [|done].
    by apply match_version_shorter in E.
  - destruct s as [|c s]; [done|]. apply (Ht _ _ E).
    apply (IH (String.length s)); [simpl; lia|done].
Qed.

Lemma pieces_text_pieces s : pieces_text (pieces s) = s.
Proof.
  induction s as [|s m rest E IH|c s E IH] using pieces_ind.
  - reflexivity.
  - rewrite pieces_eq, E. cbn [pieces_text piece_text]. rewrite IH.
    symmetry. by apply match_here_append in E.
  - rewrite pieces_eq, E. cbn [pieces_text piece_text]. by rewrite IH.
Qed.

(** *** Version lines *)

Lemma match_version_line v x :
  is_version v = true →
  match_here VERSION_REGEX (version_line v ++ x) = Some (version_line v, x).
Proof.
  unfold is_version.
  destruct (match_here VERSION_NUMBER v) as [[m [|? ?]]|] eqn:E; try done. intros _.
  pose proof (match_here_append _ _ _ _ E) as Hv. rewrite append_nil_r in Hv. subst m.
  unfold VERSION_REGEX, version_line. rewrite !append_assoc, match_here_literal.
  rewrite (match_here_join _ (literal VERSION_CLOSE) _ _ _ (VERSION_CLOSE ++ x) E eq_refl).
  change (EmptyString ++ VERSION_CLOSE ++ x) with (VERSION_CLOSE ++ x).
  by rewrite match_here_literal_only.
Qed.

Lemma match_version_inv s m r :
  match_here VERSION_REGEX s = Some (m, r) →
  ∃ v, is_version v = true ∧ m = version_line v.
Proof.
  unfold VERSION_REGEX. intros E.
  apply match_here_split in E as (m1 & m23 & mid & E1 & E23 & ->).
  apply match_here_split in E23 as (m2 & m3 & mid' & E2 & E3 & ->).
  apply match_here_literal_inv in E1 as ->. apply match_here_literal_inv in E3 as ->.
  exists m2. split; [|done]. unfold is_version.
  by rewrite (match_here_closed _ _ _ _ E2).
Qed.

(** A version number holds no character that is neither a digit nor a
    dot. *)
Lemma version_without a v :
  is_digit a = false → a ≠ "."%char → is_version v = true →
  all_chars (λ c, negb (Ascii.eqb c a)) v = true.
Proof.
  intros Ha Hdot. unfold is_version.
  destruct (match_here VERSION_NUMBER v) as [[m [|? ?]]|] eqn:E; try done. intros _.
  pose proof (match_here_append _ _ _ _ E) as Hv. rewrite append_nil_r in Hv. subst m.
  apply (match_here_chars _ VERSION_NUMBER v v EmptyString); [| |done].
  - intros c Hc. destruct (Ascii.eqb_spec c a) as [->|]; [congruence|done].
  - assert (negb (Ascii.eqb "." a) = true) as Hne
      by (destruct (Ascii.eqb_spec "." a); [congruence|done]).
    unfold VERSION_NUMBER. repeat constructor; done.
Qed.

Lemma expand_plain r m b a :
  all_chars (λ c, negb (Ascii.eqb c "$")) r = true → expand r m b a = r.
Proof.
  induction r as [|c r IH]; [done|]. cbn [all_chars expand].
  destruct (Ascii.eqb c "$"); [done|]. simpl. intros Hr. by rewrite IH.
Qed.

Lemma version_line_plain v m b a :
  is_version v = true → expand (version_line v) m b a = version_line v.
Proof.
  intros Hv. apply expand_plain. unfold version_line.
  rewrite !all_chars_append, (version_without "$" v); done.
Qed.

(** *** Replacing *)

Lemma replace_pieces_plain r before ps :
  (∀ m b a, expand r m b a = r) →
  replace_pieces r before ps = pieces_text (substitute r <$> ps).
Proof.
  intros Hr. revert before. induction ps as [|[c|m] ps IH]; intros before; [done| |].
  - cbn [replace_pieces]. by rewrite IH.
  - cbn [replace_pieces]. by rewrite Hr, IH.
Qed.

Lemma replace_pieces_text r before ps :
  matches_of ps = [] → replace_pieces r before ps = pieces_text ps.
Proof.
  revert before. induction ps as [|[c|m] ps IH]; intros before; [done| |done].
  intros Hps. cbn [replace_pieces]. by rewrite IH.
Qed.

Lemma matches_of_substitute r ps :
  matches_of (substitute r <$> ps) = (λ _, r) <$> matches_of ps.
Proof.
  induction ps as [|[c|m] ps IH]; [done| |].
  - exact IH.
  - change (r :: matches_of (substitute r <$> ps) = r :: ((λ _, r) <$> matches_of ps)).
    by rewrite IH.
Qed.

Lemma substitute_substitute r r' (ps : list Piece) :
  substitute r' <$> (substitute r <$> ps) = substitute r' <$> ps.
Proof. induction ps as [|[c|m] ps IH]; [done| |]; rewrite !fmap_cons; by rewrite IH. Qed.

Lemma agree_prefix p x : stops x → agree p (p ++ x).
Proof.
  intros Hx. induction p as [|c p IH]; [by apply agree_stop|].
  by apply agree_cons.
Qed.

Lemma agree_sym s t : agree s t → agree t s.
Proof. induction 1; [by apply agree_stop | by apply agree_cons]. Qed.

Lemma stops_version_line v x : stops (version_line v ++ x).
Proof. exact eq_refl. Qed.

Lemma agree_substituted v s :
  agree s (pieces_text (substitute (version_line v) <$> pieces s)).
Proof.
  induction s as [|s m rest E IH|c s E IH] using pieces_ind.
  - by apply agree_stop.
  - rewrite pieces_eq, E. apply agree_stop; [|exact eq_refl].
    destruct (match_version_head _ _ _ E) as [m' ->].
    by apply match_here_append in E as ->.
  - rewrite pieces_eq, E. by apply agree_cons.
Qed.

Lemma match_version_None c s t :
  agree s t → match_here VERSION_REGEX (String c s) = None →
  match_here VERSION_REGEX (String c t) = None.
Proof.
  intros Hst E. pose proof (match_version_agree c s t Hst) as H. rewrite E in H.
  by destruct (match_here VERSION_REGEX (String c t)).
Qed.

(** Cut at its version lines, the rewritten text has the pieces of the
    original, each line replaced. *)
Lemma pieces_substituted v s :
  is_version v = true →
  pieces (pieces_text (substitute (version_line v) <$> pieces s))
  = substitute (version_line v) <$> pieces s.
Proof.
  intros Hv. induction s as [|s m rest E IH|c s E IH] using pieces_ind.
  - reflexivity.
  - rewrite (pieces_eq s), E, fmap_cons. cbn [pieces_text piece_text substitute].
    by rewrite pieces_eq, (match_version_line _ _ Hv), IH.
  - rewrite (pieces_eq (String c s)), E, fmap_cons.
    pose proof (match_version_None c _ _ (agree_substituted v s) E) as E'.
    set (T := pieces_text (_ <$> pieces s)) in *.
    change (pieces (String c T) = Text c :: (substitute (version_line v) <$> pieces s)).
    by rewrite pieces_eq, E', IH.
Qed.

Lemma writeVersion_substitutes contents v :
  is_version v = true →
  writeVersion contents v
  = pieces_text (substitute (version_line v) <$> pieces contents).
Proof.
  intros Hv. apply (replace_pieces_plain (version_line v)).
  intros m b a. by apply version_line_plain.
Qed.

(** *** Reading *)

Lemma strip_prefix_append p s : strip_prefix p (p ++ s) = Some s.
Proof. induction p as [|c p IH]; simpl; [done|]. by rewrite Ascii.eqb_refl. Qed.

Lemma replace_from_hit b p r s a :
  strip_prefix p s = Some a → replace_from b p r s = expand r p b a ++ a.
Proof. intros H. destruct s; cbn [replace_from]; by rewrite H. Qed.

Lemma remove_close b v :
  all_chars (λ c, negb (Ascii.eqb c "034")) v = true →
  replace_from b VERSION_CLOSE EmptyString (v ++ VERSION_CLOSE) = v.
Proof.
  revert b. induction v as [|c v IH]; intros b; [reflexivity|].
  cbn [all_chars]. intros [Hc Hv]%andb_true_iff. apply negb_true_iff in Hc.
  change (String c v ++ VERSION_CLOSE) with (String c (v ++ VERSION_CLOSE)).
  cbn [replace_from].
  change VERSION_CLOSE with (String "034" (String ";" EmptyString)) at 1.
  cbn [strip_prefix]. rewrite Hc. by rewrite IH.
Qed.

(** The text between [CURRENT_VERSION = "] and [";] of a version line. *)
Lemma read_version_line v :
  is_version v = true →
  js_replace (js_replace (version_line v) VERSION_OPEN EmptyString)
    VERSION_CLOSE EmptyString = v.
Proof.
  intros Hv. unfold js_replace, version_line.
  rewrite (replace_from_hit _ _ _ _ _ (strip_prefix_append VERSION_OPEN _)).
  change (expand EmptyString VERSION_OPEN EmptyString (v ++ VERSION_CLOSE)
          ++ v ++ VERSION_CLOSE) with (v ++ VERSION_CLOSE).
  apply remove_close. by apply version_without.
Qed.

Lemma readVersion_matches contents v ms :
  is_version v = true → matches_of (pieces contents) = version_line v :: ms →
  readVersion contents = Returned (Some v).
Proof.
  intros Hv Hms. unfold readVersion, js_match. rewrite Hms.
  cbn [length Nat.eqb negb head default from_option Datatypes.id].
  by rewrite read_version_line.
Qed.

Lemma readVersion_TypeError contents :
  readVersion contents = TypeError ↔ matches_of (pieces contents) = [].
Proof.
  unfold readVersion, js_match. by destruct (matches_of (pieces contents)).
Qed.

(** The first match: a version line with no version line before it. *)
Lemma first_match s m ms :
  matches_of (pieces s) = m :: ms →
  ∃ pre v post, is_version v = true ∧ m = version_line v
                ∧ s = pre ++ m ++ post ∧ matches_of (pieces pre) = [].
Proof.
  induction s as [|s m0 rest E IH|c s E IH] using pieces_ind.
  - done.
  - rewrite pieces_eq, E. intros [= <- _].
    destruct (match_version_inv _ _ _ E) as (v & Hv & ->).
    exists EmptyString, v, rest. split; [done|]. split; [done|].
    split; [by apply match_here_append in E|done].
  - rewrite pieces_eq, E. intros Hms.
    destruct (IH Hms) as (pre & v & post & Hv & -> & -> & Hpre).
    exists (String c pre), v, post. split; [done|]. split; [done|]. split; [done|].
    rewrite pieces_eq, (match_version_None c (pre ++ version_line v ++ post) pre);
      [done| |done].
    apply agree_sym, agree_prefix, stops_version_line.
Qed.

Lemma matches_after_prefix pre v post :
  is_version v = true → matches_of (pieces pre) = [] →
  matches_of (pieces (pre ++ version_line v ++ post))
  = version_line v :: matches_of (pieces post).
Proof.
  intros Hv. induction pre as [|c pre IH].
  - intros _. change (EmptyString ++ ?x) with x.
    by rewrite pieces_eq, match_version_line.
  - rewrite (pieces_eq (String c pre)).
    destruct (match_here VERSION_REGEX (String c pre)) as [[m rest]|] eqn:E; [done|].
    intros Hpre.
    change (String c pre ++ ?x) with (String c (pre ++ x)).
    rewrite pieces_eq,
      (match_version_None c _ _ (agree_prefix pre _ (stops_version_line v post)) E).
    by apply IH.
Qed.

Lemma matches_with_line pre v post :
  is_version v = true → matches_of (pieces (pre ++ version_line v ++ post)) ≠ [].
Proof.
  intros Hv. induction pre as [|c pre IH].
  - change (EmptyString ++ ?x) with x.
    by rewrite pieces_eq, match_version_line.
  - change (String c pre ++ ?x) with (String c (pre ++ x)). rewrite pieces_eq.
    by destruct (match_here VERSION_REGEX _) as [[m rest]|].
Qed.

(** *** [readVersion] and [writeVersion] *)

(** X12.  [readVersion] throws a [TypeError] exactly when the text holds no
    version line, that is no [CURRENT_VERSION = "a.b.c";] with numbers [a],
    [b] and [c]; it never returns [null]. *)
Theorem readVersion_throws_without_version_line contents :
  (readVersion contents = TypeError
   ↔ ∀ pre v post, is_version v = true → contents ≠ pre ++ version_line v ++ post)
  ∧ readVersion contents ≠ Returned None.
Proof.
  split; [rewrite readVersion_TypeError; split|].
  - intros Hnone pre v post Hv ->. by apply (matches_with_line pre v post Hv).
  - intros Hno. destruct (matches_of (pieces contents)) as [|m ms] eqn:E; [done|].
    destruct (first_match _ _ _ E) as (pre & v & post & Hv & -> & Hs & _).
    by destruct (Hno pre v post Hv).
  - unfold readVersion, js_match. by destruct (matches_of (pieces contents)).
Qed.

(** X13.  [readVersion] returns [v] exactly when [v] is the version number
    of the first version line of the text: a version line with no version
    line before it. *)
Theorem readVersion_first_version_line contents v :
  readVersion contents = Returned (Some v)
  ↔ is_version v = true
    ∧ ∃ pre post, contents = pre ++ version_line v ++ post
                  ∧ readVersion pre = TypeError.
Proof.
  split.
  - unfold readVersion at 1, js_match.
    destruct (matches_of (pieces contents)) as [|m ms] eqn:E; [done|].
    destruct (first_match _ _ _ E) as (pre & v' & post & Hv & -> & Hs & Hpre).
    cbn [length Nat.eqb negb head default from_option Datatypes.id].
    rewrite read_version_line by done. intros [= <-]. split; [done|].
    exists pre, post. split; [done|]. by apply readVersion_TypeError.
  - intros (Hv & pre & post & -> & Hpre). apply readVersion_TypeError in Hpre.
    eapply readVersion_matches; [done|]. by apply matches_after_prefix.
Qed.

(** X14.  [writeVersion] returns a text without version line as it is,
    whatever the version. *)
Theorem writeVersion_without_version_line contents version :
  readVersion contents = TypeError → writeVersion contents version = contents.
Proof.
  intros H%readVersion_TypeError. unfold writeVersion, js_replaceAll.
  by rewrite replace_pieces_text, pieces_text_pieces.
Qed.

(** X15.  Round trip: once [writeVersion] has written the version number
    [v] into a text that holds a version line, [readVersion] returns [v]. *)
Theorem readVersion_writeVersion contents v :
  is_version v = true → readVersion contents ≠ TypeError →
  readVersion (writeVersion contents v) = Returned (Some v).
Proof.
  intros Hv Hline. rewrite readVersion_TypeError in Hline.
  destruct (matches_of (pieces contents)) as [|m ms] eqn:E; [done|].
  apply (readVersion_matches _ v ((λ _, version_line v) <$> ms)); [done|].
  by rewrite writeVersion_substitutes, pieces_substituted, matches_of_substitute, E.
Qed.

(** X16.  Writing a version number over another leaves what writing it
    directly gives; in particular writing the same number twice changes
    nothing the second time. *)
Theorem writeVersion_overwrites contents v1 v2 :
  is_version v1 = true → is_version v2 = true →
  writeVersion (writeVersion contents v1) v2 = writeVersion contents v2.
Proof.
  intros H1 H2.
  rewrite (writeVersion_substitutes (writeVersion _ _)), !writeVersion_substitutes by done.
  by rewrite pieces_substituted, substitute_substitute.
Qed.

(** X17.  [writeVersion] rewrites every version line of the text, not only
    the first, and nothing else: cut at its version lines, the result has
    the pieces of the text with each version line replaced by the line of
    [v]. *)
Theorem writeVersion_rewrites_every_version_line contents v :
  is_version v = true →
  pieces (writeVersion contents v) = substitute (version_line v) <$> pieces contents
  ∧ js_match (writeVersion contents v)
    = (λ ms : list string, (λ _, version_line v) <$> ms) <$> js_match contents.
Proof.
  intros Hv. rewrite writeVersion_substitutes by done.
  split; [by apply pieces_substituted|].
  unfold js_match. rewrite pieces_substituted, matches_of_substitute by done.
  by destruct (matches_of (pieces contents)).
Qed.

End VersionUpdater.

(** * The further properties on the example *)

(** Without [--dir] nothing happens but the two logs. *)
Lemma rejected_command_line_touches_nothing_witness :
  ∃ st',
    main options_without_dir (example_boot online) = Exit 1 st'
    ∧ trace st' = [EvLog log_init; EvLog (log_errorOptionsMissing ["dir"])]
    ∧ files st' = example_files ∧ world st' = online.
Proof.
  assert (initProgram options_without_dir (example_boot online)
          = Exit 1 (final_state (initProgram options_without_dir (example_boot online))))
    as Hrun by (vm_compute; reflexivity).
  destruct (rejected_command_line_touches_nothing _ _ _ _ Hrun)
    as (Hmain & _ & Hfiles & _ & Hworld).
  eexists. split; [exact Hmain|]. split; [vm_compute; reflexivity|].
  split; [exact Hfiles | exact Hworld].
Defined.

(** The example catalog has no show of the name [Nope]. *)
Lemma unknown_show_is_fatal_witness :
  ∃ st',
    downloadShow (show_options_from "Nope" "2020-01-01") (example_state ∅ online)
    = Exit 1 st'
    ∧ trace st' = [EvGetShowInfo "Nope" None]
    ∧ files st' = example_files.
Proof.
  assert ((getShowInfo (default EmptyString (show (show_options_from "Nope" "2020-01-01")))
            (world (example_state ∅ online))).1 = None) as Hshow by reflexivity.
  destruct (unknown_show_is_fatal (show_options_from "Nope" "2020-01-01")
              (example_state ∅ online) Hshow)
    as (st' & Hrun & Htrace & Hfiles & _).
  exists st'. split; [exact Hrun|]. split; [exact Htrace | exact Hfiles].
Defined.



(** The example video and its image are marked: nothing reaches the
    network, offline or not. *)
Lemma tracked_video_needs_no_network_witness :
  ∃ st',
    downloadVideo (show_options "highest") example_video no_bounds
      (example_state example_marks_all offline) = Done tt st'
    ∧ Forall (λ e, ¬ network_event e) (trace st')
    ∧ counts st' = mkCounter 0 1 0.
Proof.
  assert (isDownloaded (tracker (example_state example_marks_all offline)) "101" = true)
    as Hvideo by (vm_compute; reflexivity).
  assert (isDownloaded (tracker (example_state example_marks_all offline)) "101_image"
          = true) as Himage by (vm_compute; reflexivity).
  destruct (tracked_video_needs_no_network (show_options "highest") example_video
              no_bounds (example_state example_marks_all offline)
              Hvideo (or_intror Himage))
    as (st' & delta & Hrun & Htrace & Hquiet & _ & _ & _ & Hcounts).
  exists st'. split; [exact Hrun|]. split; [|exact Hcounts].
  rewrite Htrace. exact Hquiet.
Defined.

(** [--quality low] on a video with an hd URL only: a skip. *)
Lemma video_without_url_is_skipped_witness :
  urlToDownload (show_options "low") hd_only_video = None
  ∧ ∃ st',
      downloadVideo (show_options "low") hd_only_video no_bounds
        (example_state ∅ online) = Done tt st'
      ∧ counts st' = mkCounter 0 1 0
      ∧ isDownloaded (tracker st') "103" = false.
Proof.
  split; [reflexivity|].
  assert (isDownloaded (tracker (example_state ∅ online)) (id hd_only_video) = false)
    as Hnew by (vm_compute; reflexivity).
  assert (date_skipped hd_only_video no_bounds = false) as Hrange by reflexivity.
  assert (truthy (urlToDownload (show_options "low") hd_only_video) = false) as Hurl
    by reflexivity.
  destruct (video_without_url_is_skipped (show_options "low") hd_only_video no_bounds
              (example_state ∅ online) Hrange Hnew Hurl)
    as (st' & pre & Hrun & _ & _ & Hcounts & Hmark).
  exists st'. split; [exact Hrun|]. split; [exact Hcounts | exact Hmark].
Defined.

(** The ledger of the show directory marks the example video, and the run
    keeps the mark. *)
Lemma show_run_keeps_ledger_marks_witness :
  default ∅ (ledgers marked_state !! "/videos/Quick Look") !! "101" = Some true
  ∧ ∃ st',
      downloadShow (show_options "low") marked_state = Done tt st'
      ∧ default ∅ (ledgers st' !! "/videos/Quick Look") !! "101" = Some true.
Proof.
  assert (default ∅ (ledgers marked_state
                     !! path_join (directory marked_state)
                          (sanitize (title example_show))) !! "101"
          = Some true) as Hmarked by (vm_compute; reflexivity).
  split; [exact Hmarked|].
  assert (downloadShow (show_options "low") marked_state
          = Done tt (final_state (downloadShow (show_options "low") marked_state)))
    as Hrun by (vm_compute; reflexivity).
  assert ((getShowInfo (default EmptyString (show (show_options "low")))
            (world marked_state)).1 = Some example_show) as Hshow
    by (vm_compute; reflexivity).
  destruct (show_run_keeps_ledger_marks (show_options "low") marked_state _
              example_show Hshow Hrun) as (_ & _ & Hkeeps).
  eexists. split; [exact Hrun|]. exact (Hkeeps "101" Hmarked).
Defined.

(** The show command on the example returns, and its counters add up to the
    length of the list. *)
Lemma every_video_counted_once_witness :
  ∃ st',
    downloadShow (show_options "low") (example_state ∅ online) = Done tt st'
    ∧ ∃ s videos before delta c,
        trace st' = (trace (example_state ∅ online) ++ before
                     ++ [EvGetVideos s (Some videos)] ++ delta
                     ++ [EvLog (log_showComplete (title s) c)])%list
        ∧ counts st' = c
        ∧ (downloaded c + skipped c + failed c)%nat = length videos.
Proof.
  exists (final_state (downloadShow (show_options "low") (example_state ∅ online))).
  split; [vm_compute; reflexivity|].
  apply (proj2 (every_video_counted_once (show_options "low"))).
  vm_compute. reflexivity.
Defined.

(** C10, as stated, fails: on a file system whose names hold 255 bytes at
    most, the call of [downloadVideo] on a video whose sanitised base name
    holds 255 bytes dies in the exception of the metadata write, and no
    counter is incremented. *)
Lemma unwritable_metadata_is_not_counted :
  String.length (video_filename_base long_named_video) = 255%nat
  ∧ downloadVideo (fsys := strict_fs) (show_options "low") long_named_video no_bounds
      (example_state ∅ online)
    = Throw (emit (EvLog (log_debug "Writing metadata for video"))
               (example_state ∅ online))
  ∧ counts (final_state
              (downloadVideo (fsys := strict_fs) (show_options "low") long_named_video
                 no_bounds (example_state ∅ online)))
    = counts (example_state ∅ online)
  ∧ ¬ ∃ st',
        downloadVideo (fsys := strict_fs) (show_options "low") long_named_video
          no_bounds (example_state ∅ online) = Done tt st'.
Proof.
  assert (downloadVideo (fsys := strict_fs) (show_options "low") long_named_video
            no_bounds (example_state ∅ online)
          = Throw (emit (EvLog (log_debug "Writing metadata for video"))
                     (example_state ∅ online))) as Hrun by (vm_compute; reflexivity).
  split; [vm_compute; reflexivity|]. split; [exact Hrun|]. rewrite Hrun.
  split; [reflexivity|]. by intros [st' Hdone].
Qed.

(** The scenario of the specification, [--video_id 101,999]: the two
    identifiers are looked up in this order, the first is downloaded and the
    second, which the catalog does not know, is a failure. *)
Lemma identifier_mode_witness :
  ∃ st' delta c,
    downloadVideosById (id_options "101,999" "hd") (example_state ∅ online)
    = Done tt st'
    ∧ trace st' = (delta ++ [EvLog (log_videosComplete 2 c)])%list
    ∧ lookups delta = ["101"; "999"]
    ∧ (downloaded c + skipped c + failed c)%nat = 2%nat
    ∧ counts st' = mkCounter 1 0 1.
Proof.
  assert (["101"; "999"] ≠ ([] : list string)) as Hne by done.
  assert (Forall (λ i, comma_free i = true) ["101"; "999"]) as Hfree
    by (by repeat constructor).
  assert (default EmptyString (video_id (id_options "101,999" "hd"))
          = join_comma ["101"; "999"]) as Hoption by reflexivity.
  destruct (identifier_mode (id_options "101,999" "hd") (example_state ∅ online)
              ["101"; "999"] Hne Hfree Hoption)
    as ([(st' & delta & c & Hrun & Htrace & Hl & _ & _ & Hsum)
        | (st' & delta & before & i & v & rest & _ & _ & _ & _ & _ & _ & Hrefused & _)]
        & _).
  - exists st', delta, c. split; [exact Hrun|]. split; [exact Htrace|].
    split; [exact Hl|]. split; [exact Hsum|].
    vm_compute in Hrun. injection Hrun as <-. reflexivity.
  - discriminate Hrefused.
Defined.

(** A whole run on the catalog that cannot list the videos of the show. *)
Lemma main_exits_without_report_witness :
  ∃ st',
    main (show_options "low") (boot example_files ∅ outage) = Exit 1 st'
    ∧ Forall (λ e, ¬ report e) (trace st').
Proof.
  assert (main (show_options "low") (boot example_files ∅ outage)
          = Exit 1 (final_state (main (show_options "low")
                                   (boot example_files ∅ outage)))) as Hrun
    by (vm_compute; reflexivity).
  destruct (main_exits_without_report _ _ _ _ Hrun) as (_ & _ & delta & Htrace & Hquiet).
  eexists. split; [exact Hrun|]. rewrite Htrace. exact Hquiet.
Defined.

(** [--from_date soon] does not parse. *)
Lemma unparsable_date_is_no_bound_witness :
  dayjs "soon" = None
  ∧ downloadShow (show_options_from "Quick Look" "soon") (example_state ∅ online)
    = downloadShow (without_from_date (show_options_from "Quick Look" "soon"))
        (example_state ∅ online).
Proof.
  split; [vm_compute; reflexivity|].
  apply (proj1 (unparsable_date_is_no_bound (show_options_from "Quick Look" "soon")
                  (example_state ∅ online))).
  vm_compute. reflexivity.
Defined.

(** The example holds no version line before that of 1.7.1. *)
Lemma readVersion_first_version_line_witness :
  readVersion example_contents = Returned (Some "1.7.1").
Proof.
  apply (proj2 (readVersion_first_version_line example_contents "1.7.1")).
  split; [reflexivity|]. exists example_head, example_tail.
  split; [reflexivity | vm_compute; reflexivity].
Defined.

(** A text without version line. *)
Lemma writeVersion_without_version_line_witness :
  readVersion example_head = TypeError
  ∧ writeVersion example_head "2.0.0" = example_head.
Proof.
  split; [vm_compute; reflexivity|].
  apply (writeVersion_without_version_line example_head "2.0.0").
  vm_compute; reflexivity.
Defined.

Lemma readVersion_writeVersion_witness :
  is_version "2.0.0" = true
  ∧ readVersion (writeVersion example_contents "2.0.0") = Returned (Some "2.0.0").
Proof.
  split; [reflexivity|].
  apply (readVersion_writeVersion example_contents "2.0.0"); [reflexivity|].
  vm_compute. discriminate.
Defined.

Lemma writeVersion_overwrites_witness :
  writeVersion (writeVersion example_contents "1.8.0") "2.0.0"
  = writeVersion example_contents "2.0.0".
Proof.
  apply (writeVersion_overwrites example_contents "1.8.0" "2.0.0"); reflexivity.
Defined.

(** Both version lines of the example are rewritten. *)
Lemma writeVersion_rewrites_every_version_line_witness :
  js_match (writeVersion example_contents "2.0.0")
  = Some [version_line "2.0.0"; version_line "2.0.0"].
Proof.
  rewrite (proj2 (writeVersion_rewrites_every_version_line example_contents "2.0.0"
                    eq_refl)).
  vm_compute. reflexivity.
Defined.

(** The show command on a read-only file system dies in the exception of
    [fs.mkdirSync], having asked the catalog for the show and no more. *)
Lemma a_run_that_dies_reports_nothing_witness :
  ∃ s,
    main (fsys := read_only_fs) (show_options "low") (example_boot online) = Throw s
    ∧ trace s = [EvLog log_init; EvGetShowInfo "Quick Look" (Some example_show)]
    ∧ files s = example_files
    ∧ Forall (λ e, ¬ report e) (trace s).
Proof.
  assert (main (fsys := read_only_fs) (show_options "low") (example_boot online)
          = Throw (final_state (main (fsys := read_only_fs) (show_options "low")
                                  (example_boot online)))) as Hrun
    by (vm_compute; reflexivity).
  eexists. split; [exact Hrun|].
  split; [vm_compute; reflexivity|]. split; [vm_compute; reflexivity|].
  destruct (proj2 (a_run_that_dies_reports_nothing (fsys := read_only_fs)
                     (show_options "low") (example_boot online)) _ Hrun)
    as (_ & delta & Htrace & Hquiet).
  rewrite Htrace. exact Hquiet.
Defined.
